(** * libuev: a shallow embedding of the epoll/timerfd reactor of libuev.c

    The reactor is a C program over three kinds of state: the process's
    descriptor table inside the kernel (epoll interest lists, timerfd
    settings), the C heap holding the watchers, and the reactor context
    itself.  The embedding threads one [world] through a state-and-fault
    monad; every function of libuev.c becomes one monadic definition with
    the same name and the same order of effects. *)

From stdpp Require Import gmap list.
From Stdlib Require Import ZArith Lia.

Open Scope Z_scope.

(** ** Constants of the C environment *)

Definition NULL : Z := 0.

Definition EPERM  : Z := 1.
Definition ENOENT : Z := 2.
Definition EINTR  : Z := 4.
Definition EBADF  : Z := 9.
Definition ENOMEM : Z := 12.
Definition EEXIST : Z := 17.
Definition EINVAL : Z := 22.

Definition EPOLLIN  : Z := 1.
Definition EPOLLOUT : Z := 4.

Definition EPOLL_CTL_ADD : Z := 1.
Definition EPOLL_CTL_DEL : Z := 2.

(** ** Data model *)

(** Modelled from the spec: the header libuev/uev.h is not part of the
    sources at hand, so the two enumerations, the two structures and the
    constant UEV_MAX_EVENTS it declares are reconstructed from section 3 of
    the specification and from the fields libuev.c reads and writes. *)
Inductive uev_type_t := UEV_FILE_TYPE | UEV_TIMER_TYPE.

(** Modelled from the spec: interest direction of uev.h (see above). *)
Inductive uev_dir_t := UEV_DIR_INBOUND | UEV_DIR_OUTBOUND.

#[global] Instance uev_type_eq_dec : EqDecision uev_type_t.
Proof. solve_decision. Defined.

#[global] Instance uev_dir_eq_dec : EqDecision uev_dir_t.
Proof. solve_decision. Defined.

(** Modelled from the spec: struct uev_io of uev.h, with exactly the fields
    libuev.c touches.  The list linkage [link] is kept in the context's
    [watchers] list.  [handler] is a code address, [data] an opaque
    pointer; both are plain integers and 0 is the null pointer. *)
Record uev_io_t := Watcher {
  fd      : Z;
  dir     : uev_dir_t;
  type    : uev_type_t;
  handler : Z;
  data    : Z;
  timeout : Z;
  period  : Z
}.

Record timespec := Timespec { tv_sec : Z; tv_nsec : Z }.

Record itimerspec := Itimerspec { it_interval : timespec; it_value : timespec }.

Record epoll_event := EpollEvent { ev_events : Z; ev_data : Z }.

(** Modelled from the spec: struct uev of uev.h.  [watchers] is the
    LIST_HEAD of live watchers, most recently inserted first; [events] is
    the scratch buffer handed to epoll_wait. *)
Record uev_t := Uev {
  efd      : Z;
  running  : bool;
  watchers : list Z;
  events   : list epoll_event
}.

(** A [uev_t *] is either the null pointer or the address of the one
    reactor instance the development follows. *)
Inductive ctxptr := CNULL | CTX.

#[global] Instance ctxptr_eq_dec : EqDecision ctxptr.
Proof. solve_decision. Defined.

(** An open file description.  A timerfd remembers the schedule it was
    last programmed with and the reading of the monotonic clock at that
    moment; it is disarmed while [it_value] is zero. *)
Inductive file :=
| FEpoll (interest : gmap Z epoll_event)
| FTimer (cur : itimerspec) (since : Z)
| FOther.

(** Answers of the environment, consumed in order by the system calls
    whose result the program state does not determine. *)
Inductive answer :=
| Alloc (ok : bool)                       (* calloc *)
| NewFd (r : Z)                           (* timerfd_create: fd or -1 *)
| CtlAdd (err : Z)                        (* epoll_ctl ADD: 0 or an errno *)
| Ready (elapsed : Z) (ready : list Z)    (* epoll_wait: ready descriptors *)
| WaitErr (err : Z)                       (* epoll_wait: failure, errno *)
| ReadRet (n : Z).                        (* read on a timerfd *)

(** The calls an application (or a callback) can make into the library. *)
Inductive call :=
| CIoCreate (c : ctxptr) (h d : Z) (f : Z) (dr : uev_dir_t)
| CIoDelete (c : ctxptr) (w : Z)
| CTimerCreate (c : ctxptr) (h d : Z) (t p : Z)
| CTimerSet (c : ctxptr) (w : Z) (t p : Z)
| CTimerDelete (c : ctxptr) (w : Z)
| CExit (c : ctxptr).

(** Observable history: system calls with their results, callback
    invocations and API calls issued by application code. *)
Inductive event :=
| EvEpollCtl (op : Z) (f : Z) (ret : Z)
| EvSettime (f : Z) (v : itimerspec) (ret : Z)
| EvClose (f : Z)
| EvWait (ret : Z) (err : Z)
| EvRead (f : Z) (ret : Z)
| EvCallback (h w d : Z)
| EvCall (c : call).

Record world := World {
  fds   : gmap Z file;        (* descriptor table of the process *)
  clock : Z;                  (* CLOCK_MONOTONIC, nanoseconds *)
  ctx   : option uev_t;       (* the reactor instance, if allocated *)
  heap  : gmap Z uev_io_t;    (* live watcher blocks *)
  brk   : Z;                  (* next block address; never reused *)
  errno : Z;
  env   : list answer;
  log   : list event
}.

(** Field updates. *)
Definition set_fds (f : gmap Z file) (s : world) : world :=
  World f (clock s) (ctx s) (heap s) (brk s) (errno s) (env s) (log s).
Definition set_clock (c : Z) (s : world) : world :=
  World (fds s) c (ctx s) (heap s) (brk s) (errno s) (env s) (log s).
Definition set_ctx (c : option uev_t) (s : world) : world :=
  World (fds s) (clock s) c (heap s) (brk s) (errno s) (env s) (log s).
Definition set_heap (h : gmap Z uev_io_t) (s : world) : world :=
  World (fds s) (clock s) (ctx s) h (brk s) (errno s) (env s) (log s).
Definition set_brk (b : Z) (s : world) : world :=
  World (fds s) (clock s) (ctx s) (heap s) b (errno s) (env s) (log s).
Definition set_errno (e : Z) (s : world) : world :=
  World (fds s) (clock s) (ctx s) (heap s) (brk s) e (env s) (log s).
Definition set_env (a : list answer) (s : world) : world :=
  World (fds s) (clock s) (ctx s) (heap s) (brk s) (errno s) a (log s).
Definition set_log (l : list event) (s : world) : world :=
  World (fds s) (clock s) (ctx s) (heap s) (brk s) (errno s) (env s) l.

(** ** The monad: state plus faults *)

Inductive fault :=
| Undefined     (* null or dangling dereference: undefined behaviour in C *)
| Stuck         (* the environment has no (or no possible) answer left *)
| OutOfFuel.    (* a loop bound of the model was reached *)

Inductive outcome (A : Type) :=
| Done (a : A) (s : world)
| Fault (f : fault).
Arguments Done {A} a s.
Arguments Fault {A} f.

Definition M (A : Type) : Type := world -> outcome A.

Definition ret {A} (a : A) : M A := fun s => Done a s.

Definition bind {A B} (m : M A) (k : A -> M B) : M B :=
  fun s => match m s with
           | Done a s' => k a s'
           | Fault f => Fault f
           end.

Definition fail {A} (f : fault) : M A := fun _ => Fault f.

Notation "'let*' x ':=' m 'in' k" := (bind m (fun x => k))
  (at level 10, x pattern, m at level 100, k at level 200).
Notation "m ';;' k" := (bind m (fun _ => k))
  (at level 100, k at level 200, right associativity).

Definition gets {A} (f : world -> A) : M A := fun s => Done (f s) s.
Definition modify (f : world -> world) : M unit := fun s => Done tt (f s).

Definition emit (e : event) : M unit :=
  modify (fun s => set_log (log s ++ [e]) s).

(** Next answer of the environment. *)
Definition ask : M answer :=
  fun s => match env s with
           | [] => Fault Stuck
           | a :: rest => Done a (set_env rest s)
           end.

(** Dereferencing a context pointer. *)
Definition get_ctx (c : ctxptr) : M uev_t :=
  fun s => match c, ctx s with
           | CTX, Some u => Done u s
           | _, _ => Fault Undefined
           end.

Definition put_ctx (u : uev_t) : M unit :=
  modify (set_ctx (Some u)).

(** Dereferencing a watcher pointer. *)
Definition load (w : Z) : M uev_io_t :=
  fun s => match heap s !! w with
           | Some v => Done v s
           | None => Fault Undefined
           end.

Definition store (w : Z) (v : uev_io_t) : M unit :=
  load w ;; modify (fun s => set_heap (<[w := v]> (heap s)) s).

(** ** The C library and the kernel *)

Definition sys_fail (e : Z) : M Z :=
  modify (set_errno e) ;; ret (-1).

(** calloc zero-fills the block.  The enumeration members chosen for the
    zero block are immaterial: [new_watcher] overwrites both before any
    read. *)
Definition zero_watcher : uev_io_t :=
  Watcher 0 UEV_DIR_INBOUND UEV_FILE_TYPE 0 0 0 0.

(** A successful calloc hands out the next block, which is neither the
    null address nor a block in use. *)
Definition calloc_watcher : M Z :=
  let* a := ask in
  match a with
  | Alloc true =>
      fun s =>
        if decide (0 < brk s /\ heap s !! brk s = None)
        then Done (brk s)
               (set_brk (brk s + 1)
                  (set_heap (<[brk s := zero_watcher]> (heap s)) s))
        else Fault Stuck
  | Alloc false => modify (set_errno ENOMEM) ;; ret NULL
  | _ => fail Stuck
  end.

Definition free (w : Z) : M unit :=
  load w ;; modify (fun s => set_heap (delete w (heap s)) s).

(** calloc(1, sizeof(uev_t)): the zero-filled instance has the flag down,
    an empty list head and a null buffer pointer.  The development follows
    one instance, so the allocator can hand it out only while it is not in
    use. *)
Definition zero_ctx : uev_t := Uev 0 false [] [].

Definition calloc_ctx : M ctxptr :=
  let* a := ask in
  match a with
  | Alloc true =>
      fun s =>
        match ctx s with
        | None => Done CTX (set_ctx (Some zero_ctx) s)
        | Some _ => Fault Stuck
        end
  | Alloc false => modify (set_errno ENOMEM) ;; ret CNULL
  | _ => fail Stuck
  end.

(** calloc(n, sizeof(struct epoll_event)): [n] zeroed entries, or null. *)
Definition calloc_events (n : nat) : M (option (list epoll_event)) :=
  let* a := ask in
  match a with
  | Alloc true => ret (Some (replicate n (EpollEvent 0 0)))
  | Alloc false => modify (set_errno ENOMEM) ;; ret None
  | _ => fail Stuck
  end.

Definition free_ctx (c : ctxptr) : M unit :=
  get_ctx c ;; modify (set_ctx None).

Definition epoll_ctl (epfd op f : Z) (ev : option epoll_event) : M Z :=
  let* r :=
    (let* t := gets fds in
     match t !! epfd, t !! f with
     | Some (FEpoll m), Some _ =>
         if decide (f = epfd) then sys_fail EINVAL
         else if decide (op = EPOLL_CTL_ADD) then
           match m !! f, ev with
           | Some _, _ => sys_fail EEXIST
           | None, None => sys_fail EINVAL
           | None, Some e =>
               let* a := ask in
               match a with
               | CtlAdd err =>
                   if decide (err = 0)
                   then modify (set_fds (<[epfd := FEpoll (<[f := e]> m)]> t)) ;;
                        ret 0
                   else sys_fail err
               | _ => fail Stuck
               end
           end
         else if decide (op = EPOLL_CTL_DEL) then
           match m !! f with
           | Some _ =>
               modify (set_fds (<[epfd := FEpoll (delete f m)]> t)) ;; ret 0
           | None => sys_fail ENOENT
           end
         else sys_fail EINVAL
     | Some (FEpoll _), None => sys_fail EBADF
     | Some _, _ => sys_fail EINVAL
     | None, _ => sys_fail EBADF
     end) in
  emit (EvEpollCtl op f r) ;; ret r.

Definition zero_spec : itimerspec :=
  Itimerspec (Timespec 0 0) (Timespec 0 0).

Definition timerfd_create : M Z :=
  let* a := ask in
  match a with
  | NewFd r =>
      if r <? 0 then sys_fail ENOMEM
      else fun s =>
             match fds s !! r with
             | None => Done r (set_fds (<[r := FTimer zero_spec (clock s)]> (fds s)) s)
             | Some _ => Fault Stuck
             end
  | _ => fail Stuck
  end.

(** epoll_create(1): the environment picks the descriptor, or refuses. *)
Definition epoll_create : M Z :=
  let* a := ask in
  match a with
  | NewFd r =>
      if r <? 0 then sys_fail ENOMEM
      else fun s =>
             match fds s !! r with
             | None => Done r (set_fds (<[r := FEpoll ∅]> (fds s)) s)
             | Some _ => Fault Stuck
             end
  | _ => fail Stuck
  end.

Definition valid_timespec (ts : timespec) : bool :=
  (0 <=? tv_sec ts) && (0 <=? tv_nsec ts) && (tv_nsec ts <? 1000000000).

Definition timerfd_settime (f : Z) (new : itimerspec) : M Z :=
  let* r :=
    (fun s =>
       match fds s !! f with
       | Some (FTimer _ _) =>
           if valid_timespec (it_value new) && valid_timespec (it_interval new)
           then Done 0 (set_fds (<[f := FTimer new (clock s)]> (fds s)) s)
           else sys_fail EINVAL s
       | Some _ => sys_fail EINVAL s
       | None => sys_fail EBADF s
       end) in
  emit (EvSettime f new r) ;; ret r.

(** Closing a descriptor also drops it from every epoll interest list. *)
Definition forget (f : Z) (x : file) : file :=
  match x with
  | FEpoll m => FEpoll (delete f m)
  | _ => x
  end.

Definition close (f : Z) : M Z :=
  let* r :=
    (fun s =>
       match fds s !! f with
       | Some _ => Done 0 (set_fds (forget f <$> delete f (fds s)) s)
       | None => sys_fail EBADF s
       end) in
  emit (EvClose f) ;; ret r.

(** read(fd, &exp, sizeof(exp)) on a timerfd: the byte count or -1. *)
Definition read_timer (f : Z) : M Z :=
  let* a := ask in
  match a with
  | ReadRet n => emit (EvRead f n) ;; ret n
  | _ => fail Stuck
  end.

(** What the kernel answers to such a read on a nonblocking timerfd in
    state [x] at time [now], for a timer that has not been read since it
    was last programmed: the eight bytes of the expiration count once the
    first expiration is due, and -1 (EAGAIN) before that and while the
    timer is disarmed. *)
Definition nsec (ts : timespec) : Z := tv_sec ts * 1000000000 + tv_nsec ts.

Definition expired (x : file) (now : Z) : bool :=
  match x with
  | FTimer cur since =>
      (0 <? nsec (it_value cur)) && (since + nsec (it_value cur) <=? now)
  | _ => false
  end.

Definition timerfd_read (x : file) (now : Z) : Z :=
  if expired x now then 8 else -1.

Fixpoint ready_events (m : gmap Z epoll_event) (rs : list Z)
  : option (list epoll_event) :=
  match rs with
  | [] => Some []
  | f :: rest =>
      match m !! f, ready_events m rest with
      | Some e, Some es => Some (e :: es)
      | _, _ => None
      end
  end.

(** epoll_wait with an infinite timeout.  The kernel reports each ready
    registration once, at least one and at most [maxevents] of them, and
    hands back the tag stored at registration.  The filled prefix of the
    caller's buffer is returned next to the count. *)
Definition epoll_wait (epfd : Z) (maxevents : nat) : M (Z * list epoll_event) :=
  let* t := gets fds in
  let* r :=
    match t !! epfd with
    | Some (FEpoll m) =>
        let* a := ask in
        match a with
        | WaitErr e =>
            if decide (e = 0) then fail Stuck
            else modify (set_errno e) ;; ret (-1, [])
        | Ready dt rs =>
            match ready_events m rs with
            | Some evs =>
                if decide (rs <> [] /\ NoDup rs /\
                           (length rs <= maxevents)%nat /\ 0 <= dt)
                then modify (fun s => set_clock (clock s + dt) s) ;;
                     ret (Z.of_nat (length evs), evs)
                else fail Stuck
            | None => fail Stuck
            end
        | _ => fail Stuck
        end
    | Some _ => modify (set_errno EINVAL) ;; ret (-1, [])
    | None => modify (set_errno EBADF) ;; ret (-1, [])
    end in
  let* e := gets errno in
  emit (EvWait (fst r) (if fst r <? 0 then e else 0)) ;; ret r.

(** ** libuev.c *)

(** [msec2tspec]: C integer division and remainder truncate towards
    zero, hence [Z.quot] and [Z.rem]. *)
Definition msec2tspec (msec : Z) : timespec :=
  Timespec (Z.quot msec 1000) (Z.rem msec 1000 * 1000000).

Definition LIST_INSERT_HEAD (c : ctxptr) (w : Z) : M unit :=
  let* u := get_ctx c in
  put_ctx (Uev (efd u) (running u) (w :: watchers u) (events u)).

(** LIST_REMOVE unlinks through the element's own back pointer; on an
    element that was never linked that pointer is null. *)
Definition LIST_REMOVE (c : ctxptr) (w : Z) : M unit :=
  let* u := get_ctx c in
  if decide (w ∈ watchers u)
  then put_ctx (Uev (efd u) (running u)
                  (filter (fun x => x <> w) (watchers u)) (events u))
  else fail Undefined.

Definition new_watcher (c : ctxptr) (ty : uev_type_t) (f : Z) (dr : uev_dir_t)
    (h d : Z) : M Z :=
  if decide (c = CNULL \/ h = NULL) then
    modify (set_errno EINVAL) ;; ret NULL
  else
    let* w := calloc_watcher in
    if decide (w = NULL) then ret NULL
    else
      let* v := load w in
      store w (Watcher f dr ty h d (timeout v) (period v)) ;;
      let ev := EpollEvent
                  (if decide (dr = UEV_DIR_OUTBOUND) then EPOLLOUT else EPOLLIN)
                  w in
      let* u := get_ctx c in
      let* r := epoll_ctl (efd u) EPOLL_CTL_ADD f (Some ev) in
      if r <? 0 then free w ;; ret NULL
      else LIST_INSERT_HEAD c w ;; ret w.

Definition delete_watcher (c : ctxptr) (w : Z) : M Z :=
  if decide (c = CNULL \/ w = NULL) then
    modify (set_errno EINVAL) ;; ret (-1)
  else
    let* u := get_ctx c in
    let* v := load w in
    epoll_ctl (efd u) EPOLL_CTL_DEL (fd v) None ;;
    LIST_REMOVE c w ;;
    free w ;;
    ret 0.

Definition uev_io_create (c : ctxptr) (h d : Z) (f : Z) (dr : uev_dir_t) : M Z :=
  new_watcher c UEV_FILE_TYPE f dr h d.

Definition uev_io_delete (c : ctxptr) (w : Z) : M Z :=
  delete_watcher c w.

Definition uev_timer_set (c : ctxptr) (w : Z) (t p : Z) : M Z :=
  if decide (c = CNULL \/ w = NULL) then
    modify (set_errno EINVAL) ;; ret (-1)
  else
    let* v := load w in
    store w (Watcher (fd v) (dir v) (type v) (handler v) (data v) t p) ;;
    let* u := get_ctx c in
    if negb (running u) then ret 0
    else
      let* v' := load w in
      timerfd_settime (fd v') (Itimerspec (msec2tspec p) (msec2tspec t)).

Definition uev_timer_create (c : ctxptr) (h d : Z) (t p : Z) : M Z :=
  let* f := timerfd_create in
  if f <? 0 then ret NULL
  else
    let* w := new_watcher c UEV_TIMER_TYPE f UEV_DIR_INBOUND h d in
    if decide (w = NULL) then close f ;; ret NULL
    else
      let* r := uev_timer_set c w t p in
      if decide (r <> 0) then
        delete_watcher c w ;; close f ;; ret NULL
      else ret w.

Definition uev_timer_delete (c : ctxptr) (w : Z) : M Z :=
  if decide (c = CNULL \/ w = NULL) then
    modify (set_errno EINVAL) ;; ret (-1)
  else
    uev_timer_set c w 0 0 ;;
    delete_watcher c w.

(** The while loop of [uev_ctx_delete]; [fuel] bounds its iterations. *)
Fixpoint drain_watchers (fuel : nat) (c : ctxptr) : M unit :=
  let* u := get_ctx c in
  match watchers u with
  | [] => ret tt
  | w :: _ =>
      match fuel with
      | O => fail OutOfFuel
      | S n =>
          let* v := load w in
          (if decide (UEV_TIMER_TYPE = type v)
           then uev_timer_delete c w
           else uev_io_delete c w) ;;
          drain_watchers n c
      end
  end.

Definition uev_ctx_delete (fuel : nat) (c : ctxptr) : M unit :=
  drain_watchers fuel c ;;
  let* u := get_ctx c in
  close (efd u) ;;
  modify (set_ctx None).

Definition uev_exit (c : ctxptr) : M unit :=
  let* u := get_ctx c in
  put_ctx (Uev (efd u) false (watchers u) (events u)).

(** ** Application code *)

(** A piece of application code is a tree of library calls, each
    continuation receiving the call's return value. *)
Inductive script :=
| SDone
| SCall (c : call) (k : Z -> script).

Definition api (c : call) : M Z :=
  match c with
  | CIoCreate cx h d f dr => uev_io_create cx h d f dr
  | CIoDelete cx w => uev_io_delete cx w
  | CTimerCreate cx h d t p => uev_timer_create cx h d t p
  | CTimerSet cx w t p => uev_timer_set cx w t p
  | CTimerDelete cx w => uev_timer_delete cx w
  | CExit cx => uev_exit cx ;; ret 0
  end.

Fixpoint run_script (p : script) : M unit :=
  match p with
  | SDone => ret tt
  | SCall c k => emit (EvCall c) ;; let* r := api c in run_script (k r)
  end.

Section Reactor.

(** Modelled from the spec: UEV_MAX_EVENTS of uev.h, the capacity of the
    scratch buffer ("sized to the maximum number of events retrievable
    per wait call"); its value is left open. *)
Variable UEV_MAX_EVENTS : nat.

(** The program text: what lives at each code address. *)
Variable code : Z -> option (ctxptr -> Z -> Z -> script).

Definition uev_ctx_create : M ctxptr :=
  let* f := epoll_create in
  if f <? 0 then ret CNULL
  else
    let* c := calloc_ctx in
    if decide (c = CNULL) then close f ;; ret CNULL
    else
      let* b := calloc_events UEV_MAX_EVENTS in
      let* u := get_ctx c in
      put_ctx (Uev (efd u) (running u) (watchers u) (default [] b)) ;;
      match b with
      | None => free_ctx c ;; close f ;; ret CNULL
      | Some _ =>
          let* u1 := get_ctx c in
          put_ctx (Uev f (running u1) (watchers u1) (events u1)) ;;
          let* u2 := get_ctx c in
          put_ctx (Uev (efd u2) (running u2) [] (events u2)) ;;
          ret c
      end.

(** An indirect call through a [uev_cb_t *]. *)
Definition invoke (h : Z) (c : ctxptr) (w d : Z) : M unit :=
  match code h with
  | Some f => emit (EvCallback h w d) ;; run_script (f c w d)
  | None => fail Undefined
  end.

(** Start all dormant timers: the LIST_FOREACH of [uev_run]. *)
Fixpoint arm_pass (c : ctxptr) (ws : list Z) : M unit :=
  match ws with
  | [] => ret tt
  | w :: rest =>
      let* v := load w in
      (if decide (UEV_TIMER_TYPE = type v)
       then uev_timer_set c w (timeout v) (period v) ;; ret tt
       else ret tt) ;;
      arm_pass c rest
  end.

(** The inner while loop around epoll_wait.  Returns the last value of
    [nfds] and the updated [result]. *)
Fixpoint wait_events (fuel : nat) (c : ctxptr) (result : Z) : M (Z * Z) :=
  match fuel with
  | O => fail OutOfFuel
  | S n =>
      let* u := get_ctx c in
      let* r := epoll_wait (efd u) UEV_MAX_EVENTS in
      put_ctx (Uev (efd u) (running u) (watchers u)
                 (snd r ++ drop (length (snd r)) (events u))) ;;
      if fst r <? 0 then
        let* e := gets errno in
        if decide (EINTR = e) then wait_events n c result
        else
          let* u' := get_ctx c in
          put_ctx (Uev (efd u') false (watchers u') (events u')) ;;
          ret (fst r, -1)
      else ret (fst r, result)
  end.

(** One turn of the for loop: callback first, then the timer
    housekeeping. *)
Definition fire (c : ctxptr) (w : Z) : M unit :=
  let* v := load w in
  if decide (handler v <> NULL) then invoke (handler v) c w (data v)
  else ret tt.

Definition after_fire (c : ctxptr) (w : Z) (result : Z) : M Z :=
  let* v := load w in
  if decide (UEV_TIMER_TYPE = type v) then
    let* n := read_timer (fd v) in
    let* result' :=
      (if decide (n <> 8) then
         let* u := get_ctx c in
         put_ctx (Uev (efd u) false (watchers u) (events u)) ;;
         ret (-1)
       else ret result) in
    let* v' := load w in
    (if decide (period v' = 0) then uev_timer_delete c w ;; ret tt
     else ret tt) ;;
    ret result'
  else ret result.

Definition dispatch (c : ctxptr) (i : nat) (result : Z) : M Z :=
  let* u := get_ctx c in
  match events u !! i with
  | None => fail Undefined
  | Some e =>
      fire c (ev_data e) ;;
      after_fire c (ev_data e) result
  end.

(** for (i = ...; i < nfds; i++), with [todo] turns left. *)
Fixpoint dispatch_from (todo : nat) (c : ctxptr) (i : nat) (result : Z) : M Z :=
  match todo with
  | O => ret result
  | S n =>
      let* result' := dispatch c i result in
      dispatch_from n c (S i) result'
  end.

(** while (ctx->running) *)
Fixpoint event_loop (fuel : nat) (c : ctxptr) (result : Z) : M Z :=
  let* u := get_ctx c in
  if running u then
    match fuel with
    | O => fail OutOfFuel
    | S n =>
        let* r := wait_events n c result in
        let* result' := dispatch_from (Z.to_nat (fst r)) c 0 (snd r) in
        event_loop n c result'
    end
  else ret result.

(** The prologue of [uev_run]: raise the running flag, then start all
    dormant timers. *)
Definition start_timers (c : ctxptr) : M unit :=
  let* u := get_ctx c in
  put_ctx (Uev (efd u) true (watchers u) (events u)) ;;
  arm_pass c (watchers u).

Definition uev_run (fuel : nat) (c : ctxptr) : M Z :=
  if decide (c = CNULL) then
    modify (set_errno EINVAL) ;; ret (-1)
  else
    start_timers c ;;
    event_loop fuel c 0.

End Reactor.


(** ** Vocabulary of the specification *)

(** The Context's watcher list. *)
Definition list_of (s : world) : list Z :=
  match ctx s with
  | Some u => watchers u
  | None => []
  end.

(** The interest list of the Context's epoll instance. *)
Definition interest_of (s : world) : gmap Z epoll_event :=
  match ctx s with
  | Some u =>
      match fds s !! efd u with
      | Some (FEpoll m) => m
      | _ => ∅
      end
  | None => ∅
  end.

(** A watcher is registered with the multiplexer when some registration
    carries it as its tag. *)
Definition registered (s : world) (w : Z) : Prop :=
  exists f e, interest_of s !! f = Some e /\ ev_data e = w.

Definition lockstep (s : world) : Prop :=
  forall w, registered s w <-> w ∈ list_of s.

(** The representation invariant of a reactor. *)
Record consistent (s : world) : Prop := Consistent {
  cs_epoll : exists u m, ctx s = Some u /\ fds s !! efd u = Some (FEpoll m);
  cs_self  : forall u, ctx s = Some u -> interest_of s !! efd u = None;
  cs_live  : forall w, w ∈ list_of s <-> is_Some (heap s !! w);
  cs_reg   : forall w v, heap s !! w = Some v ->
               exists e, interest_of s !! fd v = Some e /\ ev_data e = w;
  cs_tag   : forall f e, interest_of s !! f = Some e ->
               exists v, heap s !! ev_data e = Some v /\ fd v = f;
  cs_open  : forall f, is_Some (interest_of s !! f) -> is_Some (fds s !! f);
  cs_pos   : 0 < brk s;
  cs_brk   : forall w, is_Some (heap s !! w) -> 0 < w < brk s;
  cs_timer : forall w v, heap s !! w = Some v -> type v = UEV_TIMER_TYPE ->
               exists cur since, fds s !! fd v = Some (FTimer cur since)
}.

(** A Context as [uev_ctx_create] leaves it: no watcher, no registration. *)
Definition fresh_context (s : world) : Prop :=
  exists e r evs,
    ctx s = Some (Uev e r [] evs) /\ fds s !! e = Some (FEpoll ∅) /\
    heap s = ∅ /\ 0 < brk s.

(** A sequence of library calls as a script. *)
Fixpoint seq_script (cs : list call) : script :=
  match cs with
  | [] => SDone
  | c :: rest => SCall c (fun _ => seq_script rest)
  end.

Definition run_calls (cs : list call) : M unit :=
  run_script (seq_script cs).

(** The descriptors open in the process. *)
Definition open_fds (s : world) : gset Z := dom (fds s).

(** Number of callback invocations on watcher [w] in a history. *)
Fixpoint fired (w : Z) (l : list event) : nat :=
  match l with
  | [] => O
  | EvCallback _ w' _ :: rest =>
      ((if decide (w' = w) then 1 else 0) + fired w rest)%nat
  | _ :: rest => fired w rest
  end.

(** A failure that [uev_run] records: a wait that failed for a reason other
    than a signal, or a short read of a timer's expiration counter. *)
Definition is_failure (e : event) : bool :=
  match e with
  | EvWait r err => (r <? 0) && negb (err =? EINTR)
  | EvRead _ n => negb (n =? 8)
  | _ => false
  end.

Definition is_exit (e : event) : bool :=
  match e with
  | EvCall (CExit _) => true
  | _ => false
  end.

Definition failed (d : list event) : bool := existsb is_failure d.
Definition exited (d : list event) : bool := existsb is_exit d.

(** The schedule [uev_timer_set] hands to timerfd_settime. *)
Definition schedule (t p : Z) : itimerspec :=
  Itimerspec (msec2tspec p) (msec2tspec t).

(** Partial-correctness triples. *)
Definition hoare {A} (P : world -> Prop) (m : M A) (Q : A -> world -> Prop)
  : Prop :=
  forall s, P s ->
    match m s with
    | Done a s' => Q a s'
    | Fault _ => True
    end.

(** Descriptors stay open, and timer descriptors stay timer descriptors. *)
Definition fds_grow (t t' : gmap Z file) : Prop :=
  (forall g, is_Some (t !! g) -> is_Some (t' !! g)) /\
  (forall g cur since, t !! g = Some (FTimer cur since) ->
     exists cur' since', t' !! g = Some (FTimer cur' since')).

(** The running flag, if there is a Context. *)
Definition running_of (s : world) : option bool := running <$> ctx s.

(** A block that was handed out earlier and is no longer in use: it is
    neither live nor on the watcher list.  Block addresses are not
    reused, so such a block denotes a deleted watcher for good. *)
Definition gone (x : Z) (s : world) : Prop :=
  x < brk s /\ heap s !! x = None /\ x ∉ list_of s.

(** Classes of events. *)
Definition quiet (e : event) : bool :=
  match e with
  | EvEpollCtl _ _ _ | EvSettime _ _ _ | EvClose _ => true
  | _ => false
  end.

Definition chatty (e : event) : bool :=
  match e with
  | EvCall _ => true
  | _ => quiet e
  end.

Definition calm (w : Z) (e : event) : bool :=
  match e with
  | EvCallback _ x _ => bool_decide (x <> w)
  | _ => true
  end.

Definition sound (e : event) : bool := negb (is_failure e).

(** The footprint of a piece of code, as a relation between the world
    before and after: blocks are only ever handed out upwards, deleted
    watchers stay deleted, the history grows by events of the class [Q],
    and the running flag is as before unless the history records an exit
    request or a failure. *)
Record step (Q : event -> bool) (s s' : world) : Prop := Step {
  st_brk  : brk s <= brk s';
  st_gone : forall x, gone x s -> gone x s';
  st_log  : exists d, log s' = log s ++ d /\ forallb Q d = true /\
              (running_of s' = running_of s \/
               exited d || failed d = true)
}.

(** How the [result] variable of [uev_run] follows the history: it drops
    to -1 as soon as a failure is recorded and is left alone otherwise. *)
Definition tracks (res res' : Z) (s s' : world) : Prop :=
  exists d, log s' = log s ++ d /\
            res' = if failed d then -1 else res.

(** Events that application code and callbacks leave in the history. *)
Definition talk (e : event) : bool :=
  match e with
  | EvCallback _ _ _ => true
  | _ => chatty e
  end.

Definition is_callback (e : event) : bool :=
  match e with
  | EvCallback _ _ _ => true
  | _ => false
  end.

(** ** Vocabulary for histories of watchers *)

(** The fields of a watcher that are written once, when it is created. *)
Definition identity (v : uev_io_t) : Z * uev_dir_t * uev_type_t * Z * Z :=
  (fd v, dir v, type v, handler v, data v).

(** Every live watcher has a callback. *)
Definition handled (s : world) : Prop :=
  forall w v, heap s !! w = Some v -> handler v <> NULL.

(** What every piece of library code respects: blocks are handed out
    upwards, open descriptors stay open, a block that was handed out
    before and is still live has kept its identity, and no watcher
    without a callback appears. *)
Record evolves (s s' : world) : Prop := Evolves {
  ev_brk : brk s <= brk s';
  ev_fds : fds_grow (fds s) (fds s');
  ev_old : forall w v', w < brk s -> heap s' !! w = Some v' ->
             exists v, heap s !! w = Some v /\ identity v' = identity v;
  ev_handled : handled s -> handled s'
}.

(** The epoll descriptor and the event buffer of the Context. *)
Definition buffer_of (s : world) : option (Z * list epoll_event) :=
  (fun u => (efd u, events u)) <$> ctx s.

(** Code that, in addition, leaves the event buffer alone. *)
Definition settles (s s' : world) : Prop :=
  evolves s s' /\ buffer_of s' = buffer_of s.

(** The callback invocation an event stands for, going by the watcher
    its tag points to. *)
Definition callback_of (s : world) (e : epoll_event) : option event :=
  (fun v => EvCallback (handler v) (ev_data e) (data v))
    <$> heap s !! ev_data e.

(** The callback invocations in a history, in order. *)
Definition callbacks (d : list event) : list event :=
  List.filter is_callback d.

(** ** Example worlds *)

(** A process with an epoll instance on descriptor 3, a pipe end on
    descriptor 5 and a freshly created reactor. *)
Definition boot (answers : list answer) : world :=
  World {[ 3 := FEpoll ∅; 5 := FOther ]} 1000 (Some (Uev 3 false [] []))
        ∅ 1 0 answers [].

(** The world an action leaves behind ([boot []] if it faults). *)
Definition after {A} (m : M A) (s : world) : world :=
  match m s with
  | Done _ s' => s'
  | Fault _ => boot []
  end.

(** The same reactor with the loop running. *)
Definition spinning (answers : list answer) : world :=
  set_ctx (Some (Uev 3 true [] [])) (boot answers).

(** A reactor holding one I/O watcher (block 1 on the pipe end 5) and one
    one-shot timer (block 2 on timerfd 4). *)
Definition mixed (run : bool) (answers : list answer) : world :=
  World {[ 3 := FEpoll {[ 5 := EpollEvent EPOLLIN 1; 4 := EpollEvent EPOLLIN 2 ]};
           4 := FTimer zero_spec 1000;
           5 := FOther ]}
        2000 (Some (Uev 3 run [2; 1] []))
        {[ 1 := Watcher 5 UEV_DIR_INBOUND UEV_FILE_TYPE 100 0 0 0;
           2 := Watcher 4 UEV_DIR_INBOUND UEV_TIMER_TYPE 100 0 50 0 ]}
        3 0 answers [].

(** Program text with one callback at address 100: it rearms the watcher
    it is called for. *)
Definition rearming (t p : Z) (h : Z) : option (ctxptr -> Z -> Z -> script) :=
  if decide (h = 100)
  then Some (fun c w _ => SCall (CTimerSet c w t p) (fun _ => SDone))
  else None.

(** Program text with one callback at address 100: it asks the loop to
    stop. *)
Definition stopping (h : Z) : option (ctxptr -> Z -> Z -> script) :=
  if decide (h = 100)
  then Some (fun c _ _ => SCall (CExit c) (fun _ => SDone))
  else None.

(** The running reactor of [mixed] just after epoll_wait reported the
    timer: the scratch buffer holds the timer's registration. *)
Definition timer_ready (answers : list answer) : world :=
  set_ctx (Some (Uev 3 true [2; 1] [EpollEvent EPOLLIN 2]))
          (mixed true answers).

(** A process that has not created its reactor yet: only the pipe end 5
    is open. *)
Definition bare (answers : list answer) : world :=
  World {[ 5 := FOther ]} 1000 None ∅ 1 0 answers [].

(** A reactor whose one I/O watcher (block 1) is on a descriptor the
    application has closed in the meantime: the kernel dropped the
    registration with the descriptor. *)
Definition orphaned (answers : list answer) : world :=
  World {[ 3 := FEpoll ∅ ]} 1000 (Some (Uev 3 false [1] []))
        {[ 1 := Watcher 5 UEV_DIR_INBOUND UEV_FILE_TYPE 100 0 0 0 ]}
        2 0 answers [].

(** The running reactor of [mixed] just after epoll_wait reported both
    watchers, the I/O watcher first. *)
Definition both_ready (answers : list answer) : world :=
  set_ctx (Some (Uev 3 true [2; 1]
                   [EpollEvent EPOLLIN 1; EpollEvent EPOLLIN 2]))
          (mixed true answers).

(** Program text with one callback at address 100: it deletes the I/O
    watcher whose address it is given as its argument. *)
Definition deleting (h : Z) : option (ctxptr -> Z -> Z -> script) :=
  if decide (h = 100)
  then Some (fun c _ d => SCall (CIoDelete c d) (fun _ => SDone))
  else None.

(** The reactor of [both_ready], with the I/O watcher carrying the
    address of the timer watcher as its callback argument. *)
Definition entangled (answers : list answer) : world :=
  set_heap {[ 1 := Watcher 5 UEV_DIR_INBOUND UEV_FILE_TYPE 100 2 0 0;
              2 := Watcher 4 UEV_DIR_INBOUND UEV_TIMER_TYPE 100 0 50 0 ]}
           (both_ready answers).

(** Program text with one callback at address 100: it deletes the I/O
    watcher it is called for. *)
Definition self_deleting (h : Z) : option (ctxptr -> Z -> Z -> script) :=
  if decide (h = 100)
  then Some (fun c w _ => SCall (CIoDelete c w) (fun _ => SDone))
  else None.

(** The reactor of [mixed] once [uev_run] has started it and the first
    wait has reported the timer, 50 ms later. *)
Definition timer_due (answers : list answer) : world :=
  after (wait_events 10 5 CTX 0)
    (after (start_timers CTX) (mixed false (Ready 50000000 [4] :: answers))).
(** ** Reasoning principles for the monad *)

Lemma bind_done {A B} (m : M A) (k : A -> M B) s b s' :
  bind m k s = Done b s' <->
  exists a s1, m s = Done a s1 /\ k a s1 = Done b s'.
Proof.
  unfold bind. split.
  - destruct (m s) as [a s1|f]; [eauto | discriminate].
  - intros (a & s1 & -> & H). exact H.
Qed.

Lemma ret_done {A} (a b : A) s s' : ret a s = Done b s' <-> a = b /\ s = s'.
Proof. unfold ret. split; [intros [= -> ->] | intros [-> ->]]; auto. Qed.

Lemma modify_done f s (u : unit) s' : modify f s = Done u s' <-> s' = f s.
Proof. unfold modify. destruct u. split; [intros [= <-] | intros ->]; auto. Qed.

Lemma gets_done {A} (f : world -> A) s a s' :
  gets f s = Done a s' <-> a = f s /\ s' = s.
Proof. unfold gets. split; [intros [= <- <-] | intros [-> ->]]; auto. Qed.

Lemma get_ctx_done c s u s' :
  get_ctx c s = Done u s' <-> c = CTX /\ ctx s = Some u /\ s' = s.
Proof.
  unfold get_ctx. destruct c, (ctx s); split; try discriminate;
    try (intros (? & ? & ?); discriminate).
  - intros [= -> ->]; auto.
  - intros (_ & [= ->] & ->); auto.
Qed.

Lemma load_done w s v s' :
  load w s = Done v s' <-> heap s !! w = Some v /\ s' = s.
Proof.
  unfold load. destruct (heap s !! w); split; try discriminate.
  - intros [= -> ->]; auto.
  - intros ([= ->] & ->); auto.
  - intros (? & ?); discriminate.
Qed.

Lemma ask_done s a s' :
  ask s = Done a s' <-> exists rest, env s = a :: rest /\ s' = set_env rest s.
Proof.
  unfold ask. destruct (env s) as [|x rest]; split; try discriminate.
  - intros (? & ? & _); discriminate.
  - intros [= -> <-]; eauto.
  - intros (r & [= -> ->] & ->); auto.
Qed.

Lemma fail_done {A} f s (a : A) s' : fail f s = Done a s' <-> False.
Proof. unfold fail. split; [discriminate | tauto]. Qed.

(** Symbolic execution of a hypothesis [m s = Done a s']. *)
Ltac exec_step :=
  match goal with
  | H : bind _ _ _ = Done _ _ |- _ =>
      apply bind_done in H; destruct H as (? & ? & ? & H)
  | H : ret _ _ = Done _ _ |- _ =>
      apply ret_done in H; destruct H as [? ?]; subst
  | H : modify _ _ = Done _ _ |- _ => apply modify_done in H; subst
  | H : emit _ _ = Done _ _ |- _ => unfold emit in H
  | H : put_ctx _ _ = Done _ _ |- _ => unfold put_ctx in H
  | H : sys_fail _ _ = Done _ _ |- _ => unfold sys_fail in H
  | H : gets _ _ = Done _ _ |- _ =>
      apply gets_done in H; destruct H as [? ?]; subst
  | H : get_ctx _ _ = Done _ _ |- _ =>
      apply get_ctx_done in H; destruct H as (? & ? & ?); subst
  | H : load _ _ = Done _ _ |- _ =>
      apply load_done in H; destruct H as [? ?]; subst
  | H : ask _ = Done _ _ |- _ =>
      apply ask_done in H; destruct H as (? & ? & ?); subst
  | H : fail _ _ = Done _ _ |- _ => apply fail_done in H; destruct H
  | H : Fault _ = Done _ _ |- _ => discriminate H
  | H : Done _ _ = Done _ _ |- _ => injection H as ? ?; subst
  | H : (if ?b then _ else _) _ = Done _ _ |- _ => destruct b eqn:?
  | H : (match ?x with _ => _ end) _ = Done _ _ |- _ => destruct x eqn:?
  | H : (match ?x with _ => _ end) = Done _ _ |- _ => destruct x eqn:?
  end.

Ltac exec := repeat exec_step.

Ltac fields :=
  unfold set_fds, set_clock, set_ctx, set_heap, set_brk, set_errno, set_env,
    set_log in *; simpl in *.

Lemma bind_assoc {A B C} (m : M A) (k : A -> M B) (k' : B -> M C) s :
  bind (bind m k) k' s = bind m (fun a => bind (k a) k') s.
Proof. unfold bind. by destruct (m s). Qed.

Lemma bind_eq {A B} (m : M A) (k : A -> M B) s a s1 :
  m s = Done a s1 -> bind m k s = k a s1.
Proof. unfold bind. by intros ->. Qed.

(** ** Effects of the system calls *)

Lemma epoll_ctl_add_done ep f e s r s' :
  epoll_ctl ep EPOLL_CTL_ADD f (Some e) s = Done r s' ->
  ctx s' = ctx s /\ heap s' = heap s /\ brk s' = brk s /\ clock s' = clock s /\
  log s' = log s ++ [EvEpollCtl EPOLL_CTL_ADD f r] /\
  ((r = 0 /\ exists m, fds s !! ep = Some (FEpoll m) /\ is_Some (fds s !! f) /\
              f <> ep /\ m !! f = None /\
              fds s' = <[ep := FEpoll (<[f := e]> m)]> (fds s)) \/
   (r = -1 /\ fds s' = fds s)).
Proof.
  unfold epoll_ctl. intros H. exec; try done; fields; repeat split; auto;
    try (right; split; reflexivity).
  left. split; [reflexivity|]. eexists. repeat split; eauto.
Qed.

(** With the descriptor registered and open, EPOLL_CTL_DEL succeeds. *)
Lemma epoll_ctl_del_total ep f m e s :
  fds s !! ep = Some (FEpoll m) -> m !! f = Some e -> is_Some (fds s !! f) ->
  f <> ep ->
  exists s', epoll_ctl ep EPOLL_CTL_DEL f None s = Done 0 s'.
Proof.
  intros Hep Hf [x Hx] Hne. unfold epoll_ctl, bind, gets. rewrite Hep, Hx.
  destruct (decide (f = ep)); [done|].
  destruct (decide (EPOLL_CTL_DEL = EPOLL_CTL_ADD)); [done|].
  destruct (decide (EPOLL_CTL_DEL = EPOLL_CTL_DEL)); [|done].
  rewrite Hf. simpl. eauto.
Qed.

Lemma epoll_ctl_del_done ep f s r s' :
  epoll_ctl ep EPOLL_CTL_DEL f None s = Done r s' ->
  ctx s' = ctx s /\ heap s' = heap s /\ brk s' = brk s /\ clock s' = clock s /\
  env s' = env s /\
  log s' = log s ++ [EvEpollCtl EPOLL_CTL_DEL f r] /\
  ((r = 0 /\ exists m, fds s !! ep = Some (FEpoll m) /\
              fds s' = <[ep := FEpoll (delete f m)]> (fds s)) \/
   (r = -1 /\ fds s' = fds s /\
    ~ (exists m, fds s !! ep = Some (FEpoll m) /\ is_Some (m !! f) /\
                 is_Some (fds s !! f) /\ f <> ep))).
Proof.
  intros H.
  assert (r = -1 ->
          ~ (exists m, fds s !! ep = Some (FEpoll m) /\ is_Some (m !! f) /\
                       is_Some (fds s !! f) /\ f <> ep)) as Hwhy.
  { intros -> (m & Hm & [e He] & Ho & Hne).
    destruct (epoll_ctl_del_total ep f m e s Hm He Ho Hne) as [s0 H0].
    rewrite H0 in H. discriminate. }
  revert H. unfold epoll_ctl. intros H.
  exec; try done; fields; repeat split; auto;
    try (right; repeat split; auto; fail).
  left. split; [reflexivity|]. eexists. repeat split; eauto.
Qed.

Lemma timerfd_create_done s r s' :
  timerfd_create s = Done r s' ->
  ctx s' = ctx s /\ heap s' = heap s /\ brk s' = brk s /\ clock s' = clock s /\
  log s' = log s /\
  ((0 <= r /\ fds s !! r = None /\ (exists rest, env s = NewFd r :: rest) /\
    fds s' = <[r := FTimer zero_spec (clock s)]> (fds s)) \/
   (r = -1 /\ fds s' = fds s /\
    exists x rest, env s = NewFd x :: rest /\ x < 0)).
Proof.
  unfold timerfd_create. intros H. exec; try done; fields; repeat split; auto.
  - right. repeat split; auto. eexists _, _. split; [done|]. lia.
  - left. repeat split; eauto. lia.
Qed.

Lemma timerfd_settime_done f new s r s' :
  timerfd_settime f new s = Done r s' ->
  ctx s' = ctx s /\ heap s' = heap s /\ brk s' = brk s /\ clock s' = clock s /\
  env s' = env s /\
  log s' = log s ++ [EvSettime f new r] /\
  ((r = 0 /\ (exists cur since, fds s !! f = Some (FTimer cur since)) /\
    valid_timespec (it_value new) && valid_timespec (it_interval new) = true /\
    fds s' = <[f := FTimer new (clock s)]> (fds s)) \/
   (r = -1 /\ fds s' = fds s /\
    ((forall cur since, fds s !! f <> Some (FTimer cur since)) \/
     valid_timespec (it_value new) && valid_timespec (it_interval new) = false))).
Proof.
  unfold timerfd_settime. intros H. exec; try done; fields; repeat split; auto.
  all: try (left; repeat split; eauto; fail).
  all: right; repeat split; auto; left; congruence.
Qed.

Lemma close_done f s r s' :
  close f s = Done r s' ->
  ctx s' = ctx s /\ heap s' = heap s /\ brk s' = brk s /\ clock s' = clock s /\
  env s' = env s /\
  log s' = log s ++ [EvClose f] /\
  ((r = 0 /\ is_Some (fds s !! f) /\
    fds s' = forget f <$> delete f (fds s)) \/
   (r = -1 /\ fds s !! f = None /\ fds s' = fds s)).
Proof.
  unfold close. intros H. exec; try done; fields; repeat split; auto.
Qed.

Lemma calloc_watcher_done s r s' :
  calloc_watcher s = Done r s' ->
  ctx s' = ctx s /\ fds s' = fds s /\ clock s' = clock s /\ log s' = log s /\
  ((r = brk s /\ 0 < brk s /\ heap s !! brk s = None /\
    brk s' = brk s + 1 /\ heap s' = <[r := zero_watcher]> (heap s)) \/
   (r = NULL /\ brk s' = brk s /\ heap s' = heap s)).
Proof.
  unfold calloc_watcher. intros H. exec; try done; fields; repeat split; auto.
  left. destruct a as [? ?]. repeat split; auto.
Qed.

Lemma store_done w v s (u : unit) s' :
  store w v s = Done u s' ->
  is_Some (heap s !! w) /\ s' = set_heap (<[w := v]> (heap s)) s.
Proof. unfold store. intros H. exec. eauto. Qed.

Lemma free_done w s (u : unit) s' :
  free w s = Done u s' ->
  is_Some (heap s !! w) /\ s' = set_heap (delete w (heap s)) s.
Proof. unfold free. intros H. exec. eauto. Qed.

Lemma read_timer_done f s n s' :
  read_timer f s = Done n s' ->
  ctx s' = ctx s /\ fds s' = fds s /\ heap s' = heap s /\ brk s' = brk s /\
  clock s' = clock s /\ log s' = log s ++ [EvRead f n].
Proof.
  unfold read_timer. intros H. exec; try done; fields; repeat split; auto.
Qed.

Lemma epoll_wait_done ep n s r s' :
  epoll_wait ep n s = Done r s' ->
  ctx s' = ctx s /\ fds s' = fds s /\ heap s' = heap s /\ brk s' = brk s /\
  log s' = log s ++ [EvWait (fst r) (if fst r <? 0 then errno s' else 0)] /\
  ((fst r = -1 /\ snd r = []) \/
   (exists m dt rs rest,
      fds s !! ep = Some (FEpoll m) /\ env s = Ready dt rs :: rest /\
      ready_events m rs = Some (snd r) /\
      fst r = Z.of_nat (length (snd r)) /\ snd r <> [] /\ NoDup rs)).
Proof.
  unfold epoll_wait. intros H. exec; try done; fields; repeat split; auto.
  right. destruct a as (? & ? & ? & ?).
  eexists _, _, _, _. repeat split; eauto.
  destruct ready; [done|]. simpl in *. repeat case_match; simplify_eq. done.
Qed.

(** ** Effects of the library functions *)

Ltac sys_step :=
  match goal with
  | H : calloc_watcher _ = Done _ _ |- _ =>
      apply calloc_watcher_done in H;
      destruct H as (? & ? & ? & ? & [(? & ? & ? & ? & ?)|(? & ? & ?)])
  | H : epoll_ctl _ EPOLL_CTL_ADD _ (Some _) _ = Done _ _ |- _ =>
      apply epoll_ctl_add_done in H;
      destruct H as (? & ? & ? & ? & ? &
                     [(? & ? & ? & ? & ? & ? & ?)|(? & ?)])
  | H : epoll_ctl _ EPOLL_CTL_DEL _ None _ = Done _ _ |- _ =>
      apply epoll_ctl_del_done in H;
      destruct H as (? & ? & ? & ? & ? & ? & [(? & ? & ? & ?)|(? & ? & ?)])
  | H : timerfd_create _ = Done _ _ |- _ =>
      apply timerfd_create_done in H;
      destruct H as (? & ? & ? & ? & ? & [(? & ? & ? & ?)|(? & ? & ?)])
  | H : timerfd_settime _ _ _ = Done _ _ |- _ =>
      apply timerfd_settime_done in H;
      destruct H as (? & ? & ? & ? & ? & ? &
                     [(? & (? & ? & ?) & ? & ?)|(? & ? & ?)])
  | H : close _ _ = Done _ _ |- _ =>
      apply close_done in H;
      destruct H as (? & ? & ? & ? & ? & ? & [(? & ? & ?)|(? & ? & ?)])
  | H : read_timer _ _ = Done _ _ |- _ =>
      apply read_timer_done in H; destruct H as (? & ? & ? & ? & ? & ?)
  | H : store _ _ _ = Done _ _ |- _ =>
      apply store_done in H; destruct H as [? ?]
  | H : free _ _ = Done _ _ |- _ =>
      apply free_done in H; destruct H as [? ?]
  end.

Ltac run := repeat (first [exec_step | sys_step]; try done).

(** Express every intermediate world through the initial one. *)
Ltac chain_on p :=
  match goal with
  | H : p ?x = _ |- _ => is_var x; try rewrite H in *; clear H
  end.

Ltac chain :=
  repeat first [ chain_on ctx | chain_on fds | chain_on heap | chain_on brk
               | chain_on clock | chain_on log | chain_on env ].

Ltac norm := subst; fields; chain; simplify_eq/=.

Lemma new_watcher_done c ty f dr h d s r s' :
  new_watcher c ty f dr h d s = Done r s' ->
  clock s' = clock s /\
  ((r = NULL /\ ctx s' = ctx s /\ fds s' = fds s /\ heap s' = heap s /\
    ((brk s' = brk s /\ log s' = log s) \/
     (brk s' = brk s + 1 /\
      log s' = log s ++ [EvEpollCtl EPOLL_CTL_ADD f (-1)] /\
      heap s !! brk s = None))) \/
   (r = brk s /\ c = CTX /\ h <> NULL /\ brk s' = brk s + 1 /\
    0 < brk s /\ heap s !! brk s = None /\
    exists u m,
      ctx s = Some u /\ fds s !! efd u = Some (FEpoll m) /\
      m !! f = None /\ is_Some (fds s !! f) /\ f <> efd u /\
      ctx s' = Some (Uev (efd u) (running u) (r :: watchers u) (events u)) /\
      fds s' = <[efd u :=
                   FEpoll (<[f := EpollEvent
                                    (if decide (dr = UEV_DIR_OUTBOUND)
                                     then EPOLLOUT else EPOLLIN) r]> m)]>
                 (fds s) /\
      heap s' = <[r := Watcher f dr ty h d 0 0]> (heap s) /\
      log s' = log s ++ [EvEpollCtl EPOLL_CTL_ADD f 0])).
Proof.
  intros H. unfold new_watcher, LIST_INSERT_HEAD in H.
  run; norm.
  all: repeat match goal with
         | E : <[?k := _]> _ !! ?k = Some _ |- _ =>
             rewrite lookup_insert_eq in E; simplify_eq
         end.
  all: try (unfold NULL in *; lia).
  all: split; [done|].
  all: try (left; repeat split; auto;
            rewrite ?delete_insert_eq; by apply delete_id).
  right. repeat split; auto.
  eexists _, _. repeat split; eauto. by rewrite insert_insert_eq.
Qed.

Lemma delete_watcher_done c w s r s' :
  delete_watcher c w s = Done r s' ->
  (r = -1 /\ (c = CNULL \/ w = NULL) /\ s' = set_errno EINVAL s) \/
  (r = 0 /\ c = CTX /\ w <> NULL /\
   exists u v rc,
     ctx s = Some u /\ heap s !! w = Some v /\ w ∈ watchers u /\
     ctx s' = Some (Uev (efd u) (running u)
                      (filter (fun x => x <> w) (watchers u)) (events u)) /\
     heap s' = delete w (heap s) /\ brk s' = brk s /\ clock s' = clock s /\
     env s' = env s /\
     log s' = log s ++ [EvEpollCtl EPOLL_CTL_DEL (fd v) rc] /\
     ((rc = 0 /\ exists m, fds s !! efd u = Some (FEpoll m) /\
                  fds s' = <[efd u := FEpoll (delete (fd v) m)]> (fds s)) \/
      (rc = -1 /\ fds s' = fds s /\
       ~ (exists m, fds s !! efd u = Some (FEpoll m) /\ is_Some (m !! fd v) /\
                    is_Some (fds s !! fd v) /\ fd v <> efd u)))).
Proof.
  intros H. unfold delete_watcher, LIST_REMOVE in H. run; norm.
  - left. auto.
  - right. repeat split; auto. 
    eexists _, _, 0. repeat split; eauto.
  - right. repeat split; auto.
    eexists _, _, (-1). repeat split; eauto.
Qed.


Lemma uev_timer_set_done c w t p s r s' :
  uev_timer_set c w t p s = Done r s' ->
  (r = -1 /\ (c = CNULL \/ w = NULL) /\ s' = set_errno EINVAL s) \/
  (c = CTX /\ w <> NULL /\
   exists u v,
     ctx s = Some u /\ heap s !! w = Some v /\
     ctx s' = ctx s /\ brk s' = brk s /\ clock s' = clock s /\ env s' = env s /\
     heap s' = <[w := Watcher (fd v) (dir v) (type v) (handler v) (data v) t p]>
                 (heap s) /\
     ((running u = false /\ r = 0 /\ fds s' = fds s /\ log s' = log s) \/
      (running u = true /\
       log s' = log s ++ [EvSettime (fd v) (schedule t p) r] /\
       ((r = 0 /\ (exists cur since, fds s !! fd v = Some (FTimer cur since)) /\
         valid_timespec (msec2tspec t) && valid_timespec (msec2tspec p) = true /\
         fds s' = <[fd v := FTimer (schedule t p) (clock s)]> (fds s)) \/
        (r = -1 /\ fds s' = fds s /\
         ((forall cur since, fds s !! fd v <> Some (FTimer cur since)) \/
          valid_timespec (msec2tspec t) && valid_timespec (msec2tspec p)
          = false)))))).
Proof.
  intros H. unfold uev_timer_set in H. run; norm.
  all: try (left; auto; fail).
  all: right; repeat split; auto.
  all: try rewrite lookup_insert_eq in *; simplify_eq/=.
  all: eexists _, _; repeat split; eauto.
  - left. destruct (running x3); done.
  - right. destruct (running x3); [|done]. repeat split; auto.
    left. repeat split; eauto.
  - right. destruct (running x3); [|done]. repeat split; auto.
Qed.

Lemma filter_absent (w : Z) (l : list Z) :
  w ∉ l -> filter (fun x => x <> w) l = l.
Proof.
  induction l as [|a l IH]; [done|]. intros Hn.
  apply not_elem_of_cons in Hn as [Hne Hl].
  rewrite filter_cons_True by congruence. by rewrite IH.
Qed.

Lemma filter_head (w : Z) (l : list Z) :
  filter (fun x => x <> w) (w :: l) = filter (fun x => x <> w) l.
Proof. by rewrite filter_cons_False by (intros H; by apply H). Qed.

Lemma close_unwinds (f ep : Z) (m m' : gmap Z epoll_event) (x : file)
    (t : gmap Z file) :
  t !! f = None -> t !! ep = Some (FEpoll m) -> f <> ep ->
  delete f m' = delete f m ->
  forget f <$> delete f (<[ep := FEpoll m']> (<[f := x]> t)) = forget f <$> t.
Proof.
  intros Hf Hep Hne Hm. apply map_eq. intros i.
  rewrite !lookup_fmap. destruct (decide (i = f)) as [->|Hi].
  - by rewrite lookup_delete_eq, Hf.
  - rewrite lookup_delete_ne by done. destruct (decide (i = ep)) as [->|Hi'].
    + rewrite lookup_insert_eq, Hep. simpl. by rewrite Hm.
    + by rewrite !lookup_insert_ne by done.
Qed.

Lemma uev_timer_create_done c h d t p s r s' :
  uev_timer_create c h d t p s = Done r s' ->
  clock s' = clock s /\
  ((r = NULL /\ fds s' = fds s /\ ctx s' = ctx s /\ heap s' = heap s /\
    brk s' = brk s /\ log s' = log s /\
    exists x rest, env s = NewFd x :: rest /\ x < 0) \/
   (r = NULL /\ heap s' = heap s /\ brk s <= brk s' <= brk s + 1 /\
    (exists f l rest, 0 <= f /\ fds s !! f = None /\
                 env s = NewFd f :: rest /\
                 fds s' = forget f <$> fds s /\
                 log s' = l ++ [EvClose f]) /\
    (ctx s' = ctx s \/
     exists u, ctx s = Some u /\
       ctx s' = Some (Uev (efd u) (running u)
                        (filter (fun x => x <> brk s) (watchers u))
                        (events u)))) \/
   (r = brk s /\ c = CTX /\ h <> NULL /\ brk s' = brk s + 1 /\
    0 < brk s /\ heap s !! brk s = None /\
    exists f u m cur,
      0 <= f /\ fds s !! f = None /\ (exists rest, env s = NewFd f :: rest) /\
      ctx s = Some u /\ fds s !! efd u = Some (FEpoll m) /\
      m !! f = None /\ f <> efd u /\
      ctx s' = Some (Uev (efd u) (running u) (r :: watchers u) (events u)) /\
      fds s' = <[f := FTimer cur (clock s)]>
                 (<[efd u := FEpoll (<[f := EpollEvent EPOLLIN r]> m)]> (fds s)) /\
      heap s' = <[r := Watcher f UEV_DIR_INBOUND UEV_TIMER_TYPE h d t p]>
                  (heap s))).
Proof.
  intros H. unfold uev_timer_create in H.
  apply bind_done in H as (f & s1 & Hc & H).
  apply timerfd_create_done in Hc
    as (Hc1 & Hh1 & Hb1 & Hk1 & Hl1 & [(Hf0 & Hfn & He1 & Hf1)|(-> & Hf1 & He1)]).
  2:{ simpl in H. exec. split; [congruence|]. left.
      repeat split; try congruence. }
  destruct (f <? 0) eqn:Hneg; [lia|].
  apply bind_done in H as (w & s2 & Hn & H).
  apply new_watcher_done in Hn.
  destruct Hn as (Hk2 & [(-> & Hc2 & Hf2 & Hh2 & Hbl2)|
    (-> & -> & Hh & Hb2 & Hpos & Hfresh & u & m & Hu & Hm & Hmf & Hfo & Hne
     & Hc2 & Hf2 & Hh2 & Hl2)]).
  - (* registration failed: close and give up *)
    simpl in H. apply bind_done in H as (rc & s3 & Hcl & H).
    apply ret_done in H as [<- <-].
    apply close_done in Hcl
      as (Cc & Ch & Cb & Ck & Ce & Cl & [(_ & Co & Cf)|(_ & Cn & Cf)]).
    2:{ rewrite Hf2, Hf1, lookup_insert_eq in Cn. done. }
    assert (brk s <= brk s3 <= brk s + 1)
      by (destruct Hbl2 as [[? ?]|[? [? ?]]]; lia).
    split; [congruence|]. right. left.
    repeat split; try congruence; try lia.
    + destruct He1 as [rest He1]. exists f. eexists _, rest.
      repeat split; eauto.
      rewrite Cf, Hf2, Hf1. by rewrite delete_insert_id.
    + left. congruence.
  - rewrite Hh1, Hb1 in Hfresh. rewrite Hb1 in Hpos.
    destruct (decide (brk s1 = NULL)) as [E|_]; [unfold NULL in *; lia|].
    apply bind_done in H as (r1 & s3 & Hs & H).
    apply uev_timer_set_done in Hs
      as [(_ & [?|?] & _)|(_ & _ & u' & v & Hu' & Hv & Hc3 & Hb3 & Hk3 & He3 & Hh3 & Hs)];
      [done|unfold NULL in *; lia|].
    rewrite Hh2, lookup_insert_eq in Hv. simplify_eq/=.
    rewrite Hc1 in Hu. rewrite Hf1 in Hm, Hfo.
    assert (Hfe : f <> efd u) by done.
    rewrite lookup_insert_ne in Hm by done.
    destruct (decide (r1 <> 0)) as [Hr|Hr].
    + (* arming failed: unwind *)
      apply bind_done in H as (rd & s4 & Hd & H).
      apply bind_done in H as (rc & s5 & Hcl & H).
      apply ret_done in H as [<- <-].
      destruct Hs as [(_ & -> & _)|(Hrun & Hl3 & [(-> & _)|(-> & Hf3 & _)])];
        [done|done|].
      apply delete_watcher_done in Hd
        as [(_ & [?|?] & _)|(_ & _ & _ & u4 & v4 & rc4 & Hu4 & Hv4 & Hin4 & Hc4
                             & Hh4 & Hb4 & Hk4 & He4 & Hl4 & Hd)];
        [done|unfold NULL in *; lia|].
      rewrite Hh3, lookup_insert_eq in Hv4. simplify_eq/=.
      rewrite Hc3, Hc2 in Hu4. simplify_eq/=.
      apply close_done in Hcl
        as (Cc & Ch & Cb & Ck & Ce & Cl & Hcl).
      split; [congruence|]. right. left.
      repeat split; try congruence; try lia.
      * rewrite Ch, Hh4, Hh3, Hh2, Hh1, Hb1.
        rewrite !delete_insert_eq. by apply delete_id.
      * destruct He1 as [rest He1]. exists f. eexists _, rest.
        repeat split; eauto.
        destruct Hcl as [(_ & _ & ->)|(_ & Hcn & _)].
        -- destruct Hd as [(_ & m4 & Hm4 & ->)|(_ & -> & _)].
           ++ rewrite Hf3, Hf2, lookup_insert_eq in Hm4. simplify_eq.
              rewrite Hf3, Hf2, Hf1, insert_insert_eq.
              eapply close_unwinds; eauto.
              by rewrite !delete_insert_eq, delete_delete_eq.
           ++ rewrite Hf3, Hf2, Hf1.
              eapply close_unwinds; eauto.
              by rewrite !delete_insert_eq.
        -- destruct Hd as [(_ & m4 & Hm4 & Hf4)|(_ & Hf4 & _)];
             rewrite Hf4, ?Hf3, Hf2, Hf1 in Hcn.
           ++ by rewrite lookup_insert_ne, lookup_insert_ne, lookup_insert_eq
                in Hcn.
           ++ by rewrite lookup_insert_ne, lookup_insert_eq in Hcn.
      * right. exists u. split; [done|].
        rewrite Cc, Hc4, Hb1. by rewrite filter_head.
    + apply ret_done in H as [<- <-].
      assert (r1 = 0) as -> by (destruct (decide (r1 = 0)); [done|by destruct Hr]).
      split; [congruence|]. right. right.
      repeat split; try congruence; try lia.
      destruct Hs as [(Hrun & _ & Hf3 & Hl3)|(Hrun & Hl3 & [(_ & _ & _ & Hf3)|(? & _)])];
        [| |done].
      * exists f, u, m, zero_spec. repeat split; try congruence.
        -- rewrite Hf3, Hf2, Hf1. by rewrite insert_insert_ne.
        -- rewrite Hh3, Hh2, Hh1. by rewrite insert_insert_eq.
      * exists f, u, m, (schedule t p). repeat split; try congruence.
        -- rewrite Hf3, Hf2, Hf1, Hk2, Hk1.
           rewrite (insert_insert_ne _ (efd u) f) by done.
           by rewrite insert_insert_eq.
        -- rewrite Hh3, Hh2, Hh1. by rewrite insert_insert_eq.
Qed.

(** ** Arming *)

Lemma msec2tspec_valid (t : Z) : 0 <= t -> valid_timespec (msec2tspec t) = true.
Proof.
  intros Ht. unfold valid_timespec, msec2tspec. simpl.
  pose proof (Z.quot_pos t 1000 Ht ltac:(lia)).
  pose proof (Z.rem_bound_pos t 1000 Ht ltac:(lia)).
  repeat (apply andb_true_intro; split); lia.
Qed.

Lemma watcher_eta (v : uev_io_t) :
  Watcher (fd v) (dir v) (type v) (handler v) (data v) (timeout v) (period v) = v.
Proof. by destruct v. Qed.

Lemma timerfd_settime_total f new s :
  exists r s', timerfd_settime f new s = Done r s'.
Proof.
  unfold timerfd_settime, bind, emit, modify, ret, sys_fail.
  destruct (fds s !! f) as [[| |]|];
    try destruct (valid_timespec (it_value new) && valid_timespec (it_interval new));
    simpl; eauto.
Qed.

Lemma uev_timer_set_total w t p s u v :
  ctx s = Some u -> heap s !! w = Some v ->
  exists r s', uev_timer_set CTX w t p s = Done r s'.
Proof.
  intros Hu Hv. unfold uev_timer_set.
  destruct (decide (CTX = CNULL \/ w = NULL)).
  { unfold bind, modify, ret. eauto. }
  unfold bind at 1. unfold load at 1. rewrite Hv.
  unfold bind at 1. unfold store, bind at 1, load at 1. rewrite Hv.
  unfold modify at 1. unfold bind at 1, get_ctx at 1. simpl. rewrite Hu.
  destruct (running u); simpl.
  - unfold bind at 1, load at 1. simpl. rewrite lookup_insert_eq. simpl.
    apply timerfd_settime_total.
  - unfold ret. eauto.
Qed.

Lemma arm_pass_spec (ws : list Z) : forall s u,
  ctx s = Some u -> running u = true ->
  (forall w, w ∈ ws -> is_Some (heap s !! w) /\ w <> NULL) ->
  (forall w1 w2 v1 v2, w1 ∈ ws -> w2 ∈ ws ->
     heap s !! w1 = Some v1 -> heap s !! w2 = Some v2 ->
     fd v1 = fd v2 -> w1 = w2) ->
  exists s' d,
    arm_pass CTX ws s = Done tt s' /\
    ctx s' = ctx s /\ heap s' = heap s /\ clock s' = clock s /\
    brk s' = brk s /\ env s' = env s /\ log s' = log s ++ d /\
    (forall f cur since, fds s !! f = Some (FTimer cur since) ->
       exists cur' since', fds s' !! f = Some (FTimer cur' since')) /\
    (forall f, (forall w v, w ∈ ws -> heap s !! w = Some v ->
                  type v = UEV_TIMER_TYPE -> fd v <> f) ->
       fds s' !! f = fds s !! f) /\
    (forall w v, w ∈ ws -> heap s !! w = Some v -> type v = UEV_TIMER_TYPE ->
       (exists r, EvSettime (fd v) (schedule (timeout v) (period v)) r ∈ d) /\
       (0 <= timeout v -> 0 <= period v ->
        (exists cur since, fds s !! fd v = Some (FTimer cur since)) ->
        fds s' !! fd v =
          Some (FTimer (schedule (timeout v) (period v)) (clock s)))).
Proof.
  induction ws as [|w rest IH]; intros s u Hu Hrun Hlive Hinj.
  { exists s, []. simpl. rewrite app_nil_r. repeat split; eauto.
    all: exfalso; by eapply elem_of_nil. }
  destruct (Hlive w) as [[v Hv] Hnn]; [by left|].
  (* the first element *)
  assert (exists s1 d1,
    (let* v := load w in
     (if decide (UEV_TIMER_TYPE = type v)
      then uev_timer_set CTX w (timeout v) (period v) ;; ret tt
      else ret tt)) s = Done tt s1 /\
    ctx s1 = ctx s /\ heap s1 = heap s /\ clock s1 = clock s /\
    brk s1 = brk s /\ env s1 = env s /\ log s1 = log s ++ d1 /\
    (forall f cur since, fds s !! f = Some (FTimer cur since) ->
       exists cur' since', fds s1 !! f = Some (FTimer cur' since')) /\
    (forall f, (type v = UEV_TIMER_TYPE -> fd v <> f) ->
       fds s1 !! f = fds s !! f) /\
    (type v = UEV_TIMER_TYPE ->
     (exists r, d1 = [EvSettime (fd v) (schedule (timeout v) (period v)) r]) /\
     (0 <= timeout v -> 0 <= period v ->
      (exists cur since, fds s !! fd v = Some (FTimer cur since)) ->
      fds s1 !! fd v =
        Some (FTimer (schedule (timeout v) (period v)) (clock s))))) as Hfirst.
  { unfold bind at 1. unfold load at 1. rewrite Hv.
    destruct (decide (UEV_TIMER_TYPE = type v)) as [Hty|Hty].
    - destruct (uev_timer_set_total w (timeout v) (period v) s u v Hu Hv)
        as (r & s1 & Hs).
      unfold bind at 1. rewrite Hs. unfold ret.
      apply uev_timer_set_done in Hs
        as [(_ & [?|Hw0] & _)|(_ & _ & u' & v' & Hu' & Hv' & Hc & Hb & Hk & He & Hh & Hs)];
        [done|done|].
      simplify_eq. rewrite watcher_eta in Hh.
      rewrite insert_id in Hh by done.
      destruct Hs as [(Hr & _)|(_ & Hl & Hs)]; [congruence|].
      exists s1. eexists. split; [done|]. repeat split; eauto.
      + intros f cur since Hf.
        destruct Hs as [(_ & _ & _ & ->)|(_ & -> & _)]; [|eauto].
        destruct (decide (f = fd v)) as [->|Hne].
        * rewrite lookup_insert_eq. eauto.
        * rewrite lookup_insert_ne by done. eauto.
      + intros f Hf.
        destruct Hs as [(_ & _ & _ & ->)|(_ & -> & _)]; [|done].
        rewrite lookup_insert_ne; [done|]. by apply Hf.
      + intros Ht Hp Htimer.
        destruct Hs as [(_ & _ & _ & ->)|(_ & _ & [Hno|Hbad])].
        * by rewrite lookup_insert_eq.
        * destruct Htimer as (cur & since & Hx). by eapply Hno in Hx.
        * rewrite !msec2tspec_valid in Hbad by done. done.
    - exists s, []. unfold ret. rewrite app_nil_r.
      repeat split; eauto; congruence. }
  destruct Hfirst as (s1 & d1 & H1 & Hc1 & Hh1 & Hk1 & Hb1 & He1 & Hl1
                      & Hkind1 & Hframe1 & Hset1).
  destruct (IH s1 u) as (s' & d & H2 & Hc2 & Hh2 & Hk2 & Hb2 & He2 & Hl2
                         & Hkind2 & Hframe2 & Hset2).
  { congruence. }
  { done. }
  { intros x Hx. rewrite Hh1. apply Hlive. by right. }
  { intros w1 w2 v1 v2 ? ? ? ?. rewrite Hh1 in *.
    eapply Hinj; eauto; by right. }
  exists s', (d1 ++ d).
  split.
  { change (arm_pass CTX (w :: rest) s)
      with ((let* v := load w in
             ((if decide (UEV_TIMER_TYPE = type v)
               then uev_timer_set CTX w (timeout v) (period v) ;; ret tt
               else ret tt) ;; arm_pass CTX rest)) s).
    rewrite <- bind_assoc. by rewrite (bind_eq _ _ _ _ _ H1). }
  split_and!; try congruence.
  - rewrite Hl2, Hl1. by rewrite app_assoc.
  - intros f cur since Hf.
    destruct (Hkind1 _ _ _ Hf) as (cur1 & since1 & Hf1). eauto.
  - intros f Hf. rewrite Hframe2, Hframe1; [done| |].
    + intros Hty. apply (Hf w v); [by left|done|done].
    + intros x vx Hx Hvx Hty. rewrite Hh1 in Hvx.
      apply (Hf x vx); [by right|done|done].
  - intros x vx Hxin Hvx Hty.
    assert (heap s1 !! x = Some vx) as Hvx1 by (by rewrite Hh1).
    split.
    + apply elem_of_cons in Hxin as [->|Hin].
      * assert (vx = v) as -> by congruence.
        destruct (Hset1 Hty) as [[r ->] _].
        exists r. apply elem_of_app. left. by left.
      * destruct (Hset2 _ _ Hin Hvx1 Hty) as [[r Hr] _].
        exists r. apply elem_of_app. by right.
    + intros Ht Hp Htimer.
      destruct (decide (x ∈ rest)) as [Hin|Hnin].
      * destruct (Hset2 _ _ Hin Hvx1 Hty) as [_ Hfd].
        rewrite Hfd, Hk1; [done|done|done|].
        destruct Htimer as (cur & since & Hx). eapply Hkind1; eauto.
      * apply elem_of_cons in Hxin as [->|Hin]; [|done].
        assert (vx = v) as -> by congruence.
        rewrite Hframe2.
        -- by apply Hset1.
        -- intros y vy Hy Hvy _ Hfd. rewrite Hh1 in Hvy.
           assert (y = w) as -> by (eapply Hinj; eauto; [by right|by left]).
           done.
Qed.

(** ** The representation invariant *)

Lemma interest_of_eq s u m :
  ctx s = Some u -> fds s !! efd u = Some (FEpoll m) -> interest_of s = m.
Proof. intros Hu Hm. unfold interest_of. by rewrite Hu, Hm. Qed.

Lemma list_of_eq s u : ctx s = Some u -> list_of s = watchers u.
Proof. intros Hu. unfold list_of. by rewrite Hu. Qed.

Lemma fds_grow_refl t : fds_grow t t.
Proof. split; eauto. Qed.

Lemma fds_grow_trans t1 t2 t3 : fds_grow t1 t2 -> fds_grow t2 t3 -> fds_grow t1 t3.
Proof.
  intros [A1 B1] [A2 B2]. split; [auto|].
  intros g cur since Hg. destruct (B1 _ _ _ Hg) as (? & ? & Hg'). eauto.
Qed.

Lemma fds_grow_insert_new t g x : t !! g = None -> fds_grow t (<[g := x]> t).
Proof.
  intros Hg. split.
  - intros h [y Hy]. destruct (decide (h = g)) as [->|]; [congruence|].
    rewrite lookup_insert_ne by done. eauto.
  - intros h cur since Hh. destruct (decide (h = g)) as [->|]; [congruence|].
    rewrite lookup_insert_ne by done. eauto.
Qed.

Lemma fds_grow_insert_epoll t g m m' :
  t !! g = Some (FEpoll m) -> fds_grow t (<[g := FEpoll m']> t).
Proof.
  intros Hg. split.
  - intros h [y Hy]. destruct (decide (h = g)) as [->|].
    + rewrite lookup_insert_eq. eauto.
    + rewrite lookup_insert_ne by done. eauto.
  - intros h cur since Hh. destruct (decide (h = g)) as [->|]; [congruence|].
    rewrite lookup_insert_ne by done. eauto.
Qed.

Lemma fds_grow_insert_timer t g cur since cur' since' :
  t !! g = Some (FTimer cur since) -> fds_grow t (<[g := FTimer cur' since']> t).
Proof.
  intros Hg. split.
  - intros h [y Hy]. destruct (decide (h = g)) as [->|].
    + rewrite lookup_insert_eq. eauto.
    + rewrite lookup_insert_ne by done. eauto.
  - intros h c0 s0 Hh. destruct (decide (h = g)) as [->|].
    + rewrite lookup_insert_eq. eauto.
    + rewrite lookup_insert_ne by done. eauto.
Qed.

Lemma fds_grow_forget t f : fds_grow t (forget f <$> t).
Proof.
  split.
  - intros g [y Hy]. rewrite lookup_fmap, Hy. simpl. eauto.
  - intros g cur since Hg. rewrite lookup_fmap, Hg. simpl. eauto.
Qed.

Lemma consistent_fresh s : fresh_context s -> consistent s.
Proof.
  intros (e & r & evs & Hc & Hf & Hh & Hb).
  assert (interest_of s = ∅) as Hi.
  { unfold interest_of. rewrite Hc. simpl. by rewrite Hf. }
  assert (list_of s = []) as Hl by (unfold list_of; by rewrite Hc).
  split; rewrite ?Hi, ?Hl, ?Hh; try done.
  - eauto.
  - intros w. rewrite lookup_empty. split.
    + intros Hw. by apply elem_of_nil in Hw.
    + intros [? ?]. done.
  - intros f [? ?]. done.
  - intros w [? ?]. done.
Qed.

Lemma consistent_fd_inj s w1 w2 v1 v2 :
  consistent s -> heap s !! w1 = Some v1 -> heap s !! w2 = Some v2 ->
  fd v1 = fd v2 -> w1 = w2.
Proof.
  intros C H1 H2 Hfd.
  destruct (cs_reg s C _ _ H1) as (e1 & He1 & <-).
  destruct (cs_reg s C _ _ H2) as (e2 & He2 & <-).
  rewrite Hfd in He1. congruence.
Qed.

Lemma consistent_lockstep s : consistent s -> lockstep s.
Proof.
  intros C w. split.
  - intros (f & e & He & <-).
    destruct (cs_tag s C _ _ He) as (v & Hv & _).
    apply (cs_live s C). eauto.
  - intros Hw. apply (cs_live s C) in Hw as [v Hv].
    destruct (cs_reg s C _ _ Hv) as (e & He & Hd).
    exists (fd v), e. done.
Qed.

(** A change that touches neither the list, nor the interest list, nor
    the descriptor and kind of any watcher. *)
Lemma consistent_same s s' u u' m :
  consistent s ->
  ctx s = Some u -> ctx s' = Some u' ->
  efd u' = efd u -> watchers u' = watchers u ->
  fds s !! efd u = Some (FEpoll m) -> fds s' !! efd u = Some (FEpoll m) ->
  (forall w, (fun v => (fd v, type v)) <$> heap s' !! w =
             (fun v => (fd v, type v)) <$> heap s !! w) ->
  brk s <= brk s' -> fds_grow (fds s) (fds s') ->
  consistent s'.
Proof.
  intros C Hu Hu' He Hw Hm Hm' Hh Hb [Hopen Htim].
  assert (interest_of s = m) as Hi by (by apply (interest_of_eq s u)).
  assert (interest_of s' = m) as Hi'.
  { apply (interest_of_eq s' u'); [done|]. by rewrite He. }
  assert (list_of s' = list_of s) as Hl.
  { by rewrite (list_of_eq s' u'), (list_of_eq s u). }
  assert (forall w, is_Some (heap s' !! w) <-> is_Some (heap s !! w)) as Hlive.
  { intros w. specialize (Hh w).
    destruct (heap s' !! w), (heap s !! w); simpl in Hh; try done;
      split; intros [? ?]; eauto; done. }
  assert (forall w v', heap s' !! w = Some v' ->
            exists v, heap s !! w = Some v /\ fd v = fd v' /\ type v = type v')
    as Hback.
  { intros w v' Hv'. specialize (Hh w). rewrite Hv' in Hh. simpl in Hh.
    destruct (heap s !! w) as [v|]; [|done]. simpl in Hh.
    exists v. split; [done|]. by injection Hh as -> ->. }
  split.
  - exists u', m. split; [done|]. by rewrite He.
  - intros u0 Hu0. rewrite Hi'. assert (u0 = u') as -> by congruence.
    rewrite He, <- Hi. by apply (cs_self s C).
  - intros w. rewrite Hl, Hlive. apply (cs_live s C).
  - intros w v' Hv'. destruct (Hback _ _ Hv') as (v & Hv & <- & _).
    rewrite Hi', <- Hi. by apply (cs_reg s C).
  - intros f e Hf. rewrite Hi', <- Hi in Hf.
    destruct (cs_tag s C _ _ Hf) as (v & Hv & Hfd).
    specialize (Hh (ev_data e)). rewrite Hv in Hh. simpl in Hh.
    destruct (heap s' !! ev_data e) as [v'|]; [|done]. simpl in Hh.
    exists v'. split; [done|]. injection Hh as Hh1 Hh2. congruence.
  - intros f Hf. rewrite Hi', <- Hi in Hf. apply Hopen. by apply (cs_open s C).
  - pose proof (cs_pos s C). lia.
  - intros w Hw'. apply Hlive in Hw'. pose proof (cs_brk s C w Hw'). lia.
  - intros w v' Hv' Hty. destruct (Hback _ _ Hv') as (v & Hv & Hfd & Hty').
    rewrite <- Hfd. rewrite <- Hty' in Hty.
    destruct (cs_timer s C _ _ Hv Hty) as (cur & since & Hx). eauto.
Qed.

(** A successful registration. *)
Lemma consistent_insert s s' u m r W f evs :
  consistent s ->
  ctx s = Some u -> fds s !! efd u = Some (FEpoll m) ->
  m !! f = None -> f <> efd u ->
  r = brk s -> brk s' = brk s + 1 ->
  heap s' = <[r := W]> (heap s) -> fd W = f ->
  ctx s' = Some (Uev (efd u) (running u) (r :: watchers u) (events u)) ->
  fds s' !! efd u = Some (FEpoll (<[f := EpollEvent evs r]> m)) ->
  is_Some (fds s' !! f) -> fds_grow (fds s) (fds s') ->
  (type W = UEV_TIMER_TYPE -> exists cur since, fds s' !! f = Some (FTimer cur since)) ->
  consistent s'.
Proof.
  intros C Hu Hm Hmf Hne -> Hb Hh HW Hu' Hm' Hopen [Hgo Hgt] Htimer.
  assert (interest_of s = m) as Hi by (by apply (interest_of_eq s u)).
  assert (interest_of s' = <[f := EpollEvent evs (brk s)]> m) as Hi'.
  { by apply (interest_of_eq s' _ _ Hu'). }
  assert (list_of s' = brk s :: list_of s) as Hl.
  { by rewrite (list_of_eq s' _ Hu'), (list_of_eq s u). }
  assert (heap s !! brk s = None) as Hfresh.
  { destruct (heap s !! brk s) eqn:E; [|done].
    pose proof (cs_brk s C (brk s) ltac:(eauto)). lia. }
  split.
  - eexists _, _. split; [exact Hu'|]. exact Hm'.
  - intros u0 Hu0. rewrite Hu' in Hu0. injection Hu0 as <-. simpl.
    rewrite Hi', lookup_insert_ne by done. rewrite <- Hi.
    by apply (cs_self s C).
  - intros w. rewrite Hl, Hh, elem_of_cons.
    destruct (decide (w = brk s)) as [->|Hw].
    + rewrite lookup_insert_eq. split; eauto.
    + rewrite lookup_insert_ne by done. rewrite <- (cs_live s C). tauto.
  - intros w v. rewrite Hh, Hi'.
    destruct (decide (w = brk s)) as [->|Hw].
    + rewrite lookup_insert_eq. intros [= <-]. rewrite HW, lookup_insert_eq.
      eauto.
    + rewrite lookup_insert_ne by done. intros Hv.
      destruct (cs_reg s C _ _ Hv) as (e & He & Hd). rewrite Hi in He.
      rewrite lookup_insert_ne by congruence. eauto.
  - intros g e. rewrite Hi', Hh.
    destruct (decide (g = f)) as [->|Hg].
    + rewrite lookup_insert_eq. intros [= <-]. simpl.
      rewrite lookup_insert_eq. eauto.
    + rewrite lookup_insert_ne by done. rewrite <- Hi. intros He.
      destruct (cs_tag s C _ _ He) as (v & Hv & Hfd).
      rewrite lookup_insert_ne by congruence. eauto.
  - intros g. rewrite Hi'.
    destruct (decide (g = f)) as [->|Hg]; [done|].
    rewrite lookup_insert_ne by done. rewrite <- Hi. intros Hx.
    apply Hgo. by apply (cs_open s C).
  - pose proof (cs_pos s C). lia.
  - intros w. rewrite Hh.
    destruct (decide (w = brk s)) as [->|Hw].
    + pose proof (cs_pos s C). lia.
    + rewrite lookup_insert_ne by done. intros Hx.
      pose proof (cs_brk s C w Hx). lia.
  - intros w v. rewrite Hh.
    destruct (decide (w = brk s)) as [->|Hw].
    + rewrite lookup_insert_eq. intros [= <-]. rewrite HW. done.
    + rewrite lookup_insert_ne by done. intros Hv Hty.
      destruct (cs_timer s C _ _ Hv Hty) as (cur & since & Hx). eauto.
Qed.

(** A deletion. *)
Lemma consistent_remove s s' u u' m w v :
  consistent s ->
  ctx s = Some u -> fds s !! efd u = Some (FEpoll m) ->
  heap s !! w = Some v ->
  ctx s' = Some u' -> efd u' = efd u ->
  watchers u' = filter (fun x => x <> w) (watchers u) ->
  heap s' = delete w (heap s) -> brk s' = brk s ->
  fds s' !! efd u = Some (FEpoll (delete (fd v) m)) ->
  fds_grow (fds s) (fds s') ->
  consistent s'.
Proof.
  intros C Hu Hm Hv Hu' He Hw Hh Hb Hm' [Hgo Hgt].
  assert (interest_of s = m) as Hi by (by apply (interest_of_eq s u)).
  assert (interest_of s' = delete (fd v) m) as Hi'.
  { apply (interest_of_eq s' u'); [done|]. by rewrite He. }
  assert (list_of s' = filter (fun x => x <> w) (list_of s)) as Hl.
  { by rewrite (list_of_eq s' u'), (list_of_eq s u). }
  split.
  - exists u'. eexists. split; [done|]. rewrite He. exact Hm'.
  - intros u0 Hu0. assert (u0 = u') as -> by congruence.
    rewrite Hi', He.
    destruct (decide (efd u = fd v)) as [->|Hn].
    + by rewrite lookup_delete_eq.
    + rewrite lookup_delete_ne by done. rewrite <- Hi. by apply (cs_self s C).
  - intros x. rewrite Hl, Hh, list_elem_of_filter.
    destruct (decide (x = w)) as [->|Hx].
    + rewrite lookup_delete_eq. split; [tauto|]. intros [? ?]. done.
    + rewrite lookup_delete_ne by done. rewrite <- (cs_live s C). tauto.
  - intros x vx. rewrite Hh, Hi'.
    destruct (decide (x = w)) as [->|Hx].
    + by rewrite lookup_delete_eq.
    + rewrite lookup_delete_ne by done. intros Hvx.
      destruct (cs_reg s C _ _ Hvx) as (e & Hex & Hd). rewrite Hi in Hex.
      rewrite lookup_delete_ne; [eauto|].
      intros Hfd. apply Hx. symmetry.
      by apply (consistent_fd_inj s w x v vx).
  - intros g e. rewrite Hi', Hh.
    destruct (decide (g = fd v)) as [->|Hg].
    + by rewrite lookup_delete_eq.
    + rewrite lookup_delete_ne by done. rewrite <- Hi. intros Hge.
      destruct (cs_tag s C _ _ Hge) as (vx & Hvx & Hfd).
      rewrite lookup_delete_ne; [eauto|].
      intros Heq. rewrite <- Heq in Hvx. congruence.
  - intros g. rewrite Hi'.
    destruct (decide (g = fd v)) as [->|Hg].
    + rewrite lookup_delete_eq. intros [? ?]. done.
    + rewrite lookup_delete_ne by done. rewrite <- Hi. intros Hx.
      apply Hgo. by apply (cs_open s C).
  - pose proof (cs_pos s C). lia.
  - intros x. rewrite Hh.
    destruct (decide (x = w)) as [->|Hx].
    + rewrite lookup_delete_eq. intros [? ?]. done.
    + rewrite lookup_delete_ne by done. intros Hs.
      pose proof (cs_brk s C x Hs). lia.
  - intros x vx. rewrite Hh.
    destruct (decide (x = w)) as [->|Hx].
    + by rewrite lookup_delete_eq.
    + rewrite lookup_delete_ne by done. intros Hvx Hty.
      destruct (cs_timer s C _ _ Hvx Hty) as (cur & since & Hc). eauto.
Qed.

Lemma consistent_fresh_block s : consistent s -> heap s !! brk s = None.
Proof.
  intros C. destruct (heap s !! brk s) eqn:E; [|done].
  pose proof (cs_brk s C (brk s) ltac:(eauto)). lia.
Qed.

Lemma consistent_closed_fd s f :
  consistent s -> fds s !! f = None -> interest_of s !! f = None.
Proof.
  intros C Hf. destruct (interest_of s !! f) eqn:E; [|done].
  destruct (cs_open s C f ltac:(eauto)) as [x Hx]. congruence.
Qed.

Lemma uev_io_create_consistent c h d f dr s r s' :
  consistent s -> uev_io_create c h d f dr s = Done r s' ->
  consistent s' /\
  ((r = NULL /\ list_of s' = list_of s /\ interest_of s' = interest_of s) \/
   (r <> NULL /\ heap s !! r = None /\ list_of s' = r :: list_of s /\
    interest_of s !! f = None /\
    interest_of s' =
      <[f := EpollEvent (if decide (dr = UEV_DIR_OUTBOUND)
                         then EPOLLOUT else EPOLLIN) r]> (interest_of s))).
Proof.
  intros C H. unfold uev_io_create in H.
  pose proof (cs_pos s C) as Hpos.
  pose proof (consistent_fresh_block s C) as Hfresh.
  destruct (cs_epoll s C) as (u & m & Hu & Hm).
  apply new_watcher_done in H.
  destruct H as (_ & [(-> & Hc & Hf & Hh & Hbl)|
    (-> & -> & Hh & Hb & _ & _ & u1 & m1 & Hu1 & Hm1 & Hmf & Hfo & Hne & Hc
     & Hf & Hhp & Hl)]).
  - split.
    + eapply (consistent_same s s' u u m); eauto; try congruence.
      * destruct Hbl as [[? ?]|[? [? ?]]]; lia.
      * rewrite Hf. apply fds_grow_refl.
    + left. split; [done|]. unfold list_of, interest_of. by rewrite Hc, Hf.
  - assert (u1 = u) as -> by congruence.
    assert (m1 = m) as -> by congruence. split.
    + eapply (consistent_insert s s' u m (brk s)); eauto.
      * by rewrite Hf, lookup_insert_eq.
      * rewrite Hf, lookup_insert_ne by done. done.
      * rewrite Hf. by eapply fds_grow_insert_epoll.
      * simpl. done.
    + right. split; [unfold NULL; lia|]. split; [done|].
      rewrite (list_of_eq s' _ Hc), (list_of_eq s u Hu).
      rewrite (interest_of_eq s u m Hu Hm).
      erewrite (interest_of_eq s' _ _ Hc); [done|].
      simpl. by rewrite Hf, lookup_insert_eq.
Qed.

Lemma delete_watcher_consistent c w s r s' :
  consistent s -> delete_watcher c w s = Done r s' ->
  consistent s' /\
  ((r = -1 /\ list_of s' = list_of s /\ interest_of s' = interest_of s /\
    heap s' = heap s /\ fds s' = fds s) \/
   (r = 0 /\ exists v,
      heap s !! w = Some v /\ heap s' = delete w (heap s) /\
      list_of s' = filter (fun x => x <> w) (list_of s) /\
      interest_of s' = delete (fd v) (interest_of s) /\
      fds_grow (fds s) (fds s') /\ open_fds s' = open_fds s)).
Proof.
  intros C H.
  destruct (cs_epoll s C) as (u & m & Hu & Hm).
  apply delete_watcher_done in H
    as [(-> & _ & ->)|(-> & -> & Hnn & u1 & v & rc & Hu1 & Hv & Hin & Hc & Hh
                       & Hb & Hk & He & Hl & Hd)].
  - split.
    + eapply (consistent_same s _ u u m); eauto; try done.
      apply fds_grow_refl.
    + left. done.
  - assert (u1 = u) as -> by congruence.
    destruct (cs_reg s C _ _ Hv) as (e & Hreg & Htag).
    rewrite (interest_of_eq s u m Hu Hm) in Hreg.
    assert (fd v <> efd u) as Hne.
    { intros Heq. pose proof (cs_self s C u Hu) as Hs.
      rewrite (interest_of_eq s u m Hu Hm), <- Heq in Hs. congruence. }
    destruct Hd as [(_ & m1 & Hm1 & Hf)|(_ & _ & Hno)].
    2:{ exfalso. apply Hno. exists m. repeat split; eauto.
        apply (cs_open s C). rewrite (interest_of_eq s u m Hu Hm). eauto. }
    assert (m1 = m) as -> by congruence.
    assert (fds_grow (fds s) (fds s')) as Hg.
    { rewrite Hf. by eapply fds_grow_insert_epoll. }
    split.
    + eapply (consistent_remove s s' u _ m w v); eauto.
      by rewrite Hf, lookup_insert_eq.
    + right. split; [done|]. exists v. split_and!; auto.
      * by rewrite (list_of_eq s' _ Hc), (list_of_eq s u Hu).
      * rewrite (interest_of_eq s u m Hu Hm).
        erewrite (interest_of_eq s' _ _ Hc); [done|].
        simpl. by rewrite Hf, lookup_insert_eq.
      * unfold open_fds. rewrite Hf. apply dom_insert_lookup_L. eauto.
Qed.

Lemma uev_timer_set_consistent c w t p s r s' :
  consistent s -> uev_timer_set c w t p s = Done r s' ->
  consistent s' /\ list_of s' = list_of s /\ interest_of s' = interest_of s /\
  brk s' = brk s /\ ctx s' = ctx s /\ fds_grow (fds s) (fds s') /\
  open_fds s' = open_fds s /\
  (forall x, x <> w -> heap s' !! x = heap s !! x) /\
  (forall x, (fun v => (fd v, type v)) <$> heap s' !! x =
             (fun v => (fd v, type v)) <$> heap s !! x).
Proof.
  intros C H.
  destruct (cs_epoll s C) as (u & m & Hu & Hm).
  apply uev_timer_set_done in H
    as [(_ & _ & ->)|(-> & Hnn & u1 & v & Hu1 & Hv & Hc & Hb & Hk & He & Hh & Hs)].
  { split_and!; try done; try apply fds_grow_refl.
    eapply (consistent_same s _ u u m); eauto; try done. apply fds_grow_refl. }
  assert (u1 = u) as -> by congruence.
  assert (forall x, (fun v => (fd v, type v)) <$> heap s' !! x =
                    (fun v => (fd v, type v)) <$> heap s !! x) as Hsame.
  { intros x. rewrite Hh. destruct (decide (x = w)) as [->|Hx].
    - by rewrite lookup_insert_eq, Hv.
    - by rewrite lookup_insert_ne. }
  assert (fds_grow (fds s) (fds s') /\ fds s' !! efd u = Some (FEpoll m) /\
          open_fds s' = open_fds s) as (Hg & Hm' & Ho).
  { unfold open_fds.
    destruct Hs as [(_ & _ & -> & _)|(_ & _ & [(_ & (cur & since & Hx) & _ & ->)|
                                              (_ & -> & _)])].
    - split; [apply fds_grow_refl|done].
    - split; [by eapply fds_grow_insert_timer|]. split.
      + rewrite lookup_insert_ne; [done|]. congruence.
      + apply dom_insert_lookup_L. eauto.
    - split; [apply fds_grow_refl|done]. }
  split.
  { eapply (consistent_same s s' u u m); eauto; try congruence. lia. }
  split_and!; auto.
  - unfold list_of. by rewrite Hc.
  - rewrite (interest_of_eq s u m Hu Hm).
    apply (interest_of_eq s' u); [congruence|done].
  - intros x Hx. rewrite Hh. by rewrite lookup_insert_ne.
Qed.

Lemma uev_timer_delete_consistent c w s r s' :
  consistent s -> uev_timer_delete c w s = Done r s' ->
  consistent s' /\
  ((r = -1 /\ list_of s' = list_of s /\ interest_of s' = interest_of s /\
    heap s' = heap s /\ fds s' = fds s) \/
   (r = 0 /\ exists v,
      heap s !! w = Some v /\ heap s' = delete w (heap s) /\
      list_of s' = filter (fun x => x <> w) (list_of s) /\
      interest_of s' = delete (fd v) (interest_of s) /\
      fds_grow (fds s) (fds s') /\ open_fds s' = open_fds s)).
Proof.
  intros C H. unfold uev_timer_delete in H.
  destruct (decide (c = CNULL \/ w = NULL)) as [Hbad|Hok].
  { exec. split; [|left; done].
    destruct (cs_epoll s C) as (u & m & Hu & Hm).
    eapply (consistent_same s _ u u m); eauto; try done. apply fds_grow_refl. }
  apply bind_done in H as (r1 & s1 & Hs & Hd).
  destruct (uev_timer_set_consistent _ _ _ _ _ _ _ C Hs)
    as (C1 & Hl1 & Hi1 & Hb1 & Hc1 & Hg1 & Ho1 & Hh1 & Hk1).
  destruct (delete_watcher_consistent _ _ _ _ _ C1 Hd)
    as (C2 & [(-> & _)|(-> & v1 & Hv1 & Hh2 & Hl2 & Hi2 & Hg2 & Ho2)]).
  { apply delete_watcher_done in Hd as [(_ & Hbad & _)|(? & _)]; [tauto|lia]. }
  split; [done|]. right. split; [done|].
  pose proof (Hk1 w) as Hkw. rewrite Hv1 in Hkw. simpl in Hkw.
  destruct (heap s !! w) as [v|] eqn:Hv; [|done].
  injection Hkw as Hfd Hty.
  exists v. split_and!; auto.
  - rewrite Hh2. apply map_eq. intros x.
    destruct (decide (x = w)) as [->|Hx].
    + by rewrite !lookup_delete_eq.
    + rewrite !lookup_delete_ne by done. by apply Hh1.
  - by rewrite Hl2, Hl1.
  - by rewrite Hi2, Hi1, Hfd.
  - by eapply fds_grow_trans.
  - congruence.
Qed.

Lemma uev_exit_consistent c s (r : unit) s' :
  consistent s -> uev_exit c s = Done r s' ->
  consistent s' /\ list_of s' = list_of s /\ interest_of s' = interest_of s /\
  heap s' = heap s /\ fds s' = fds s /\ brk s' = brk s /\ log s' = log s.
Proof.
  intros C H. unfold uev_exit in H. exec. fields.
  destruct (cs_epoll s C) as (u & m & Hu & Hm).
  assert (u = x) as -> by congruence.
  split_and!; try done.
  - eapply (consistent_same s _ x _ m); eauto; try done. apply fds_grow_refl.
  - unfold list_of. simpl. by rewrite Hu.
  - unfold interest_of. simpl. by rewrite Hu.
Qed.

Lemma uev_timer_create_consistent c h d t p s r s' :
  consistent s -> uev_timer_create c h d t p s = Done r s' ->
  consistent s' /\
  ((r = NULL /\ list_of s' = list_of s /\ interest_of s' = interest_of s /\
    heap s' = heap s /\ open_fds s' = open_fds s) \/
   (r <> NULL /\ heap s !! r = None /\ list_of s' = r :: list_of s /\
    exists f, fds s !! f = None /\ interest_of s !! f = None /\
      interest_of s' = <[f := EpollEvent EPOLLIN r]> (interest_of s) /\
      heap s' = <[r := Watcher f UEV_DIR_INBOUND UEV_TIMER_TYPE h d t p]>
                  (heap s))).
Proof.
  intros C H.
  pose proof (cs_pos s C) as Hpos.
  pose proof (consistent_fresh_block s C) as Hfresh.
  destruct (cs_epoll s C) as (u & m & Hu & Hm).
  pose proof (interest_of_eq s u m Hu Hm) as Hi.
  apply uev_timer_create_done in H.
  destruct H as (_ & [(-> & Hf & Hc & Hh & Hb & Hl & _)|
    [(-> & Hh & Hb & (f & l & rest & Hf0 & Hfn & He & Hf & Hl) & Hc)|
     (-> & -> & Hnn & Hb & _ & _ & f & u1 & m1 & cur & Hf0 & Hfn & He & Hu1
      & Hm1 & Hmf & Hne & Hc & Hf & Hh)]]).
  - split.
    + eapply (consistent_same s s' u u m); eauto; try congruence; try lia.
      rewrite Hf. apply fds_grow_refl.
    + left. split; [done|]. unfold list_of, interest_of, open_fds.
      by rewrite Hc, Hf.
  - (* unwound *)
    assert (m !! f = None) as Hmf.
    { rewrite <- Hi. by apply consistent_closed_fd. }
    assert (fds s' !! efd u = Some (FEpoll m)) as Hm'.
    { rewrite Hf, lookup_fmap, Hm. simpl. by rewrite delete_id. }
    assert (exists u', ctx s' = Some u' /\ efd u' = efd u /\
                       watchers u' = watchers u) as (u' & Hu' & He' & Hw').
    { destruct Hc as [Hc|(u1 & Hu1 & Hc)].
      - exists u. split; [congruence|done].
      - assert (u1 = u) as -> by congruence.
        eexists. split; [exact Hc|]. simpl. split; [done|].
        apply filter_absent. intros Hin.
        rewrite <- (list_of_eq s u Hu) in Hin.
        apply (cs_live s C) in Hin. rewrite Hfresh in Hin. by destruct Hin. }
    split.
    + eapply (consistent_same s s' u u' m); eauto; try congruence; try lia.
      rewrite Hf. apply fds_grow_forget.
    + left. split; [done|]. split_and!; auto.
      * by rewrite (list_of_eq s' u' Hu'), (list_of_eq s u Hu).
      * rewrite Hi. apply (interest_of_eq s' u' m Hu'). by rewrite He'.
      * unfold open_fds. by rewrite Hf, dom_fmap_L.
  - assert (u1 = u) as -> by congruence.
    assert (m1 = m) as -> by congruence.
    assert (fds s' !! efd u =
            Some (FEpoll (<[f := EpollEvent EPOLLIN (brk s)]> m))) as Hm'.
    { rewrite Hf, lookup_insert_ne by done. by rewrite lookup_insert_eq. }
    split.
    + eapply (consistent_insert s s' u m (brk s)); eauto.
      * rewrite Hf, lookup_insert_eq. eauto.
      * rewrite Hf. eapply fds_grow_trans.
        -- by eapply fds_grow_insert_epoll.
        -- apply fds_grow_insert_new.
           by rewrite lookup_insert_ne by done.
      * intros _. rewrite Hf, lookup_insert_eq. eauto.
    + right. split; [unfold NULL; lia|]. split; [done|]. split.
      * by rewrite (list_of_eq s' _ Hc), (list_of_eq s u Hu).
      * exists f. split_and!; auto.
        -- by rewrite Hi.
        -- rewrite Hi. by apply (interest_of_eq s' _ _ Hc).
Qed.

Lemma api_consistent c s r s' :
  consistent s -> api c s = Done r s' -> consistent s'.
Proof.
  intros C H. destruct c; simpl in H.
  - by eapply uev_io_create_consistent.
  - by eapply delete_watcher_consistent.
  - by eapply uev_timer_create_consistent.
  - by eapply uev_timer_set_consistent.
  - by eapply uev_timer_delete_consistent.
  - apply bind_done in H as (? & s1 & He & Hr). apply ret_done in Hr as [_ <-].
    by eapply uev_exit_consistent.
Qed.

Lemma emit_consistent e s (r : unit) s' :
  consistent s -> emit e s = Done r s' -> consistent s'.
Proof.
  intros C H. unfold emit in H. apply modify_done in H as ->.
  destruct (cs_epoll s C) as (u & m & Hu & Hm).
  eapply (consistent_same s _ u u m); eauto; try done. apply fds_grow_refl.
Qed.

Lemma run_script_consistent p : forall s (r : unit) s',
  consistent s -> run_script p s = Done r s' -> consistent s'.
Proof.
  induction p as [|c k IH]; intros s r s' C H; simpl in H.
  - by apply ret_done in H as [_ <-].
  - apply bind_done in H as (? & s1 & He & H).
    apply bind_done in H as (rc & s2 & Ha & H).
    eapply IH; [|exact H].
    eapply api_consistent; [|exact Ha]. by eapply emit_consistent.
Qed.

(** ** Calls that run to their end *)

(** Unregistering never blocks: epoll_ctl with EPOLL_CTL_DEL always
    returns. *)
Lemma epoll_ctl_del_runs ep f s :
  exists r s', epoll_ctl ep EPOLL_CTL_DEL f None s = Done r s'.
Proof.
  unfold epoll_ctl, bind, gets, sys_fail, emit, modify, ret. simpl.
  destruct (fds s !! ep) as [[m| |]|]; destruct (fds s !! f) as [x|];
    try (eexists _, _; reflexivity).
  destruct (decide (f = ep)); [eexists _, _; reflexivity|].
  destruct (decide (EPOLL_CTL_DEL = EPOLL_CTL_ADD)) as [E|_]; [done|].
  destruct (decide (EPOLL_CTL_DEL = EPOLL_CTL_DEL)) as [_|E]; [|done].
  destruct (m !! f); eexists _, _; reflexivity.
Qed.

(** On a live watcher that is on the list, deletion runs to its end. *)
Lemma delete_watcher_total w s u v :
  ctx s = Some u -> heap s !! w = Some v -> w ∈ watchers u -> w <> NULL ->
  exists s', delete_watcher CTX w s = Done 0 s'.
Proof.
  intros Hu Hv Hin Hw. unfold delete_watcher.
  destruct (decide (CTX = CNULL \/ w = NULL)) as [[?|?]|_]; [done|done|].
  destruct (epoll_ctl_del_runs (efd u) (fd v) s) as (rc & s1 & E).
  pose proof E as E'.
  apply epoll_ctl_del_done in E' as (Hc1 & Hh1 & _).
  rewrite (bind_eq (get_ctx CTX) _ s u s) by (unfold get_ctx; by rewrite Hu).
  rewrite (bind_eq (load w) _ s v s) by (unfold load; by rewrite Hv).
  rewrite (bind_eq _ _ s rc s1 E).
  unfold LIST_REMOVE, free, load, bind, get_ctx, put_ctx, modify, ret.
  rewrite Hc1, Hu. destruct (decide (w ∈ watchers u)) as [_|?]; [|done].
  simpl. rewrite Hh1, Hv. eauto.
Qed.

Lemma uev_timer_delete_total w s u v :
  ctx s = Some u -> heap s !! w = Some v -> w ∈ watchers u -> w <> NULL ->
  exists s', uev_timer_delete CTX w s = Done 0 s'.
Proof.
  intros Hu Hv Hin Hw. unfold uev_timer_delete.
  destruct (decide (CTX = CNULL \/ w = NULL)) as [[?|?]|_]; [done|done|].
  destruct (uev_timer_set_total w 0 0 s u v Hu Hv) as (r & s1 & E).
  rewrite (bind_eq _ _ s r s1 E).
  apply uev_timer_set_done in E
    as [(_ & [?|?] & _)|(_ & _ & u1 & v1 & Hu1 & Hv1 & Hc1 & _ & _ & _ & Hh1 & _)];
    [done|done|].
  apply (delete_watcher_total w s1 u
           (Watcher (fd v1) (dir v1) (type v1) (handler v1) (data v1) 0 0));
    try done.
  - congruence.
  - rewrite Hh1. apply lookup_insert_eq.
Qed.

(** [uev_timer_set] on a timer of a running reactor, computed. *)
Lemma uev_timer_set_running w t p s u v cur since :
  ctx s = Some u -> running u = true -> w <> NULL ->
  heap s !! w = Some v -> fds s !! fd v = Some (FTimer cur since) ->
  uev_timer_set CTX w t p s =
  let s1 := set_heap (<[w := Watcher (fd v) (dir v) (type v) (handler v)
                                     (data v) t p]> (heap s)) s in
  if valid_timespec (msec2tspec t) && valid_timespec (msec2tspec p)
  then Done 0 (set_log (log s ++ [EvSettime (fd v) (schedule t p) 0])
                 (set_fds (<[fd v := FTimer (schedule t p) (clock s)]> (fds s))
                    s1))
  else Done (-1) (set_log (log s ++ [EvSettime (fd v) (schedule t p) (-1)])
                    (set_errno EINVAL s1)).
Proof.
  intros Hu Hr Hw Hv Hf. unfold uev_timer_set.
  destruct (decide (CTX = CNULL \/ w = NULL)) as [[?|?]|_]; [done|done|].
  unfold bind at 1. unfold load at 1. rewrite Hv.
  unfold bind at 1. unfold store, bind at 1, load at 1. rewrite Hv.
  unfold modify at 1. unfold bind at 1, get_ctx at 1. simpl. rewrite Hu, Hr.
  simpl. unfold bind at 1, load at 1. simpl. rewrite lookup_insert_eq. simpl.
  unfold timerfd_settime, bind at 1. simpl. rewrite Hf.
  fold (schedule t p).
  destruct (valid_timespec (msec2tspec t) && valid_timespec (msec2tspec p));
    reflexivity.
Qed.

(** The world in which the one library call of a callback starts. *)
Lemma fire_one_call code (f : ctxptr -> Z -> Z -> call) w s v r s' :
  heap s !! w = Some v -> handler v <> NULL ->
  code (handler v) = Some (fun c x d => SCall (f c x d) (fun _ => SDone)) ->
  api (f CTX w (data v))
    (set_log
       (log (set_log (log s ++ [EvCallback (handler v) w (data v)]) s)
        ++ [EvCall (f CTX w (data v))])
       (set_log (log s ++ [EvCallback (handler v) w (data v)]) s))
  = Done r s' ->
  fire code CTX w s = Done tt s'.
Proof.
  intros Hv Hh Hc Ha. unfold fire.
  rewrite (bind_eq (load w) _ s v s) by (unfold load; by rewrite Hv).
  destruct (decide (handler v <> NULL)); [|done].
  unfold invoke. rewrite Hc. simpl.
  unfold emit at 1. unfold bind at 1. unfold modify at 1.
  unfold bind at 1. unfold emit at 1. unfold modify at 1.
  rewrite (bind_eq _ _ _ _ _ Ha). reflexivity.
Qed.

(** The housekeeping of [uev_run] for a ready timer runs to its end on a
    listed watcher, whatever the read returns. *)
Lemma after_fire_timer_total w res s u v n rest :
  ctx s = Some u -> heap s !! w = Some v -> type v = UEV_TIMER_TYPE ->
  env s = ReadRet n :: rest -> w <> NULL -> w ∈ watchers u ->
  exists s',
    after_fire CTX w res s = Done (if decide (n = 8) then res else -1) s' /\
    running_of s' = Some (if decide (n = 8) then running u else false) /\
    (period v <> 0 ->
       heap s' = heap s /\ list_of s' = list_of s /\ fds s' = fds s) /\
    (period v = 0 ->
       heap s' = delete w (heap s) /\
       list_of s' = filter (fun x => x <> w) (list_of s)).
Proof.
  intros Hu Hv Hty He Hw Hin.
  set (u2 := if decide (n = 8) then u
             else Uev (efd u) false (watchers u) (events u)).
  set (s2 := set_ctx (Some u2)
               (set_log (log s ++ [EvRead (fd v) n]) (set_env rest s))).
  assert (after_fire CTX w res s =
          (let* v' := load w in
           (if decide (period v' = 0) then uev_timer_delete CTX w ;; ret tt
            else ret tt) ;;
           ret (if decide (n = 8) then res else -1)) s2) as Hpre.
  { unfold after_fire.
    unfold bind at 1. unfold load at 1. rewrite Hv.
    destruct (decide (UEV_TIMER_TYPE = type v)) as [_|]; [|congruence].
    unfold bind at 1. unfold read_timer, bind at 1, ask. rewrite He.
    unfold emit at 1. unfold bind at 1. unfold modify at 1.
    unfold ret at 1. unfold bind at 1. unfold s2, u2.
    destruct (decide (n <> 8)) as [Hn|Hn].
    - destruct (decide (n = 8)) as [|_]; [done|].
      unfold bind at 1. unfold get_ctx at 1. simpl. rewrite Hu.
      unfold put_ctx, modify, bind at 1. unfold ret at 1. reflexivity.
    - destruct (decide (n = 8)) as [_|]; [|lia].
      unfold ret at 1.
      replace (set_ctx (Some u) (set_log (log s ++ [EvRead (fd v) n])
                                   (set_env rest s)))
        with (set_log (log (set_env rest s) ++ [EvRead (fd v) n])
                (set_env rest s)); [reflexivity|].
      unfold set_ctx, set_log, set_env. simpl. by rewrite Hu. }
  rewrite Hpre. clear Hpre.
  assert (ctx s2 = Some u2) as Hu2 by reflexivity.
  assert (heap s2 = heap s) as Hh2 by reflexivity.
  assert (watchers u2 = watchers u /\
          running u2 = if decide (n = 8) then running u else false)
    as [Hw2 Hr2] by (unfold u2; by destruct (decide (n = 8))).
  rewrite (bind_eq (load w) _ s2 v s2) by (unfold load; by rewrite Hh2, Hv).
  destruct (decide (period v = 0)) as [Hp|Hp].
  - destruct (uev_timer_delete_total w s2 u2 v) as (s3 & E); try done.
    { by rewrite Hw2. }
    exists s3. split.
    { rewrite (bind_eq (uev_timer_delete CTX w ;; ret tt) _ s2 tt s3);
        [reflexivity|].
      by rewrite (bind_eq _ _ s2 0 s3 E). }
    unfold uev_timer_delete in E.
    destruct (decide (CTX = CNULL \/ w = NULL)) as [[?|?]|_]; [done|done|].
    apply bind_done in E as (r1 & sa & Hs & Hd).
    apply uev_timer_set_done in Hs
      as [(_ & [?|?] & _)|(_ & _ & ua & va & Hua & Hva & Hca & _ & _ & _ & Hha & _)];
      [done|done|].
    apply delete_watcher_done in Hd
      as [(? & _)|(_ & _ & _ & ub & vb & rc & Hub & _ & _ & Hcb & Hhb & _)]; [lia|].
    rewrite Hca, Hu2 in Hub. injection Hub as <-.
    split_and!.
    + unfold running_of. rewrite Hcb. simpl. by rewrite Hr2.
    + done.
    + intros _. split.
      * rewrite Hhb, Hha, Hh2. by rewrite delete_insert_eq.
      * rewrite (list_of_eq s3 _ Hcb), (list_of_eq s u Hu). simpl.
        by rewrite Hw2.
  - exists s2. split; [reflexivity|]. split_and!.
    + unfold running_of. rewrite Hu2. simpl. by rewrite Hr2.
    + intros _. split_and!; try done.
      rewrite (list_of_eq s2 u2 Hu2), (list_of_eq s u Hu). done.
    + done.
Qed.

(** ** Footprints *)

Lemma step_refl Q s : step Q s s.
Proof.
  split; [lia|done|]. exists []. rewrite app_nil_r. auto.
Qed.

Lemma exited_app d1 d2 : exited (d1 ++ d2) = exited d1 || exited d2.
Proof. apply existsb_app. Qed.

Lemma failed_app d1 d2 : failed (d1 ++ d2) = failed d1 || failed d2.
Proof. apply existsb_app. Qed.

Lemma step_trans Q s1 s2 s3 : step Q s1 s2 -> step Q s2 s3 -> step Q s1 s3.
Proof.
  intros [B1 G1 (d1 & L1 & Q1 & R1)] [B2 G2 (d2 & L2 & Q2 & R2)].
  split; [lia|auto|].
  exists (d1 ++ d2). rewrite L2, L1, app_assoc. split; [done|].
  rewrite forallb_app, Q1, Q2, exited_app, failed_app. split; [done|].
  destruct R1 as [R1|R1].
  - destruct R2 as [R2|R2]; [left; congruence|right].
    apply orb_true_iff in R2 as [->| ->]; by rewrite ?orb_true_r.
  - right. apply orb_true_iff in R1 as [->| ->]; by rewrite ?orb_true_r.
Qed.

Lemma step_weaken (Q Q' : event -> bool) s s' :
  (forall e, Q e = true -> Q' e = true) -> step Q s s' -> step Q' s s'.
Proof.
  intros HQ [B G (d & L & Hd & R)]. split; [done|done|].
  exists d. split; [done|]. split; [|done].
  apply forallb_forall. intros e He.
  apply HQ. by eapply forallb_forall in Hd.
Qed.

(** A change that leaves Context, heap and allocator alone. *)
Lemma step_fields Q s s' d :
  ctx s' = ctx s -> heap s' = heap s -> brk s' = brk s ->
  log s' = log s ++ d -> forallb Q d = true ->
  step Q s s'.
Proof.
  intros Hc Hh Hb Hl Hd. split; [lia| |].
  - intros x (Hx & Hhx & Hlx). unfold gone, list_of. by rewrite Hb, Hh, Hc.
  - exists d. split; [done|]. split; [done|]. left. unfold running_of.
    by rewrite Hc.
Qed.

Lemma step_fields_nil Q s s' :
  ctx s' = ctx s -> heap s' = heap s -> brk s' = brk s -> log s' = log s ->
  step Q s s'.
Proof.
  intros Hc Hh Hb Hl. apply (step_fields Q s s' []); auto.
  by rewrite app_nil_r.
Qed.

Lemma step_intro Q s s' :
  brk s <= brk s' /\
  (forall x, x < brk s -> heap s !! x = None ->
     x ∉ match ctx s with Some u => watchers u | None => [] end ->
     heap s' !! x = None /\
     x ∉ match ctx s' with Some u => watchers u | None => [] end) /\
  (exists d, log s' = log s ++ d /\ forallb Q d = true /\
     running <$> ctx s' = running <$> ctx s) ->
  step Q s s'.
Proof.
  intros (Hb & Hg & d & Hl & Hd & Hr). split; [done| |].
  - intros x (Hx & Hh & Hn). destruct (Hg x Hx Hh Hn) as [Hh' Hn'].
    split; [lia|done].
  - exists d. split; [done|]. split; [done|]. by left.
Qed.

Lemma lookup_delete_dead {A} (m : gmap Z A) w x :
  m !! x = None -> delete w m !! x = None.
Proof. intros H. apply lookup_delete_None. by right. Qed.

Lemma lookup_insert_dead {A} (m : gmap Z A) w v x :
  m !! x = None -> x <> w -> <[w := v]> m !! x = None.
Proof. intros H Hne. by rewrite lookup_insert_ne. Qed.

Ltac step_ne :=
  first [ lia
        | intros ->;
          repeat match goal with E : is_Some _ |- _ => destruct E end;
          congruence ].

Ltac step_heap :=
  repeat first [ apply lookup_delete_dead
               | apply lookup_insert_dead; [|step_ne] ];
  done.

Ltac step_list :=
  simpl;
  repeat (rewrite list_elem_of_filter || rewrite not_elem_of_cons);
  first [ done | split; [lia|done] | tauto ].

Ltac step_log :=
  first [ exists []; rewrite app_nil_r; done
        | eexists; split; [reflexivity|]; split; [reflexivity|done] ].

Ltac step_solve :=
  repeat match goal with
         | E : Some _ = ctx _ |- _ => symmetry in E
         end;
  repeat match goal with
         | E : ctx ?s = Some _ |- _ => rewrite E in *; clear E
         end;
  split_and!;
  [ lia
  | intros ? ? ? ?; split; [step_heap | step_list]
  | step_log ].

Lemma new_watcher_step c ty f dr h d s r s' :
  new_watcher c ty f dr h d s = Done r s' -> step quiet s s'.
Proof.
  intros H. apply step_intro.
  unfold new_watcher, LIST_INSERT_HEAD in H. run; norm; step_solve.
Qed.

Lemma delete_watcher_step c w s r s' :
  delete_watcher c w s = Done r s' -> step quiet s s'.
Proof.
  intros H. apply step_intro.
  unfold delete_watcher, LIST_REMOVE in H. run; norm; step_solve.
Qed.

Lemma uev_timer_set_step c w t p s r s' :
  uev_timer_set c w t p s = Done r s' -> step quiet s s'.
Proof.
  intros H. apply step_intro.
  unfold uev_timer_set in H. run; norm; step_solve.
Qed.

Lemma timerfd_create_step s r s' : timerfd_create s = Done r s' -> step quiet s s'.
Proof.
  intros H. apply timerfd_create_done in H as (Hc & Hh & Hb & _ & Hl & _).
  by apply step_fields_nil.
Qed.

Lemma close_step f s r s' : close f s = Done r s' -> step quiet s s'.
Proof.
  intros H. apply close_done in H as (Hc & Hh & Hb & _ & _ & Hl & _).
  by apply (step_fields quiet s s' [EvClose f]).
Qed.

Lemma emit_step Q e s (r : unit) s' :
  emit e s = Done r s' -> Q e = true -> step Q s s'.
Proof.
  intros H HQ. unfold emit in H. apply modify_done in H as ->.
  apply (step_fields Q s _ [e]); auto. simpl. by rewrite HQ.
Qed.

Lemma uev_timer_create_step c h d t p s r s' :
  uev_timer_create c h d t p s = Done r s' -> step quiet s s'.
Proof.
  intros H. unfold uev_timer_create in H.
  apply bind_done in H as (f & s1 & Hc & H).
  apply timerfd_create_step in Hc.
  destruct (f <? 0).
  { apply ret_done in H as [_ <-]. done. }
  apply bind_done in H as (w & s2 & Hn & H).
  apply new_watcher_step in Hn.
  destruct (decide (w = NULL)).
  { apply bind_done in H as (rc & s3 & Hcl & H).
    apply ret_done in H as [_ <-]. apply close_step in Hcl.
    eauto using step_trans. }
  apply bind_done in H as (rs & s3 & Hs & H).
  apply uev_timer_set_step in Hs.
  destruct (decide (rs <> 0)).
  - apply bind_done in H as (rd & s4 & Hd & H).
    apply bind_done in H as (rc & s5 & Hcl & H).
    apply ret_done in H as [_ <-].
    apply delete_watcher_step in Hd. apply close_step in Hcl.
    eauto using step_trans.
  - apply ret_done in H as [_ <-]. eauto using step_trans.
Qed.

Lemma uev_timer_delete_step c w s r s' :
  uev_timer_delete c w s = Done r s' -> step quiet s s'.
Proof.
  intros H. unfold uev_timer_delete in H.
  destruct (decide (c = CNULL \/ w = NULL)).
  { exec. by apply step_fields_nil. }
  apply bind_done in H as (rs & s1 & Hs & Hd).
  apply uev_timer_set_step in Hs. apply delete_watcher_step in Hd.
  eauto using step_trans.
Qed.

(** The one call that lowers the running flag, together with the history
    entry application code leaves when it makes the call. *)
Lemma exit_call_step c s (r : Z) s' :
  (emit (EvCall (CExit c)) ;; api (CExit c)) s = Done r s' ->
  step chatty s s'.
Proof.
  intros H. simpl in H. unfold uev_exit, emit, put_ctx in H. exec. fields.
  split; simpl; [lia| |].
  - intros y (Hy & Hh & Hl). unfold gone, list_of in *. simpl in *.
    match goal with E : ctx s = Some _ |- _ => rewrite E in * end. done.
  - exists [EvCall (CExit CTX)]. split; [done|]. split; [done|]. by right.
Qed.

Lemma call_step c s (r : Z) s' :
  (emit (EvCall c) ;; api c) s = Done r s' -> step chatty s s'.
Proof.
  intros H. destruct c; try (by eapply exit_call_step).
  all: apply bind_done in H as ([] & s1 & He & Ha);
    apply emit_step with (Q := chatty) in He; [|done];
    eapply step_trans; [exact He|];
    apply (step_weaken quiet); [by intros []|]; simpl in Ha.
  - by eapply new_watcher_step.
  - by eapply delete_watcher_step.
  - by eapply uev_timer_create_step.
  - by eapply uev_timer_set_step.
  - by eapply uev_timer_delete_step.
Qed.

Lemma run_script_step p : forall s (r : unit) s',
  run_script p s = Done r s' -> step chatty s s'.
Proof.
  induction p as [|c k IH]; intros s r s' H; simpl in H.
  - apply ret_done in H as [_ <-]. apply step_refl.
  - assert (exists rc s1, (emit (EvCall c) ;; api c) s = Done rc s1 /\
                          run_script (k rc) s1 = Done r s') as (rc & s1 & Hc & Hk).
    { apply bind_done in H as ([] & sa & He & H).
      apply bind_done in H as (rc & sb & Ha & H).
      exists rc, sb. split; [|done].
      by rewrite (bind_eq _ _ _ _ _ He). }
    eapply step_trans; [by eapply call_step|by eapply IH].
Qed.

(** ** Footprint of the dispatch loop *)

Lemma tracks_refl res s : tracks res res s s.
Proof. exists []. by rewrite app_nil_r. Qed.

Lemma tracks_trans r1 r2 r3 s1 s2 s3 :
  tracks r1 r2 s1 s2 -> tracks r2 r3 s2 s3 -> tracks r1 r3 s1 s3.
Proof.
  intros (d1 & L1 & ->) (d2 & L2 & ->). exists (d1 ++ d2).
  rewrite L2, L1, app_assoc, failed_app. split; [done|].
  by destruct (failed d1), (failed d2).
Qed.

Lemma step_tracks Q res s s' :
  step Q s s' -> (forall e, Q e = true -> is_failure e = false) ->
  tracks res res s s'.
Proof.
  intros [_ _ (d & L & Hd & _)] HQ. exists d. split; [done|].
  assert (failed d = false) as ->; [|done].
  unfold failed. apply not_true_is_false. intros Hex.
  apply existsb_exists in Hex as (e & He & Hf).
  eapply forallb_forall in Hd; [|exact He]. apply HQ in Hd. congruence.
Qed.

Section Loops.

Variable N : nat.
Variable code : Z -> option (ctxptr -> Z -> Z -> script).
Variable Q : event -> bool.
Variable P : world -> Prop.

Hypothesis Q_other : forall e, is_callback e = false -> Q e = true.
Hypothesis Q_callback :
  forall s h x d, P s -> is_Some (heap s !! x) -> Q (EvCallback h x d) = true.
Hypothesis P_step : forall s s', P s -> step Q s s' -> P s'.

Lemma fire_step c x s (r : unit) s' :
  fire code c x s = Done r s' -> P s ->
  step (fun e => Q e && talk e) s s'.
Proof.
  intros H HP. unfold fire in H.
  apply bind_done in H as (v & s0 & Hl & H).
  apply load_done in Hl as [Hv ->].
  destruct (decide (handler v <> NULL)).
  2:{ apply ret_done in H as [_ <-]. apply step_refl. }
  unfold invoke in H. destruct (code (handler v)) as [f|]; [|done].
  apply bind_done in H as ([] & s1 & He & H).
  eapply step_trans.
  - eapply emit_step; [exact He|].
    rewrite (Q_callback s) by eauto. done.
  - apply (step_weaken chatty).
    + intros e He'. rewrite Q_other; by destruct e.
    + by eapply run_script_step.
Qed.

Lemma after_fire_step c x res s r s' :
  after_fire c x res s = Done r s' -> step Q s s' /\ tracks res r s s'.
Proof.
  intros H. unfold after_fire in H.
  apply bind_done in H as (v & s0 & Hl & H).
  apply load_done in Hl as [Hv ->].
  destruct (decide (UEV_TIMER_TYPE = type v)).
  2:{ apply ret_done in H as [<- <-]. split; [apply step_refl|apply tracks_refl]. }
  apply bind_done in H as (n & s1 & Hr & H).
  apply bind_done in H as (res' & s2 & Hres & H).
  (* the read and, if it came up short, the stop *)
  assert (step Q s s2 /\ tracks res res' s s2) as [S1 T1].
  { apply read_timer_done in Hr as (Hc1 & Hf1 & Hh1 & Hb1 & Hk1 & Hl1).
    clear H. destruct (decide (n <> 8)) as [Hn|Hn].
    - apply bind_done in Hres as (u & sa & Hg & Hres).
      apply get_ctx_done in Hg as (_ & Hu & ->).
      apply bind_done in Hres as ([] & sb & Hp & Hres).
      apply ret_done in Hres as [<- <-].
      unfold put_ctx in Hp. apply modify_done in Hp as ->.
      assert (is_failure (EvRead (fd v) n) = true) as Hfail.
      { simpl. apply negb_true_iff. by apply Z.eqb_neq. }
      split.
      + split; simpl; [lia| |].
        * intros y (Hy & Hh & Hl). unfold gone, list_of in *. simpl.
          rewrite Hc1 in Hu. rewrite Hu in Hl. rewrite Hb1, Hh1. done.
        * exists [EvRead (fd v) n]. split; [done|]. split.
          -- simpl. by rewrite Q_other.
          -- right. unfold failed. cbn [existsb]. rewrite Hfail. apply orb_true_r.
      + exists [EvRead (fd v) n]. split; [done|].
        unfold failed. cbn [existsb]. by rewrite Hfail.
    - apply ret_done in Hres as [<- <-].
      assert (is_failure (EvRead (fd v) n) = false) as Hok.
      { simpl. apply negb_false_iff. apply Z.eqb_eq.
        destruct (decide (n = 8)); [done|by destruct Hn]. }
      split.
      + apply (step_fields Q s s1 [EvRead (fd v) n]); auto.
        simpl. by rewrite Q_other.
      + exists [EvRead (fd v) n]. split; [done|].
        unfold failed. cbn [existsb]. by rewrite Hok. }
  apply bind_done in H as (v' & s3 & Hl & H).
  apply load_done in Hl as [Hv' ->].
  apply bind_done in H as ([] & s4 & Hd & H).
  apply ret_done in H as [<- <-].
  assert (step quiet s2 s4) as S2.
  { destruct (decide (period v' = 0)).
    - apply bind_done in Hd as (rd & s5 & Hd & Hret).
      apply ret_done in Hret as [_ <-]. by eapply uev_timer_delete_step.
    - apply ret_done in Hd as [_ <-]. apply step_refl. }
  split.
  - eapply step_trans; [exact S1|].
    apply (step_weaken quiet); [|done]. intros e' He'. apply Q_other.
    by destruct e'.
  - eapply tracks_trans; [exact T1|].
    apply (step_tracks quiet); [done|]. by intros [].
Qed.

Lemma dispatch_step c i res s r s' :
  dispatch code c i res s = Done r s' -> P s ->
  step Q s s' /\ tracks res r s s'.
Proof.
  intros H HP. unfold dispatch in H.
  apply bind_done in H as (u & s0 & Hg & H).
  apply get_ctx_done in Hg as (_ & Hu & ->).
  destruct (events u !! i) as [e|]; [|done].
  apply bind_done in H as ([] & s1 & Hf & Ha).
  apply fire_step in Hf; [|done].
  apply after_fire_step in Ha as [S2 T2].
  split.
  - eapply step_trans; [|exact S2].
    apply (step_weaken (fun e => Q e && talk e)); [|done].
    intros e' He'. by apply andb_true_iff in He' as [? _].
  - eapply tracks_trans; [|exact T2].
    apply (step_tracks (fun e => Q e && talk e)); [done|].
    intros e' He'. apply andb_true_iff in He' as [_ He']. by destruct e'.
Qed.

Lemma dispatch_from_step todo : forall c i res s r s',
  dispatch_from code todo c i res s = Done r s' -> P s ->
  step Q s s' /\ tracks res r s s'.
Proof.
  induction todo as [|todo IH]; intros c i res s r s' H HP; simpl in H.
  - apply ret_done in H as [<- <-]. split; [apply step_refl|apply tracks_refl].
  - apply bind_done in H as (r1 & s1 & Hd & H).
    apply dispatch_step in Hd as [S1 T1]; [|done].
    apply IH in H as [S2 T2]; [|by eapply P_step].
    split; [by eapply step_trans|by eapply tracks_trans].
Qed.

Lemma wait_events_step fuel : forall c res s r s',
  wait_events N fuel c res s = Done r s' ->
  step Q s s' /\ tracks res (snd r) s s' /\
  (fst r < 0 -> running_of s' = Some false /\ snd r = -1) /\
  (0 <= fst r -> running_of s' = running_of s).
Proof.
  induction fuel as [|fuel IH]; intros c res s r s' H; simpl in H; [done|].
  apply bind_done in H as (u & s0 & Hg & H).
  apply get_ctx_done in Hg as (-> & Hu & ->).
  apply bind_done in H as (rw & s1 & Hw & H).
  apply epoll_wait_done in Hw as (Hc1 & Hf1 & Hh1 & Hb1 & Hl1 & Hrw).
  apply bind_done in H as ([] & s2 & Hp & H).
  unfold put_ctx in Hp. apply modify_done in Hp as ->.
  set (s2 := set_ctx _ s1) in *.
  assert (running_of s2 = running_of s) as Hrun.
  { unfold running_of. simpl. by rewrite Hu. }
  assert (forall y, gone y s -> gone y s2) as Hgone.
  { intros y (Hy & Hh & Hl). unfold gone, list_of in *. simpl.
    rewrite Hu in Hl. rewrite Hb1, Hh1. done. }
  set (ev := EvWait (fst rw) (if fst rw <? 0 then errno s1 else 0)) in *.
  assert (Q ev = true) as HQ by (by apply Q_other).
  destruct (fst rw <? 0) eqn:Hneg.
  - apply bind_done in H as (err & s3 & He & H).
    apply gets_done in He as [-> ->].
    destruct (decide (EINTR = errno s2)) as [Hintr|Hother].
    + (* interrupted by a signal: go round again *)
      assert (is_failure ev = false) as Hok.
      { unfold ev. simpl. rewrite Hneg. simpl. rewrite Hintr.
        simpl. by rewrite Z.eqb_refl. }
      destruct (IH _ _ _ _ _ H) as (S2 & T2 & Hlt & Hge).
      assert (step Q s s2) as S1.
      { split; [simpl; lia|done|]. exists [ev]. split; [done|]. split.
        - simpl. by rewrite HQ.
        - by left. }
      assert (tracks res res s s2) as T1.
      { exists [ev]. split; [done|]. unfold failed. cbn [existsb].
        by rewrite Hok. }
      split; [by eapply step_trans|]. split; [by eapply tracks_trans|].
      split; [done|]. intros Hr. rewrite Hge by done. done.
    + (* a real failure: record it and stop *)
      apply bind_done in H as (u' & s3 & Hg & H).
      apply get_ctx_done in Hg as (_ & Hu' & ->).
      simpl in Hu'. injection Hu' as <-.
      apply bind_done in H as ([] & s4 & Hp & H).
      unfold put_ctx in Hp. apply modify_done in Hp as ->.
      apply ret_done in H as [<- <-].
      assert (is_failure ev = true) as Hfail.
      { unfold ev. simpl. rewrite Hneg. simpl. apply negb_true_iff.
        apply Z.eqb_neq. simpl in Hother. congruence. }
      split; [|split; [|split]].
      * split; [simpl; lia| |].
        -- intros y Hy. apply Hgone in Hy as (Hy & Hh & Hl).
           unfold gone, list_of in *. simpl in *. done.
        -- exists [ev]. split; [done|]. split; [simpl; by rewrite HQ|].
           right. unfold failed. cbn [existsb]. rewrite Hfail.
           apply orb_true_r.
      * exists [ev]. split; [done|]. unfold failed. cbn [existsb].
        by rewrite Hfail.
      * done.
      * simpl. apply Z.ltb_lt in Hneg. lia.
  - apply ret_done in H as [<- <-].
    assert (is_failure ev = false) as Hok.
    { unfold ev. simpl. by rewrite Hneg. }
    split; [|split; [|split]].
    + split; [simpl; lia|done|]. exists [ev]. split; [done|]. split.
      * simpl. by rewrite HQ.
      * by left.
    + exists [ev]. split; [done|]. unfold failed. cbn [existsb].
      by rewrite Hok.
    + simpl. apply Z.ltb_ge in Hneg. lia.
    + done.
Qed.

Lemma event_loop_step fuel : forall c res s r s',
  event_loop N code fuel c res s = Done r s' -> P s ->
  step Q s s' /\ tracks res r s s' /\ running_of s' = Some false.
Proof.
  induction fuel as [|fuel IH]; intros c res s r s' H HP; simpl in H.
  - apply bind_done in H as (u & s0 & Hg & H).
    apply get_ctx_done in Hg as (-> & Hu & ->).
    destruct (running u) eqn:Hrun; [done|].
    apply ret_done in H as [<- <-].
    split; [apply step_refl|]. split; [apply tracks_refl|].
    unfold running_of. by rewrite Hu, <- Hrun.
  - apply bind_done in H as (u & s0 & Hg & H).
    apply get_ctx_done in Hg as (-> & Hu & ->).
    destruct (running u) eqn:Hrun.
    2:{ apply ret_done in H as [<- <-].
        split; [apply step_refl|]. split; [apply tracks_refl|].
        unfold running_of. by rewrite Hu, <- Hrun. }
    apply bind_done in H as (rw & s1 & Hw & H).
    apply wait_events_step in Hw as (S1 & T1 & _).
    apply bind_done in H as (r1 & s2 & Hd & H).
    apply dispatch_from_step in Hd as [S2 T2]; [|by eapply P_step].
    apply IH in H as (S3 & T3 & Hstop); [|eauto using P_step].
    split; [eauto using step_trans|]. split; [|done].
    eauto using tracks_trans.
Qed.

End Loops.

(** ** Loop termination request *)

(** C10: [uev_exit] has one effect, clearing the running flag of the
    Context: every other field of the Context, every watcher and the rest
    of the world are as before, and the result is the unit value.  It does
    not validate its argument: on the null pointer (and on a released
    Context) the flag write is a wild store, undefined behaviour. *)
Theorem uev_exit_clears_running_only (s : world) :
  match ctx s with
  | Some u =>
      uev_exit CTX s =
      Done tt (World (fds s) (clock s)
                 (Some (Uev (efd u) false (watchers u) (events u)))
                 (heap s) (brk s) (errno s) (env s) (log s))
  | None => uev_exit CTX s = Fault Undefined
  end /\
  uev_exit CNULL s = Fault Undefined.
Proof.
  unfold uev_exit, bind, get_ctx, put_ctx, modify, set_ctx.
  destruct (ctx s); auto.
Qed.

(** ** Timer arming *)

(** C9: arming is not atomic on error.  When [uev_timer_set] returns a
    nonzero status on a valid Context and watcher, the operating system
    has rejected the schedule and left the timer as it was, yet the
    watcher already holds the requested timeout and period. *)
Theorem uev_timer_set_stores_before_failing w t p s r s' :
  w <> NULL -> r <> 0 ->
  uev_timer_set CTX w t p s = Done r s' ->
  exists v,
    heap s !! w = Some v /\
    heap s' !! w =
      Some (Watcher (fd v) (dir v) (type v) (handler v) (data v) t p) /\
    fds s' = fds s /\
    log s' = log s ++ [EvSettime (fd v) (schedule t p) r].
Proof.
  intros Hw Hr H.
  apply uev_timer_set_done in H
    as [(_ & [?|?] & _)|(_ & _ & u & v & Hu & Hv & _ & _ & _ & _ & Hh & Hs)];
    [done|done|].
  exists v. split; [done|]. rewrite Hh, lookup_insert_eq. split; [done|].
  destruct Hs as [(_ & -> & _)|(_ & Hl & [(-> & _)|(_ & Hf & _)])]; done.
Qed.

(** A running reactor with one timer watcher (block 1, descriptor 4). *)
Lemma uev_timer_set_stores_before_failing_witness :
  let s := World {[ 3 := FEpoll {[ 4 := EpollEvent EPOLLIN 1 ]};
                    4 := FTimer zero_spec 1000 ]} 2000
             (Some (Uev 3 true [1] []))
             {[ 1 := Watcher 4 UEV_DIR_INBOUND UEV_TIMER_TYPE 100 0 50 0 ]}
             2 0 [] [] in
  let s' := after (uev_timer_set CTX 1 (-5) 20) s in
  exists v,
    heap s !! 1 = Some v /\
    heap s' !! 1 =
      Some (Watcher (fd v) (dir v) (type v) (handler v) (data v) (-5) 20) /\
    fds s' = fds s /\
    log s' = log s ++ [EvSettime (fd v) (schedule (-5) 20) (-1)].
Proof.
  intros s s'.
  apply (uev_timer_set_stores_before_failing 1 (-5) 20 s (-1) s');
    [unfold NULL; lia | lia | vm_compute; reflexivity].
Defined.

(** ** Watcher registration *)

(** C2: [new_watcher] leaves no partial state.  Whenever it returns NULL
    the descriptor table (hence every epoll interest list), the Context
    and the set of live watcher blocks are as before the call; a rejection
    by the multiplexer is such a failure, and the block allocated for the
    watcher is released.  On success the only system call is the accepted
    EPOLL_CTL_ADD, and the new watcher heads the Context's list. *)
Theorem new_watcher_no_partial_state c ty f dr h d s r s' :
  new_watcher c ty f dr h d s = Done r s' ->
  (r = NULL -> fds s' = fds s /\ ctx s' = ctx s /\ heap s' = heap s) /\
  (log s' = log s ++ [EvEpollCtl EPOLL_CTL_ADD f (-1)] ->
   r = NULL /\ brk s' = brk s + 1 /\ heap s' !! brk s = None) /\
  (r <> NULL ->
   log s' = log s ++ [EvEpollCtl EPOLL_CTL_ADD f 0] /\
   list_of s' = r :: list_of s /\
   interest_of s !! f = None /\
   interest_of s' =
     <[f := EpollEvent (if decide (dr = UEV_DIR_OUTBOUND)
                        then EPOLLOUT else EPOLLIN) r]> (interest_of s) /\
   heap s' !! r = Some (Watcher f dr ty h d 0 0)).
Proof.
  intros H.
  apply new_watcher_done in H.
  destruct H as (_ & [(-> & Hc & Hf & Hh & Hbl)|
    (-> & -> & Hh & Hb & Hpos & Hfresh & u & m & Hu & Hm & Hmf & Hfo & Hne
     & Hc & Hf & Hhp & Hl)]).
  - split; [done|]. split; [|done].
    intros Hrej. split; [done|].
    destruct Hbl as [[Hb Hl]|(Hb & Hl & Hfresh)].
    + rewrite Hl in Hrej.
      apply (f_equal length) in Hrej. rewrite length_app in Hrej.
      simpl in Hrej. lia.
    + rewrite Hh. done.
  - split; [unfold NULL; lia|]. split.
    + rewrite Hl. intros Hrej. apply app_inv_head in Hrej. discriminate.
    + intros _. split; [done|].
      unfold list_of, interest_of. rewrite Hc, Hu, Hf, Hm. simpl.
      rewrite lookup_insert_eq, Hhp, lookup_insert_eq. done.
Qed.

Lemma new_watcher_no_partial_state_witness :
  let s := boot [Alloc true; CtlAdd ENOMEM] in
  let s' := after (new_watcher CTX UEV_FILE_TYPE 5 UEV_DIR_INBOUND 100 0) s in
  (NULL = NULL -> fds s' = fds s /\ ctx s' = ctx s /\ heap s' = heap s) /\
  (log s' = log s ++ [EvEpollCtl EPOLL_CTL_ADD 5 (-1)] ->
   NULL = NULL /\ brk s' = brk s + 1 /\ heap s' !! brk s = None) /\
  (NULL <> NULL ->
   log s' = log s ++ [EvEpollCtl EPOLL_CTL_ADD 5 0] /\
   list_of s' = NULL :: list_of s /\
   interest_of s !! 5 = None /\
   interest_of s' =
     <[5 := EpollEvent (if decide (UEV_DIR_INBOUND = UEV_DIR_OUTBOUND)
                        then EPOLLOUT else EPOLLIN) NULL]> (interest_of s) /\
   heap s' !! NULL = Some (Watcher 5 UEV_DIR_INBOUND UEV_FILE_TYPE 100 0 0 0)).
Proof.
  intros s s'.
  apply (new_watcher_no_partial_state CTX UEV_FILE_TYPE 5 UEV_DIR_INBOUND
           100 0 s NULL s').
  vm_compute. reflexivity.
Defined.

(** ** Timer creation *)

(** C8: timer creation does not leak.  Whenever [uev_timer_create] returns
    NULL the set of open descriptors is the one before the call; if the
    operating system had handed out a timer descriptor, that descriptor is
    closed again and closing it is the last thing the function does. *)
Theorem uev_timer_create_failure_closes_fd c h d t p s s' :
  uev_timer_create c h d t p s = Done NULL s' ->
  open_fds s' = open_fds s /\
  match env s with
  | NewFd f :: _ =>
      0 <= f -> fds s' !! f = None /\ last (log s') = Some (EvClose f)
  | _ => True
  end.
Proof.
  intros H.
  apply uev_timer_create_done in H.
  destruct H as (_ & [(_ & Hf & _ & _ & _ & _ & x & rest & He & Hx)|
    [(_ & _ & _ & (f & l & rest & Hf0 & Hfn & He & Hf & Hl) & _)|
     (Hr & _ & _ & _ & Hpos & _)]]).
  - unfold open_fds. rewrite Hf, He. split; [done|]. lia.
  - unfold open_fds. rewrite Hf, He, Hl, dom_fmap_L. split; [done|].
    intros _. rewrite lookup_fmap, Hfn, last_snoc. done.
  - unfold NULL in *. lia.
Qed.

(** Arming fails on a running reactor when the timeout is negative. *)
Lemma uev_timer_create_failure_closes_fd_witness :
  let s := spinning [NewFd 4; Alloc true; CtlAdd 0] in
  let s' := after (uev_timer_create CTX 100 0 (-5) 0) s in
  open_fds s' = open_fds s /\
  (0 <= 4 -> fds s' !! 4 = None /\ last (log s') = Some (EvClose 4)).
Proof.
  intros s s'.
  apply (uev_timer_create_failure_closes_fd CTX 100 0 (-5) 0 s s').
  vm_compute. reflexivity.
Defined.

(** ** Timer deletion *)

(** [uev_timer_delete] never closes a descriptor. *)
Lemma uev_timer_delete_keeps_fds_open c w s r s' :
  uev_timer_delete c w s = Done r s' -> open_fds s' = open_fds s.
Proof.
  intros H. unfold uev_timer_delete in H.
  destruct (decide (c = CNULL \/ w = NULL)); [by exec|].
  apply bind_done in H as (r1 & s1 & Hs & Hd).
  assert (open_fds s1 = open_fds s) as <-.
  { apply uev_timer_set_done in Hs
      as [(_ & _ & ->)|(_ & _ & u & v & _ & _ & _ & _ & _ & _ & _ & Hs)];
      [done|].
    unfold open_fds.
    destruct Hs as [(_ & _ & -> & _)|(_ & _ & [(_ & (cur & since & Hx) & _ & ->)|
                                              (_ & -> & _)])]; [done| |done].
    apply dom_insert_lookup_L. eauto. }
  apply delete_watcher_done in Hd
    as [(_ & _ & ->)|(_ & _ & _ & u & v & rc & _ & _ & _ & _ & _ & _ & _ & _ & _ & Hd)];
    [done|].
  unfold open_fds.
  destruct Hd as [(_ & m & Hm & ->)|(_ & -> & _)]; [|done].
  apply dom_insert_lookup_L. eauto.
Qed.

(** C4, as the code behaves: on the running reactor of [mixed], deleting
    the timer disarms it and unregisters the watcher, in that order, and
    releases the watcher's block, but the timerfd 4 stays open.  Tearing
    the whole Context down releases both watchers and closes the epoll
    descriptor 3 only: the timerfd, which nothing refers to any more, is
    left open next to the application's own descriptor 5.  The unwinding
    path of [uev_timer_create] shows what is missing: there
    [delete_watcher] is followed by a close of the timer descriptor. *)
Theorem uev_timer_delete_leaves_timerfd_open :
  let s := mixed true [] in
  let s1 := after (uev_timer_delete CTX 2) s in
  let s2 := after (uev_ctx_delete 2 CTX) s in
  uev_timer_delete CTX 2 s = Done 0 s1 /\
  log s1 = [EvSettime 4 (schedule 0 0) 0; EvEpollCtl EPOLL_CTL_DEL 4 0] /\
  list_of s1 = [1] /\ heap s1 !! 2 = None /\
  fds s1 !! 4 = Some (FTimer (schedule 0 0) 2000) /\
  uev_ctx_delete 2 CTX s = Done tt s2 /\
  ctx s2 = None /\ heap s2 = ∅ /\
  fds s2 = {[ 4 := FTimer (schedule 0 0) 2000; 5 := FOther ]}.
Proof. vm_compute. repeat split; reflexivity. Qed.

(** ** Lock-step of the watcher list and the epoll interest list *)

Lemma run_calls_app cs1 : forall cs2 s (r : unit) s',
  run_calls (cs1 ++ cs2) s = Done r s' ->
  exists s1, run_calls cs1 s = Done tt s1 /\ run_calls cs2 s1 = Done r s'.
Proof.
  unfold run_calls. induction cs1 as [|c cs1 IH]; intros cs2 s r s' H.
  - exists s. done.
  - simpl in H. apply bind_done in H as ([] & sa & He & H).
    apply bind_done in H as (rc & sb & Ha & H).
    destruct (IH _ _ _ _ H) as (s1 & H1 & H2).
    exists s1. split; [|done]. simpl.
    rewrite (bind_eq _ _ _ _ _ He). by rewrite (bind_eq _ _ _ _ _ Ha).
Qed.

Lemma fresh_context_boot answers : fresh_context (boot answers).
Proof. exists 3, false, []. repeat split; reflexivity. Qed.

(** C1: the Context's watcher list and the interest list of its epoll
    instance never drift apart.  Start from a consistent reactor (a fresh
    Context is one) and make any sequence of library calls whose behaviour
    is defined: at every observation point, that is after every prefix of
    the sequence, a watcher is registered if and only if it is on the
    list.  At each such point a successful create puts the new watcher on
    the list and adds exactly one registration, tagged with it, for a
    descriptor that had none.  Deleting a watcher that is on the list,
    with [uev_io_delete] or with [uev_timer_delete], always returns 0 and
    takes the watcher off the list and removes the registration of its
    descriptor; the only deletes that return anything else are those
    given a null pointer, and they change nothing but errno. *)
Theorem watcher_list_matches_epoll_registrations s cs1 cs2 s' :
  consistent s ->
  run_calls (cs1 ++ cs2) s = Done tt s' ->
  exists s1,
    run_calls cs1 s = Done tt s1 /\
    lockstep s1 /\
    (forall w del, w ∈ list_of s1 ->
       del = CIoDelete CTX w \/ del = CTimerDelete CTX w ->
       exists s2,
         api del s1 = Done 0 s2 /\ lockstep s2 /\
         list_of s2 = filter (fun x => x <> w) (list_of s1) /\
         (w ∉ list_of s2) /\ ~ registered s2 w) /\
    forall c r s2, api c s1 = Done r s2 ->
      lockstep s2 /\
      match c with
      | CIoCreate _ _ _ _ _ | CTimerCreate _ _ _ _ _ =>
          r <> NULL ->
          list_of s2 = r :: list_of s1 /\ (r ∉ list_of s1) /\
          exists f e,
            interest_of s1 !! f = None /\ ev_data e = r /\
            interest_of s2 = <[f := e]> (interest_of s1)
      | CIoDelete cx w | CTimerDelete cx w =>
          (r = 0 ->
           list_of s2 = filter (fun x => x <> w) (list_of s1) /\
           (w ∉ list_of s2) /\ ~ registered s2 w /\
           exists v,
             heap s1 !! w = Some v /\
             interest_of s2 = delete (fd v) (interest_of s1)) /\
          (r <> 0 ->
           r = -1 /\ (cx = CNULL \/ w = NULL) /\ s2 = set_errno EINVAL s1)
      | _ => True
      end.
Proof.
  intros C H.
  apply run_calls_app in H as (s1 & H1 & H2).
  exists s1. split; [done|].
  assert (consistent s1) as C1 by (eapply run_script_consistent; eauto).
  split; [by apply consistent_lockstep|].
  assert (forall w, heap s1 !! w = None -> w ∉ list_of s1) as Hdead.
  { intros w Hw Hin. apply (cs_live s1 C1) in Hin. rewrite Hw in Hin.
    by destruct Hin. }
  assert (forall w, w ∉ filter (fun x => x <> w) (list_of s1)) as Hgone.
  { intros w Hin. apply list_elem_of_filter in Hin as [Hne _]. by apply Hne. }
  assert (forall w s2,
            consistent s2 ->
            list_of s2 = filter (fun x => x <> w) (list_of s1) ->
            (w ∉ list_of s2) /\ ~ registered s2 w) as Hoff.
  { intros w s2 C2 Hl. rewrite Hl. split; [apply Hgone|].
    intros Hreg. apply (consistent_lockstep s2 C2) in Hreg.
    rewrite Hl in Hreg. by apply Hgone in Hreg. }
  split.
  - (* a listed watcher can always be deleted *)
    intros w del Hin Hdel.
    destruct (cs_epoll s1 C1) as (u & m & Hu & Hm).
    pose proof Hin as Hlive. apply (cs_live s1 C1) in Hlive as [v Hv].
    assert (w <> NULL) as Hw.
    { pose proof (cs_brk s1 C1 w (ex_intro _ v Hv)). unfold NULL. lia. }
    rewrite (list_of_eq s1 u Hu) in Hin.
    destruct Hdel as [-> | ->]; simpl.
    + destruct (delete_watcher_total w s1 u v Hu Hv Hin Hw) as (s2 & E).
      exists s2. split; [done|].
      destruct (delete_watcher_consistent _ _ _ _ _ C1 E)
        as (C2 & [(? & _)|(_ & v' & _ & _ & Hl & _)]); [lia|].
      split; [by apply consistent_lockstep|]. split; [done|].
      by apply (Hoff w s2).
    + destruct (uev_timer_delete_total w s1 u v Hu Hv Hin Hw) as (s2 & E).
      exists s2. split; [done|].
      destruct (uev_timer_delete_consistent _ _ _ _ _ C1 E)
        as (C2 & [(? & _)|(_ & v' & _ & _ & Hl & _)]); [lia|].
      split; [by apply consistent_lockstep|]. split; [done|].
      by apply (Hoff w s2).
  - intros c r s2 Ha.
    assert (consistent s2) as C2 by (eapply api_consistent; eauto).
    split; [by apply consistent_lockstep|].
    destruct c; simpl in Ha; try done.
    + intros Hr.
      destruct (uev_io_create_consistent _ _ _ _ _ _ _ _ C1 Ha)
        as (_ & [(? & _)|(_ & Hh & Hl & Hi & Hi')]); [done|].
      split; [done|]. split; [by apply Hdead|].
      eexists f, _. split; [exact Hi|]. split; [|exact Hi']. done.
    + split.
      * intros Hr.
        destruct (delete_watcher_consistent _ _ _ _ _ C1 Ha)
          as (_ & [(? & _)|(_ & v & Hv & Hh & Hl & Hi & _)]); [lia|].
        split; [done|].
        destruct (Hoff w s2 C2 Hl). split; [done|]. split; [done|]. eauto.
      * intros Hr. unfold uev_io_delete in Ha.
        apply delete_watcher_done in Ha as [(? & ? & ?)|(? & _)]; [done|lia].
    + intros Hr.
      destruct (uev_timer_create_consistent _ _ _ _ _ _ _ _ C1 Ha)
        as (_ & [(? & _)|(_ & Hh & Hl & f0 & Hfn & Hi & Hi' & _)]); [done|].
      split; [done|]. split; [by apply Hdead|].
      eexists f0, _. split; [exact Hi|]. split; [|exact Hi']. done.
    + split.
      * intros Hr.
        destruct (uev_timer_delete_consistent _ _ _ _ _ C1 Ha)
          as (_ & [(? & _)|(_ & v & Hv & Hh & Hl & Hi & _)]); [lia|].
        split; [done|].
        destruct (Hoff w s2 C2 Hl). split; [done|]. split; [done|]. eauto.
      * intros Hr. unfold uev_timer_delete in Ha.
        destruct (decide (c = CNULL \/ w = NULL)) as [Hbad|Hok].
        { apply bind_done in Ha as ([] & sa & Hm & Ha).
          apply modify_done in Hm as ->. by apply ret_done in Ha as [<- <-]. }
        apply bind_done in Ha as (r1 & sa & _ & Ha).
        apply delete_watcher_done in Ha as [(_ & ? & _)|(? & _)]; [done|lia].
Qed.

(** One I/O watcher and one timer are created, then both deleted. *)
Lemma watcher_list_matches_epoll_registrations_witness :
  let s := boot [Alloc true; CtlAdd 0; NewFd 4; Alloc true; CtlAdd 0] in
  let cs1 := [CIoCreate CTX 100 0 5 UEV_DIR_INBOUND;
              CTimerCreate CTX 100 0 50 0] in
  let cs2 := [CIoDelete CTX 1; CTimerDelete CTX 2] in
  exists s1,
    run_calls cs1 s = Done tt s1 /\
    lockstep s1 /\
    (forall w del, w ∈ list_of s1 ->
       del = CIoDelete CTX w \/ del = CTimerDelete CTX w ->
       exists s2,
         api del s1 = Done 0 s2 /\ lockstep s2 /\
         list_of s2 = filter (fun x => x <> w) (list_of s1) /\
         (w ∉ list_of s2) /\ ~ registered s2 w) /\
    forall c r s2, api c s1 = Done r s2 ->
      lockstep s2 /\
      match c with
      | CIoCreate _ _ _ _ _ | CTimerCreate _ _ _ _ _ =>
          r <> NULL ->
          list_of s2 = r :: list_of s1 /\ (r ∉ list_of s1) /\
          exists f e,
            interest_of s1 !! f = None /\ ev_data e = r /\
            interest_of s2 = <[f := e]> (interest_of s1)
      | CIoDelete cx w | CTimerDelete cx w =>
          (r = 0 ->
           list_of s2 = filter (fun x => x <> w) (list_of s1) /\
           (w ∉ list_of s2) /\ ~ registered s2 w /\
           exists v,
             heap s1 !! w = Some v /\
             interest_of s2 = delete (fd v) (interest_of s1)) /\
          (r <> 0 ->
           r = -1 /\ (cx = CNULL \/ w = NULL) /\ s2 = set_errno EINVAL s1)
      | _ => True
      end.
Proof.
  intros s cs1 cs2.
  apply (watcher_list_matches_epoll_registrations s cs1 cs2
           (after (run_calls (cs1 ++ cs2)) s)).
  - apply consistent_fresh, fresh_context_boot.
  - vm_compute. reflexivity.
Defined.

(** ** Deferred arming *)

(** C5: arming stores the requested timeout and period on the watcher,
    and with the running flag down it does no more than that: it returns
    0 and makes no system call.  When [uev_run] starts, its prologue
    [start_timers] raises the flag and calls timerfd_settime for every
    timer watcher on the list with the schedule built from the stored
    timeout and period; where these are non-negative the timer descriptor
    ends up programmed with that schedule as of the clock reading at the
    start of the loop.  The prologue cannot fail, and the loop proper
    continues from the world it leaves. *)
Theorem timers_are_armed_at_loop_start s :
  consistent s ->
  (forall w t p r s', w <> NULL -> uev_timer_set CTX w t p s = Done r s' ->
     exists u v,
       ctx s = Some u /\ heap s !! w = Some v /\
       heap s' !! w =
         Some (Watcher (fd v) (dir v) (type v) (handler v) (data v) t p) /\
       (running u = false -> r = 0 /\ fds s' = fds s /\ log s' = log s)) /\
  (exists s' d,
     start_timers CTX s = Done tt s' /\
     (forall N code fuel,
        uev_run N code fuel CTX s = event_loop N code fuel CTX 0 s') /\
     log s' = log s ++ d /\ clock s' = clock s /\ heap s' = heap s /\
     list_of s' = list_of s /\ running <$> ctx s' = Some true /\
     forall w v, w ∈ list_of s -> heap s !! w = Some v ->
       type v = UEV_TIMER_TYPE ->
       (exists r, EvSettime (fd v) (schedule (timeout v) (period v)) r ∈ d) /\
       (0 <= timeout v -> 0 <= period v ->
        fds s' !! fd v =
          Some (FTimer (schedule (timeout v) (period v)) (clock s)))).
Proof.
  intros C. split.
  - intros w t p r s' Hw H.
    apply uev_timer_set_done in H
      as [(_ & [?|?] & _)|(_ & _ & u & v & Hu & Hv & _ & _ & _ & _ & Hh & Hs)];
      [done|done|].
    exists u, v. split_and!; auto.
    + by rewrite Hh, lookup_insert_eq.
    + intros Hrun.
      destruct Hs as [(_ & -> & -> & ->)|(Hrun' & _)]; [done|congruence].
  - destruct (cs_epoll s C) as (u & m & Hu & Hm).
    set (u' := Uev (efd u) true (watchers u) (events u)).
    set (s0 := set_ctx (Some u') s).
    destruct (arm_pass_spec (watchers u) s0 u')
      as (s' & d & Harm & Hc & Hh & Hk & Hb & He & Hl & Hkind & Hframe & Hset);
      try done.
    { intros w Hw. rewrite <- (list_of_eq s u Hu) in Hw.
      apply (cs_live s C) in Hw. split; [done|].
      pose proof (cs_brk s C w Hw). unfold NULL. lia. }
    { intros w1 w2 v1 v2 _ _. apply (consistent_fd_inj s w1 w2 v1 v2 C). }
    assert (start_timers CTX s = Done tt s') as Hstart.
    { unfold start_timers, bind, get_ctx, put_ctx, modify. by rewrite Hu. }
    exists s', d. split_and!; auto.
    + intros N code fuel. unfold uev_run.
      destruct (decide (CTX = CNULL)); [done|].
      by rewrite (bind_eq _ _ _ _ _ Hstart).
    + unfold list_of. by rewrite Hc, Hu.
    + by rewrite Hc.
    + intros w v Hw Hv Hty. rewrite (list_of_eq s u Hu) in Hw.
      destruct (Hset w v Hw Hv Hty) as [Hev Hfd].
      split; [done|]. intros Ht Hp. apply Hfd; [done|done|].
      by apply (cs_timer s C w v).
Qed.

(** The reactor of [mixed], not yet running: arming stores and returns,
    starting the loop programs the one timer for 50 ms from then on. *)
Lemma timers_are_armed_at_loop_start_witness :
  let s := after (run_calls [CIoCreate CTX 100 0 5 UEV_DIR_INBOUND;
                             CTimerCreate CTX 100 0 50 0])
             (boot [Alloc true; CtlAdd 0; NewFd 4; Alloc true; CtlAdd 0]) in
  (exists s' d,
     start_timers CTX s = Done tt s' /\
     (forall N code fuel,
        uev_run N code fuel CTX s = event_loop N code fuel CTX 0 s') /\
     log s' = log s ++ d /\ clock s' = clock s /\ heap s' = heap s /\
     list_of s' = list_of s /\ running <$> ctx s' = Some true /\
     forall w v, w ∈ list_of s -> heap s !! w = Some v ->
       type v = UEV_TIMER_TYPE ->
       (exists r, EvSettime (fd v) (schedule (timeout v) (period v)) r ∈ d) /\
       (0 <= timeout v -> 0 <= period v ->
        fds s' !! fd v =
          Some (FTimer (schedule (timeout v) (period v)) (clock s)))).
Proof.
  intros s.
  apply (timers_are_armed_at_loop_start s).
  apply (run_script_consistent
           (seq_script [CIoCreate CTX 100 0 5 UEV_DIR_INBOUND;
                        CTimerCreate CTX 100 0 50 0])
           (boot [Alloc true; CtlAdd 0; NewFd 4; Alloc true; CtlAdd 0]) tt s).
  - apply consistent_fresh, fresh_context_boot.
  - vm_compute. reflexivity.
Defined.

(** ** Timer housekeeping after a callback *)

(** What the housekeeping of [uev_run] does to a timer watcher depends on
    the period found in the watcher after its callback has returned. *)
Lemma after_fire_timer w res s r s' v :
  after_fire CTX w res s = Done r s' ->
  w <> NULL -> heap s !! w = Some v -> type v = UEV_TIMER_TYPE ->
  exists n,
    (r = if decide (n <> 8) then -1 else res) /\
    (period v <> 0 ->
       heap s' = heap s /\ list_of s' = list_of s /\ fds s' = fds s /\
       log s' = log s ++ [EvRead (fd v) n]) /\
    (period v = 0 ->
       heap s' = delete w (heap s) /\
       list_of s' = filter (fun x => x <> w) (list_of s) /\
       w ∈ list_of s).
Proof.
  intros H Hnn Hv Hty. unfold after_fire in H.
  apply bind_done in H as (v0 & s0 & Hl & H).
  apply load_done in Hl as [Hv0 ->]. assert (v0 = v) as -> by congruence.
  destruct (decide (UEV_TIMER_TYPE = type v)) as [_|]; [|congruence].
  apply bind_done in H as (n & s1 & Hr & H).
  apply read_timer_done in Hr as (Hc1 & Hf1 & Hh1 & Hb1 & Hk1 & Hl1).
  apply bind_done in H as (res' & s2 & Hres & H).
  assert (res' = (if decide (n <> 8) then -1 else res) /\
          heap s2 = heap s1 /\ fds s2 = fds s1 /\ log s2 = log s1 /\
          list_of s2 = list_of s1) as (-> & Hh2 & Hf2 & Hl2 & Hw2).
  { clear H. destruct (decide (n <> 8)); exec; fields; [|done].
    unfold list_of. simpl.
    match goal with E : ctx s1 = Some _ |- _ => by rewrite E end. }
  apply bind_done in H as (v1 & s3 & Hld & H).
  apply load_done in Hld as [Hv1 ->].
  rewrite Hh2, Hh1, Hv in Hv1. injection Hv1 as <-.
  apply bind_done in H as ([] & s4 & Hdel & H).
  apply ret_done in H as [<- <-].
  exists n. split; [done|]. split.
  - intros Hp. destruct (decide (period v = 0)); [done|].
    apply ret_done in Hdel as [_ <-].
    split_and!; try congruence.
    rewrite Hw2. unfold list_of. by rewrite Hc1.
  - intros Hp. destruct (decide (period v = 0)); [|done].
    apply bind_done in Hdel as (rd & s5 & Hdel & Hret).
    apply ret_done in Hret as [_ <-].
    unfold uev_timer_delete in Hdel.
    destruct (decide (CTX = CNULL \/ w = NULL)) as [[?|?]|_]; [done|done|].
    apply bind_done in Hdel as (rs & s6 & Hset & Hdel).
    apply uev_timer_set_done in Hset
      as [(_ & [?|?] & _)|(_ & _ & u & v6 & Hu & Hv6 & Hc6 & _ & _ & _ & Hh6 & _)];
      [done|done|].
    apply delete_watcher_done in Hdel
      as [(_ & [?|?] & _)|(_ & _ & _ & u7 & v7 & rc & Hu7 & Hv7 & Hin & Hc7 & Hh7 & _)];
      [done|done|].
    assert (u7 = u) as -> by congruence.
    assert (list_of s = watchers u) as Hls.
    { rewrite <- (list_of_eq s2 u Hu), Hw2. unfold list_of. by rewrite Hc1. }
    split_and!.
    + rewrite Hh7, Hh6, Hh2, Hh1. by rewrite delete_insert_eq.
    + by rewrite (list_of_eq s5 _ Hc7), Hls.
    + by rewrite Hls.
Qed.

Lemma timerfd_read_just_programmed new now :
  timerfd_read (FTimer new now) now = -1.
Proof.
  unfold timerfd_read, expired.
  destruct (0 <? nsec (it_value new)) eqn:E1; [|done].
  destruct (now + nsec (it_value new) <=? now) eqn:E2; [|done].
  apply Z.ltb_lt in E1. apply Z.leb_le in E2. lia.
Qed.

(** C6, as the code behaves: a timer callback that rearms its own
    watcher decides what the one-shot check does, and stops the loop.
    Take a running loop and a ready timer whose callback is a call of
    [uev_timer_set] on that watcher with timeout [t] and period [p],
    neither negative.  The callback returns with the watcher holding [t]
    and [p] and the timer descriptor reprogrammed as of now, on which a
    read at this moment finds no expiration and answers -1.  The loop
    reads only then.  Whatever the read returns, the turn runs to its
    end, and the one-shot check sees [p], not the period the timer fired
    with: with [p] nonzero the watcher stays on the list, holding [t] and
    [p], its descriptor carrying the new schedule; with [p] zero it is
    deleted.  But [result] and the running flag follow the read: unless
    it returns 8, the turn yields -1 and lowers the flag.  With the
    answer of the kernel the loop is thus left with status -1 before the
    rearmed timer can fire. *)
Theorem rearm_in_callback_stops_the_loop
    code h w t p i res s u e v cur since n rest :
  code h = Some (fun c w' _ => SCall (CTimerSet c w' t p) (fun _ => SDone)) ->
  ctx s = Some u -> running u = true ->
  events u !! i = Some e -> ev_data e = w ->
  heap s !! w = Some v -> handler v = h -> h <> NULL -> w <> NULL ->
  w ∈ watchers u -> type v = UEV_TIMER_TYPE ->
  fds s !! fd v = Some (FTimer cur since) ->
  0 <= t -> 0 <= p ->
  env s = ReadRet n :: rest ->
  let v' := Watcher (fd v) (dir v) (type v) (handler v) (data v) t p in
  let x := FTimer (schedule t p) (clock s) in
  exists sm s',
    fire code CTX w s = Done tt sm /\
    heap sm !! w = Some v' /\ fds sm !! fd v = Some x /\
    clock sm = clock s /\
    timerfd_read x (clock sm) = -1 /\
    dispatch code CTX i res s = Done (if decide (n = 8) then res else -1) s' /\
    running_of s' = Some (bool_decide (n = 8)) /\
    (p <> 0 ->
       heap s' !! w = Some v' /\ list_of s' = list_of s /\
       fds s' !! fd v = Some x) /\
    (p = 0 ->
       heap s' !! w = None /\
       list_of s' = filter (fun x => x <> w) (list_of s)) /\
    (n = timerfd_read x (clock sm) ->
       dispatch code CTX i res s = Done (-1) s' /\
       running_of s' = Some false).
Proof.
  intros Hcode Hu Hrun Hev He Hv Hh Hhn Hwn Hin Hty Hf Ht Hp Henv v' x.
  set (s1 := set_log (log s ++ [EvCallback (handler v) w (data v)]) s).
  set (s2 := set_log (log s1 ++ [EvCall (CTimerSet CTX w t p)]) s1).
  assert (handler v <> NULL) as Hhv by congruence.
  (* the callback *)
  pose proof (uev_timer_set_running w t p s2 u v cur since Hu Hrun Hwn Hv Hf)
    as Hset.
  rewrite !msec2tspec_valid in Hset by done. simpl in Hset.
  match type of Hset with _ = Done 0 ?z => set (sm := z) in * end.
  assert (fire code CTX w s = Done tt sm) as Hfire.
  { apply (fire_one_call code (fun c y _ => CTimerSet c y t p) w s v 0 sm);
      try done.
    by rewrite Hh. }
  assert (heap sm !! w = Some v') as Hv' by apply lookup_insert_eq.
  assert (fds sm !! fd v = Some x) as Hx by apply lookup_insert_eq.
  (* the housekeeping *)
  destruct (after_fire_timer_total w res sm u v' n rest)
    as (s' & Hafter & Hflag & Hkeep & Hdrop); try done.
  assert (dispatch code CTX i res s =
          Done (if decide (n = 8) then res else -1) s') as Hd.
  { unfold dispatch.
    rewrite (bind_eq (get_ctx CTX) _ s u s) by (unfold get_ctx; by rewrite Hu).
    rewrite Hev, He. by rewrite (bind_eq _ _ s tt sm Hfire). }
  assert (running_of s' = Some (bool_decide (n = 8))) as Hr'.
  { rewrite Hflag, Hrun. destruct (decide (n = 8)) as [E|E].
    - by rewrite bool_decide_eq_true_2.
    - by rewrite bool_decide_eq_false_2. }
  assert (list_of sm = list_of s) as Hls.
  { by rewrite (list_of_eq sm u), (list_of_eq s u). }
  exists sm, s'. split_and!; try done.
  - apply timerfd_read_just_programmed.
  - intros Hp0. destruct (Hkeep Hp0) as (Hh' & Hl' & Hf').
    rewrite Hh', Hl', Hf'. done.
  - intros Hp0. destruct (Hdrop Hp0) as (Hh' & Hl').
    rewrite Hh', Hl', Hls. split; [apply lookup_delete_eq|done].
  - intros Hn.
    assert (timerfd_read x (clock sm) = -1) as Hk
      by apply timerfd_read_just_programmed.
    rewrite Hk in Hn. subst n. rewrite Hd, Hr'. done.
Qed.

(** A run of the reactor of [mixed] with a callback that rearms the
    timer with timeout 30 and period 20.  The timer is started with the
    loop and is due when the wait reports it 50 ms later: a read at that
    point would deliver the count.  The read that follows the rearm
    fails, and [uev_run] returns -1. *)
Lemma rearm_in_callback_stops_the_loop_witness :
  let s0 := mixed false [Ready 50000000 [4]; ReadRet (-1)] in
  let s := timer_due [ReadRet (-1)] in
  let v := Watcher 4 UEV_DIR_INBOUND UEV_TIMER_TYPE 100 0 50 0 in
  let v' := Watcher 4 UEV_DIR_INBOUND UEV_TIMER_TYPE 100 0 30 20 in
  let x := FTimer (schedule 30 20) (clock s) in
  (fds s !! 4 = Some (FTimer (schedule 50 0) 2000) /\
   timerfd_read (FTimer (schedule 50 0) 2000) (clock s) = 8 /\
   uev_run 10 (rearming 30 20) 5 CTX s0
     = Done (-1) (after (dispatch (rearming 30 20) CTX 0 0) s)) /\
  exists sm s',
    fire (rearming 30 20) CTX 2 s = Done tt sm /\
    heap sm !! 2 = Some v' /\ fds sm !! fd v = Some x /\
    clock sm = clock s /\
    timerfd_read x (clock sm) = -1 /\
    dispatch (rearming 30 20) CTX 0 0 s
      = Done (if decide (-1 = 8) then 0 else -1) s' /\
    running_of s' = Some (bool_decide (-1 = 8)) /\
    (20 <> 0 ->
       heap s' !! 2 = Some v' /\ list_of s' = list_of s /\
       fds s' !! fd v = Some x) /\
    (20 = 0 ->
       heap s' !! 2 = None /\
       list_of s' = filter (fun x => x <> 2) (list_of s)) /\
    (-1 = timerfd_read x (clock sm) ->
       dispatch (rearming 30 20) CTX 0 0 s = Done (-1) s' /\
       running_of s' = Some false).
Proof.
  intros s0 s v v' x. split.
  { split_and!; vm_compute; reflexivity. }
  apply (rearm_in_callback_stops_the_loop (rearming 30 20) 100 2 30 20
           0%nat 0 s (Uev 3 true [2; 1] [EpollEvent EPOLLIN 2])
           (EpollEvent EPOLLIN 2) v (schedule 50 0) 2000 (-1) []).
  - vm_compute. reflexivity.
  - vm_compute. reflexivity.
  - reflexivity.
  - reflexivity.
  - reflexivity.
  - vm_compute. reflexivity.
  - reflexivity.
  - unfold NULL. lia.
  - unfold NULL. lia.
  - simpl. apply elem_of_cons. left. reflexivity.
  - reflexivity.
  - vm_compute. reflexivity.
  - lia.
  - lia.
  - vm_compute. reflexivity.
Defined.

(** ** One-shot timers *)

Lemma fired_app w l1 l2 : fired w (l1 ++ l2) = (fired w l1 + fired w l2)%nat.
Proof.
  induction l1 as [|e l1 IH]; [done|]. simpl.
  destruct e; try done. rewrite IH. lia.
Qed.

Lemma fired_calm w d : forallb (calm w) d = true -> fired w d = O.
Proof.
  induction d as [|e d IH]; [done|]. simpl. intros H.
  apply andb_true_iff in H as [He Hd]. rewrite (IH Hd).
  destruct e; try done. simpl in He. apply bool_decide_eq_true in He.
  by destruct (decide (w0 = w)).
Qed.

Lemma calm_other w e : is_callback e = false -> calm w e = true.
Proof. by destruct e. Qed.

Lemma calm_callback w s (h x d : Z) :
  gone w s -> is_Some (heap s !! x) -> calm w (EvCallback h x d) = true.
Proof.
  intros (_ & Hw & _) [v Hx]. simpl. apply bool_decide_eq_true.
  intros ->. congruence.
Qed.

Lemma gone_step w s s' : gone w s -> step (calm w) s s' -> gone w s'.
Proof. intros Hg [_ G _]. by apply G. Qed.

Lemma step_fired w s s' :
  step (calm w) s s' -> fired w (log s') = fired w (log s).
Proof.
  intros [_ _ (d & -> & Hd & _)]. rewrite fired_app, (fired_calm w d Hd). lia.
Qed.

Lemma fire_consistent code x s (r : unit) s' :
  consistent s -> fire code CTX x s = Done r s' -> consistent s'.
Proof.
  intros C H. unfold fire in H.
  apply bind_done in H as (v & s0 & Hl & H).
  apply load_done in Hl as [Hv ->].
  destruct (decide (handler v <> NULL)).
  2:{ by apply ret_done in H as [_ <-]. }
  unfold invoke in H. destruct (code (handler v)) as [f|]; [|done].
  apply bind_done in H as ([] & s1 & He & H).
  eapply run_script_consistent; [|exact H]. by eapply emit_consistent.
Qed.

Lemma after_fire_consistent x res s r s' :
  consistent s -> after_fire CTX x res s = Done r s' -> consistent s'.
Proof.
  intros C H. unfold after_fire in H.
  destruct (cs_epoll s C) as (u & m & Hu & Hm).
  apply bind_done in H as (v & s0 & Hl & H).
  apply load_done in Hl as [Hv ->].
  destruct (decide (UEV_TIMER_TYPE = type v)).
  2:{ by apply ret_done in H as [_ <-]. }
  apply bind_done in H as (n & s1 & Hr & H).
  apply bind_done in H as (res' & s2 & Hres & H).
  assert (consistent s2) as C2.
  { apply read_timer_done in Hr as (Hc1 & Hf1 & Hh1 & Hb1 & Hk1 & Hl1).
    clear H. destruct (decide (n <> 8)).
    - apply bind_done in Hres as (u1 & sa & Hg & Hres).
      apply get_ctx_done in Hg as (_ & Hu1 & ->).
      apply bind_done in Hres as ([] & sb & Hp & Hres).
      apply ret_done in Hres as [_ <-].
      unfold put_ctx in Hp. apply modify_done in Hp as ->.
      assert (u1 = u) as -> by congruence.
      eapply (consistent_same s _ u _ m); eauto; simpl;
        rewrite ?Hf1, ?Hh1, ?Hb1; try done; try lia; try apply fds_grow_refl.
    - apply ret_done in Hres as [_ <-].
      eapply (consistent_same s s1 u u m); eauto;
        rewrite ?Hf1, ?Hh1, ?Hb1; try done; try lia; try apply fds_grow_refl.
      congruence. }
  apply bind_done in H as (v' & s3 & Hl & H).
  apply load_done in Hl as [Hv' ->].
  apply bind_done in H as ([] & s4 & Hd & H).
  apply ret_done in H as [_ <-].
  destruct (decide (period v' = 0)).
  - apply bind_done in Hd as (rd & s5 & Hd & Hret).
    apply ret_done in Hret as [_ <-]. by eapply uev_timer_delete_consistent.
  - by apply ret_done in Hd as [_ <-].
Qed.

(** The invariant holds at every turn of a run. *)
Lemma dispatch_from_consistent code todo : forall i res s r s',
  consistent s -> dispatch_from code todo CTX i res s = Done r s' ->
  consistent s'.
Proof.
  induction todo as [|todo IH]; intros i res s r s' C H; simpl in H.
  - by apply ret_done in H as [_ <-].
  - apply bind_done in H as (r1 & s1 & Hd & H).
    eapply IH; [|exact H]. unfold dispatch in Hd.
    apply bind_done in Hd as (u & s0 & Hg & Hd).
    apply get_ctx_done in Hg as (_ & Hu & ->).
    destruct (events u !! i) as [e|]; [|done].
    apply bind_done in Hd as ([] & sm & Hf & Ha).
    eapply after_fire_consistent; [|exact Ha]. by eapply fire_consistent.
Qed.

Lemma wait_events_consistent N fuel : forall res s r s',
  consistent s -> wait_events N fuel CTX res s = Done r s' -> consistent s'.
Proof.
  induction fuel as [|fuel IH]; intros res s r s' C H; simpl in H; [done|].
  destruct (cs_epoll s C) as (u & m & Hu & Hm).
  apply bind_done in H as (u0 & s0 & Hg & H).
  apply get_ctx_done in Hg as (_ & Hu0 & ->).
  assert (u0 = u) as -> by congruence.
  apply bind_done in H as (rw & s1 & Hw & H).
  apply epoll_wait_done in Hw as (Hc1 & Hf1 & Hh1 & Hb1 & Hl1 & _).
  apply bind_done in H as ([] & s2 & Hp & H).
  unfold put_ctx in Hp. apply modify_done in Hp as ->.
  set (s2 := set_ctx _ s1) in *.
  assert (consistent s2) as C2.
  { eapply (consistent_same s s2 u _ m); eauto; simpl;
      rewrite ?Hf1, ?Hh1, ?Hb1; try done; try lia. apply fds_grow_refl. }
  destruct (fst rw <? 0).
  - apply bind_done in H as (err & s3 & He & H).
    apply gets_done in He as [-> ->].
    destruct (decide (EINTR = errno s2)); [by eapply IH|].
    apply bind_done in H as (u' & s3 & Hg & H).
    apply get_ctx_done in Hg as (_ & Hu' & ->).
    apply bind_done in H as ([] & s4 & Hp & H).
    unfold put_ctx in Hp. apply modify_done in Hp as ->.
    apply ret_done in H as [_ <-].
    destruct (cs_epoll s2 C2) as (u2 & m2 & Hu2 & Hm2).
    assert (u2 = u') as -> by congruence.
    eapply (consistent_same s2 _ u' _ m2); eauto; try done.
    apply fds_grow_refl.
  - by apply ret_done in H as [_ <-].
Qed.

Lemma event_loop_consistent N code fuel : forall res s r s',
  consistent s -> event_loop N code fuel CTX res s = Done r s' ->
  consistent s'.
Proof.
  induction fuel as [|fuel IH]; intros res s r s' C H; simpl in H.
  - apply bind_done in H as (u & s0 & Hg & H).
    apply get_ctx_done in Hg as (_ & Hu & ->).
    destruct (running u); [done|]. by apply ret_done in H as [_ <-].
  - apply bind_done in H as (u & s0 & Hg & H).
    apply get_ctx_done in Hg as (_ & Hu & ->).
    destruct (running u); [|by apply ret_done in H as [_ <-]].
    apply bind_done in H as (rw & s1 & Hw & H).
    apply bind_done in H as (r1 & s2 & Hd & H).
    eapply IH; [|exact H].
    eapply dispatch_from_consistent; [|exact Hd].
    by eapply wait_events_consistent.
Qed.

Lemma arm_pass_consistent ws : forall s (r : unit) s',
  consistent s -> arm_pass CTX ws s = Done r s' -> consistent s'.
Proof.
  induction ws as [|w ws IH]; intros s r s' C H; simpl in H.
  - by apply ret_done in H as [_ <-].
  - apply bind_done in H as (v & s0 & Hl & H).
    apply load_done in Hl as [Hv ->].
    apply bind_done in H as ([] & s1 & Hs & H).
    eapply IH; [|exact H].
    destruct (decide (UEV_TIMER_TYPE = type v)).
    + apply bind_done in Hs as (rs & s2 & Hs & Hr).
      apply ret_done in Hr as [_ <-]. by eapply uev_timer_set_consistent.
    + by apply ret_done in Hs as [_ <-].
Qed.

Lemma uev_run_consistent N code fuel s r s' :
  consistent s -> uev_run N code fuel CTX s = Done r s' -> consistent s'.
Proof.
  intros C H. unfold uev_run in H.
  destruct (decide (CTX = CNULL)); [done|].
  apply bind_done in H as ([] & s1 & Hstart & Hloop).
  eapply event_loop_consistent; [|exact Hloop].
  unfold start_timers in Hstart.
  destruct (cs_epoll s C) as (u & m & Hu & Hm).
  apply bind_done in Hstart as (u0 & s0 & Hg & Hstart).
  apply get_ctx_done in Hg as (_ & Hu0 & ->).
  assert (u0 = u) as -> by congruence.
  apply bind_done in Hstart as ([] & s0 & Hp & Harm).
  unfold put_ctx in Hp. apply modify_done in Hp as ->.
  eapply arm_pass_consistent; [|exact Harm].
  eapply (consistent_same s _ u _ m); eauto; try done. apply fds_grow_refl.
Qed.

(** C3: a one-shot timer fires once.  Take a consistent reactor, a live
    watcher with a callback, and a turn of the dispatch loop on it, split
    in its two halves: the callback is invoked ([fire]) and, when it
    returns, the watcher is a timer whose stored period is zero; then
    comes the housekeeping ([after_fire]).  The two halves are the turn
    [dispatch] makes for any ready event tagged with the watcher.  This
    turn invokes the callback exactly once and deletes the watcher before
    it ends: the watcher is off the list, its block is released, it is
    no longer registered.  Through the rest of the batch and every later
    iteration of the loop it stays off the list and its callback is not
    invoked again. *)
Theorem one_shot_timer_fires_once N code w res s sm r s1 v0 v :
  consistent s ->
  heap s !! w = Some v0 -> handler v0 <> NULL ->
  fire code CTX w s = Done tt sm ->
  heap sm !! w = Some v -> type v = UEV_TIMER_TYPE -> period v = 0 ->
  after_fire CTX w res sm = Done r s1 ->
  (forall u i e, ctx s = Some u -> events u !! i = Some e -> ev_data e = w ->
     dispatch code CTX i res s = Done r s1) /\
  fired w (log s1) = S (fired w (log s)) /\
  gone w s1 /\ ~ registered s1 w /\
  forall todo i res' fuel r' s2,
    (let* r1 := dispatch_from code todo CTX i res' in
     event_loop N code fuel CTX r1) s1 = Done r' s2 ->
    gone w s2 /\ fired w (log s2) = fired w (log s1).
Proof.
  intros C Hv0 Hh Hfire Hv Hty Hp Hafter.
  split.
  { intros u i e Hu He Hw. unfold dispatch.
    assert (get_ctx CTX s = Done u s) as Hg by (unfold get_ctx; by rewrite Hu).
    rewrite (bind_eq _ _ _ _ _ Hg), He, Hw.
    by rewrite (bind_eq _ _ _ _ _ Hfire). }
  assert (consistent sm) as Cm by (by eapply fire_consistent).
  assert (consistent s1) as C1 by (by eapply after_fire_consistent).
  pose proof (cs_brk sm Cm w ltac:(eauto)) as Hw.
  (* the callback ran once *)
  assert (fired w (log sm) = S (fired w (log s))) as Honce.
  { clear Hafter. unfold fire in Hfire.
    apply bind_done in Hfire as (v1 & s0 & Hl & Hfire).
    apply load_done in Hl as [Hv1 ->].
    assert (v1 = v0) as -> by congruence.
    destruct (decide (handler v0 <> NULL)); [|done].
    unfold invoke in Hfire. destruct (code (handler v0)) as [f|]; [|done].
    apply bind_done in Hfire as ([] & sa & He & Hfire).
    unfold emit in He. apply modify_done in He as ->.
    apply run_script_step in Hfire.
    apply (step_weaken _ (calm w)) in Hfire; [|by intros []].
    rewrite (step_fired _ _ _ Hfire). simpl.
    rewrite fired_app. simpl. destruct (decide (w = w)); [lia|done]. }
  (* the housekeeping deletes it *)
  destruct (after_fire_timer w res sm r s1 v Hafter) as (n & _ & _ & Hdrop);
    [unfold NULL; lia|done|done|].
  destruct (Hdrop Hp) as (Hheap & Hlist & _).
  destruct (after_fire_step (calm w) (calm_other w) CTX w res sm r s1 Hafter)
    as [Sa _].
  assert (gone w s1) as Hgone.
  { split; [|split].
    - pose proof (st_brk _ _ _ Sa). lia.
    - by rewrite Hheap, lookup_delete_eq.
    - rewrite Hlist. intros Hin. apply list_elem_of_filter in Hin as [Hne _].
      by apply Hne. }
  split; [by rewrite (step_fired _ _ _ Sa)|]. split; [done|]. split.
  { intros Hreg. apply (consistent_lockstep s1 C1) in Hreg.
    by destruct Hgone as (_ & _ & Hn). }
  intros todo i res' fuel r' s2 H.
  apply bind_done in H as (r1 & sd & Hd & Hl).
  destruct (dispatch_from_step code (calm w) (gone w) (calm_other w)
              (calm_callback w) (gone_step w) todo CTX i res' s1 r1 sd Hd Hgone)
    as [Sd _].
  pose proof (gone_step w _ _ Hgone Sd) as Hgd.
  destruct (event_loop_step N code (calm w) (gone w) (calm_other w)
              (calm_callback w) (gone_step w) fuel CTX r1 sd r' s2 Hl Hgd)
    as (Sl & _).
  split; [by eapply gone_step|].
  by rewrite (step_fired _ _ _ Sl), (step_fired _ _ _ Sd).
Qed.

Lemma consistent_mixed run answers : consistent (mixed run answers).
Proof.
  set (s0 := after (run_calls [CIoCreate CTX 100 0 5 UEV_DIR_INBOUND;
                               CTimerCreate CTX 100 0 50 0])
               (boot [Alloc true; CtlAdd 0; NewFd 4; Alloc true; CtlAdd 0])).
  assert (consistent s0) as C0.
  { apply (run_script_consistent
             (seq_script [CIoCreate CTX 100 0 5 UEV_DIR_INBOUND;
                          CTimerCreate CTX 100 0 50 0])
             (boot [Alloc true; CtlAdd 0; NewFd 4; Alloc true; CtlAdd 0])
             tt s0).
    - apply consistent_fresh, fresh_context_boot.
    - vm_compute. reflexivity. }
  assert (fds (mixed run answers) = fds s0) as Hf by (vm_compute; reflexivity).
  apply (consistent_same s0 (mixed run answers) (Uev 3 false [2; 1] [])
           (Uev 3 run [2; 1] [])
           {[ 5 := EpollEvent EPOLLIN 1; 4 := EpollEvent EPOLLIN 2 ]});
    try done; try (vm_compute; reflexivity).
  rewrite Hf. apply fds_grow_refl.
Qed.

Lemma consistent_timer_ready answers : consistent (timer_ready answers).
Proof.
  pose proof (consistent_mixed true answers) as C.
  apply (consistent_same (mixed true answers) (timer_ready answers)
           (Uev 3 true [2; 1] []) (Uev 3 true [2; 1] [EpollEvent EPOLLIN 2])
           {[ 5 := EpollEvent EPOLLIN 1; 4 := EpollEvent EPOLLIN 2 ]});
    try done; try (vm_compute; reflexivity).
  apply fds_grow_refl.
Qed.

(** The one-shot timer of [mixed] fires; its callback asks the loop to
    stop and leaves the timer alone. *)
Lemma one_shot_timer_fires_once_witness :
  let s := timer_ready [ReadRet 8] in
  let sm := after (fire stopping CTX 2) s in
  let s1 := after (after_fire CTX 2 0) sm in
  (forall u i e, ctx s = Some u -> events u !! i = Some e -> ev_data e = 2 ->
     dispatch stopping CTX i 0 s = Done 0 s1) /\
  fired 2 (log s1) = S (fired 2 (log s)) /\
  gone 2 s1 /\ ~ registered s1 2 /\
  forall todo i res' fuel r' s2,
    (let* r1 := dispatch_from stopping todo CTX i res' in
     event_loop 10 stopping fuel CTX r1) s1 = Done r' s2 ->
    gone 2 s2 /\ fired 2 (log s2) = fired 2 (log s1).
Proof.
  intros s sm s1.
  apply (one_shot_timer_fires_once 10 stopping 2 0 s sm 0 s1
           (Watcher 4 UEV_DIR_INBOUND UEV_TIMER_TYPE 100 0 50 0)
           (Watcher 4 UEV_DIR_INBOUND UEV_TIMER_TYPE 100 0 50 0)).
  - apply consistent_timer_ready.
  - vm_compute. reflexivity.
  - unfold NULL. simpl. lia.
  - vm_compute. reflexivity.
  - vm_compute. reflexivity.
  - reflexivity.
  - reflexivity.
  - vm_compute. reflexivity.
Defined.

(** ** Return status of the loop *)

Lemma quiet_silent d :
  forallb quiet d = true -> failed d = false /\ exited d = false.
Proof.
  induction d as [|e d IH]; [done|]. simpl. intros H.
  apply andb_true_iff in H as [He Hd]. destruct (IH Hd) as [Hf Hx].
  unfold failed, exited in *. simpl. rewrite Hf, Hx. by destruct e.
Qed.

Lemma arm_pass_step ws : forall c s (r : unit) s',
  arm_pass c ws s = Done r s' -> step quiet s s'.
Proof.
  induction ws as [|w ws IH]; intros c s r s' H; simpl in H.
  - apply ret_done in H as [_ <-]. apply step_refl.
  - apply bind_done in H as (v & s0 & Hl & H).
    apply load_done in Hl as [Hv ->].
    apply bind_done in H as ([] & s1 & Hs & H).
    eapply step_trans; [|by eapply IH].
    destruct (decide (UEV_TIMER_TYPE = type v)).
    + apply bind_done in Hs as (rs & s2 & Hs & Hr).
      apply ret_done in Hr as [_ <-]. by eapply uev_timer_set_step.
    + apply ret_done in Hs as [_ <-]. apply step_refl.
Qed.

Lemma uev_eta (u : uev_t) :
  Uev (efd u) (running u) (watchers u) (events u) = u.
Proof. by destruct u. Qed.

Lemma epoll_wait_error ep N s m e rest :
  fds s !! ep = Some (FEpoll m) -> env s = WaitErr e :: rest -> e <> 0 ->
  epoll_wait ep N s =
  Done (-1, []) (set_log (log s ++ [EvWait (-1) e])
                   (set_errno e (set_env rest s))).
Proof.
  intros Hm He Hne.
  unfold epoll_wait, bind, gets, ask, modify, emit, ret. simpl.
  rewrite Hm, He. simpl. destruct (decide (e = 0)); [done|]. reflexivity.
Qed.

Lemma wait_events_signal N fuel res s u m rest :
  ctx s = Some u -> fds s !! efd u = Some (FEpoll m) ->
  env s = WaitErr EINTR :: rest ->
  wait_events N (S fuel) CTX res s =
  wait_events N fuel CTX res
    (set_log (log s ++ [EvWait (-1) EINTR]) (set_errno EINTR (set_env rest s))).
Proof.
  intros Hu Hm He. simpl.
  assert (get_ctx CTX s = Done u s) as Hg by (unfold get_ctx; by rewrite Hu).
  rewrite (bind_eq _ _ _ _ _ Hg).
  rewrite (bind_eq _ _ _ _ _ (epoll_wait_error _ N s m EINTR rest Hm He
                                ltac:(done))).
  unfold put_ctx, bind, modify, gets. simpl.
  destruct (decide (EINTR = EINTR)); [|done].
  rewrite uev_eta. unfold set_ctx, set_log, set_errno, set_env. simpl.
  by rewrite <- Hu.
Qed.

Lemma event_loop_wait_failure N code fuel res s u m e rest :
  ctx s = Some u -> running u = true ->
  fds s !! efd u = Some (FEpoll m) ->
  env s = WaitErr e :: rest -> e <> 0 -> e <> EINTR ->
  event_loop N code (S (S fuel)) CTX res s =
  Done (-1)
    (set_ctx (Some (Uev (efd u) false (watchers u) (events u)))
       (set_log (log s ++ [EvWait (-1) e]) (set_errno e (set_env rest s)))).
Proof.
  intros Hu Hrun Hm He Hne Hni.
  assert (get_ctx CTX s = Done u s) as Hg by (unfold get_ctx; by rewrite Hu).
  change (event_loop N code (S (S fuel)) CTX res s)
    with ((let* u := get_ctx CTX in
           if running u then
             let* r := wait_events N (S fuel) CTX res in
             let* result' := dispatch_from code (Z.to_nat (fst r)) CTX 0 (snd r) in
             event_loop N code (S fuel) CTX result'
           else ret res) s).
  rewrite (bind_eq _ _ _ _ _ Hg), Hrun.
  assert (wait_events N (S fuel) CTX res s =
          Done (-1, -1)
            (set_ctx (Some (Uev (efd u) false (watchers u) (events u)))
               (set_log (log s ++ [EvWait (-1) e])
                  (set_errno e (set_env rest s))))) as Hw.
  { simpl. rewrite (bind_eq _ _ _ _ _ Hg).
    rewrite (bind_eq _ _ _ _ _ (epoll_wait_error _ N s m e rest Hm He Hne)).
    unfold put_ctx, bind, modify, gets, get_ctx, ret. simpl.
    destruct (decide (EINTR = e)); [congruence|]. reflexivity. }
  rewrite (bind_eq _ _ _ _ _ Hw). simpl.
  unfold bind, ret, get_ctx. simpl. reflexivity.
Qed.

Lemma uev_run_status_ctx N code fuel s r s' :
  uev_run N code fuel CTX s = Done r s' ->
  exists d,
    log s' = log s ++ d /\
    (r = 0 <-> exited d = true /\ failed d = false) /\
    (r <> 0 -> r = -1 /\ failed d = true) /\
    running_of s' = Some false.
Proof.
  intros H. unfold uev_run in H.
  destruct (decide (CTX = CNULL)); [done|].
  apply bind_done in H as ([] & s1 & Hstart & Hloop).
  (* the prologue *)
  unfold start_timers in Hstart.
  apply bind_done in Hstart as (u & s0 & Hg & Hstart).
  apply get_ctx_done in Hg as (_ & Hu & ->).
  apply bind_done in Hstart as ([] & s0 & Hp & Harm).
  unfold put_ctx in Hp. apply modify_done in Hp as ->.
  apply arm_pass_step in Harm as [_ _ (d1 & L1 & Q1 & R1)].
  destruct (quiet_silent d1 Q1) as [F1 X1].
  assert (running_of s1 = Some true) as Hrun1.
  { destruct R1 as [R1|R1]; [|by rewrite X1, F1 in R1].
    rewrite R1. unfold running_of. done. }
  simpl in L1.
  (* the loop *)
  destruct (event_loop_step N code (fun _ => true) (fun _ => True)
              (fun _ _ => eq_refl) (fun _ _ _ _ _ _ => eq_refl)
              (fun _ _ _ _ => I) fuel CTX 0 s1 r s' Hloop I)
    as ([_ _ (d2 & L2 & _ & R2)] & (d2' & L2' & Hr) & Hstop).
  assert (d2' = d2) as ->.
  { rewrite L2 in L2'. by apply app_inv_head in L2'. }
  assert (exited d2 || failed d2 = true) as Hwhy.
  { destruct R2 as [R2|R2]; [congruence|done]. }
  exists (d1 ++ d2). rewrite L2, L1, app_assoc.
  rewrite exited_app, failed_app, X1, F1. simpl.
  split; [done|]. split; [|split; [|done]].
  - destruct (failed d2); simpl in *; subst r.
    + split; [done|]. by intros [_ ?].
    + rewrite orb_false_r in Hwhy. done.
  - destruct (failed d2); subst r; done.
Qed.

(** C7: the status [uev_run] returns.  On the null pointer it returns -1
    at once, with errno set to EINVAL and nothing else touched.  A wait
    that a signal interrupts is retried: the loop goes round again with
    [result] and the running flag as they were.  Any other failure of the
    wait yields -1 and lowers the running flag, and the loop ends there
    without dispatching.  Whenever [uev_run] returns on a Context, the
    running flag is down and the status is 0 or -1: it is 0 exactly when
    an exit request was made during the run and no wait failure and no
    short timer read was recorded, and -1 otherwise, in which case such a
    failure was recorded. *)
Theorem uev_run_status N code fuel s :
  uev_run N code fuel CNULL s = Done (-1) (set_errno EINVAL s) /\
  (forall res u m rest,
     ctx s = Some u -> fds s !! efd u = Some (FEpoll m) ->
     env s = WaitErr EINTR :: rest ->
     wait_events N (S fuel) CTX res s =
     wait_events N fuel CTX res
       (set_log (log s ++ [EvWait (-1) EINTR])
          (set_errno EINTR (set_env rest s)))) /\
  (forall res u m e rest,
     ctx s = Some u -> running u = true ->
     fds s !! efd u = Some (FEpoll m) ->
     env s = WaitErr e :: rest -> e <> 0 -> e <> EINTR ->
     event_loop N code (S (S fuel)) CTX res s =
     Done (-1)
       (set_ctx (Some (Uev (efd u) false (watchers u) (events u)))
          (set_log (log s ++ [EvWait (-1) e])
             (set_errno e (set_env rest s))))) /\
  (forall r s',
     uev_run N code fuel CTX s = Done r s' ->
     exists d,
       log s' = log s ++ d /\
       (r = 0 <-> exited d = true /\ failed d = false) /\
       (r <> 0 -> r = -1 /\ failed d = true) /\
       running_of s' = Some false).
Proof.
  split; [reflexivity|]. split; [|split].
  - intros res u m rest. apply wait_events_signal.
  - intros res u m e rest. apply event_loop_wait_failure.
  - intros r s'. apply uev_run_status_ctx.
Qed.

(** A run of the reactor of [mixed]: the first wait is interrupted by a
    signal, the second reports the timer, whose callback asks the loop
    to stop; the run returns 0. *)
Lemma uev_run_status_witness :
  let s := mixed false [WaitErr EINTR; Ready 50000000 [4]; ReadRet 8] in
  let s' := after (uev_run 10 stopping 5 CTX) s in
  exists d,
    log s' = log s ++ d /\
    (0 = 0 <-> exited d = true /\ failed d = false) /\
    (0 <> 0 -> 0 = -1 /\ failed d = true) /\
    running_of s' = Some false.
Proof.
  intros s s'.
  apply (proj2 (proj2 (proj2 (uev_run_status 10 stopping 5 s)))).
  vm_compute. reflexivity.
Defined.

(** * Further properties of libuev.c *)

(** ** Milliseconds to timespec *)

(** X1: [msec2tspec] is exact to the nanosecond for every argument, the
    nanosecond field never leaves the range of a 32-bit int (the
    multiplication by a million is done in int arithmetic), and the result is
    a timespec the kernel accepts exactly when the argument is not negative.
    The zero timespec, which disarms a timerfd, is the image of zero only. *)
Theorem msec2tspec_exact (msec : Z) :
  tv_sec (msec2tspec msec) * 1000000000 + tv_nsec (msec2tspec msec)
    = msec * 1000000 /\
  -999000000 <= tv_nsec (msec2tspec msec) <= 999000000 /\
  (valid_timespec (msec2tspec msec) = true <-> 0 <= msec) /\
  (msec2tspec msec = Timespec 0 0 <-> msec = 0).
Proof.
  unfold msec2tspec, valid_timespec. simpl.
  pose proof (Z.quot_rem' msec 1000) as E.
  assert (B : (0 <= msec -> 0 <= Z.rem msec 1000 < 1000 /\ 0 <= Z.quot msec 1000) /\
              (msec <= 0 -> -1000 < Z.rem msec 1000 <= 0 /\ Z.quot msec 1000 <= 0)).
  { split; intros H.
    - pose proof (Z.rem_bound_pos_pos msec 1000 ltac:(lia) H). split; [done|].
      apply Z.quot_pos; lia.
    - pose proof (Z.rem_bound_pos_neg msec 1000 ltac:(lia) H). split; [done|].
      lia. }
  destruct B as [Bp Bn].
  split; [lia|]. split; [lia|]. split.
  - rewrite !andb_true_iff, !Z.leb_le, Z.ltb_lt. lia.
  - split.
    + intros [= Hq Hr]. lia.
    + intros ->. reflexivity.
Qed.

(** ** Creating and destroying a Context *)

Lemma epoll_create_done s r s' :
  epoll_create s = Done r s' ->
  ctx s' = ctx s /\ heap s' = heap s /\ brk s' = brk s /\ clock s' = clock s /\
  log s' = log s /\
  exists x rest, env s = NewFd x :: rest /\ env s' = rest /\
  ((0 <= r /\ x = r /\ fds s !! r = None /\ errno s' = errno s /\
    fds s' = <[r := FEpoll ∅]> (fds s)) \/
   (r = -1 /\ x < 0 /\ fds s' = fds s)).
Proof.
  unfold epoll_create. intros H. exec; try done; fields; repeat split; auto.
  - eexists _, _. repeat split; eauto. right. repeat split; auto. lia.
  - eexists _, _. repeat split; eauto. left. repeat split; auto. lia.
Qed.

Lemma uev_ctx_create_done N s c s' :
  uev_ctx_create N s = Done c s' ->
  heap s' = heap s /\ brk s' = brk s /\ clock s' = clock s /\
  ((c = CNULL /\ fds s' = fds s /\ ctx s' = ctx s /\ log s' = log s /\
    exists x rest, env s = NewFd x :: rest /\ x < 0) \/
   (c = CNULL /\ ctx s' = ctx s /\
    exists f rest, 0 <= f /\ fds s !! f = None /\ env s = NewFd f :: rest /\
      fds s' = forget f <$> fds s /\ log s' = log s ++ [EvClose f]) \/
   (c = CTX /\
    exists f, 0 <= f /\ fds s !! f = None /\ ctx s = None /\
      env s = NewFd f :: Alloc true :: Alloc true :: env s' /\
      fds s' = <[f := FEpoll ∅]> (fds s) /\
      ctx s' = Some (Uev f false [] (replicate N (EpollEvent 0 0))) /\
      log s' = log s /\ errno s' = errno s)).
Proof.
  unfold uev_ctx_create. intros H.
  apply bind_done in H as (f & s1 & H1 & H).
  apply epoll_create_done in H1
    as (Hc1 & Hh1 & Hb1 & Hk1 & Hl1 & x & rest & He & He1 &
        [(Hf0 & -> & Hfn & Her1 & Hf1)|(-> & Hx & Hf1)]).
  2:{ simpl in H. apply ret_done in H as [<- <-]. split_and!; try done.
      left. split_and!; try done. eauto. }
  destruct (f <? 0) eqn:Ef; [apply Z.ltb_lt in Ef; lia|].
  apply bind_done in H as (c1 & s2 & H2 & H).
  unfold calloc_ctx in H2.
  apply bind_done in H2 as (a & s1' & Ha & H2).
  apply ask_done in Ha as (rest2 & Ha & ->).
  assert (Hcl : forall s3 rc s4,
            fds s3 = fds s1 -> close f s3 = Done rc s4 ->
            ctx s4 = ctx s3 /\ heap s4 = heap s3 /\ brk s4 = brk s3 /\
            clock s4 = clock s3 /\ fds s4 = forget f <$> fds s /\
            log s4 = log s3 ++ [EvClose f]).
  { intros s3 rc s4 E Hcl.
    apply close_done in Hcl
      as (Cc & Ch & Cb & Ck & Ce & Cl & [(_ & _ & Cf)|(_ & Cn & _)]).
    - split_and!; try done. rewrite Cf, E, Hf1. by rewrite delete_insert_id.
    - rewrite E, Hf1, lookup_insert_eq in Cn. done. }
  destruct a as [[|]| | | | |]; try (apply fail_done in H2; done).
  - (* the instance is allocated *)
    simpl in H2. destruct (ctx s1) as [|] eqn:Ec1; [done|].
    injection H2 as <- <-.
    destruct (decide (CTX = CNULL)) as [|_]; [done|].
    apply bind_done in H as (b & s3 & H3 & H).
    unfold calloc_events in H3.
    apply bind_done in H3 as (a & s2' & Ha3 & H3).
    apply ask_done in Ha3 as (rest3 & Ha3 & ->).
    destruct a as [[|]| | | | |]; try (apply fail_done in H3; done).
    + apply ret_done in H3 as [<- <-]. simpl in H.
      unfold get_ctx, put_ctx, modify, bind, ret in H. simpl in H.
      injection H as <- <-. simpl.
      split_and!; try done. right. right. split; [done|].
      exists f. split_and!; try done; try congruence.
      simpl in Ha3. rewrite He, <- He1, Ha. congruence.
    + simpl in H3. unfold bind, modify, ret in H3. injection H3 as <- <-.
      unfold get_ctx, put_ctx, free_ctx, get_ctx, modify, bind in H.
      simpl in H.
      match type of H with
      | match close f ?s3 with _ => _ end = _ =>
          destruct (close f s3) as [rc s4|] eqn:Hc; [|done];
          apply Hcl in Hc; [|done]
      end.
      unfold ret in H. injection H as <- <-.
      destruct Hc as (Cc & Ch & Cb & Ck & Cf & Cl). simpl in *.
      split_and!; try congruence. right. left. split; [done|].
      split; [congruence|]. exists f, rest. split_and!; try done; congruence.
  - (* no memory for the instance *)
    simpl in H2. unfold bind, modify, ret in H2. injection H2 as <- <-.
    destruct (decide (CNULL = CNULL)) as [_|]; [|done].
    apply bind_done in H as (rc & s4 & Hc & H).
    apply ret_done in H as [<- <-].
    apply Hcl in Hc; [|done].
    destruct Hc as (Cc & Ch & Cb & Ck & Cf & Cl). simpl in *.
    split_and!; try congruence. right. left. split; [done|].
    split; [congruence|]. exists f, rest. split_and!; try done; congruence.
Qed.

Lemma filter_shrinks (w : Z) (l : list Z) :
  w ∈ l -> (length (filter (fun x => x <> w) l) < length l)%nat.
Proof.
  induction l as [|a l IH]; intros Hin.
  - by apply elem_of_nil in Hin.
  - destruct (decide (a = w)) as [->|Hne].
    + rewrite filter_head. simpl.
      pose proof (length_filter (fun x => x <> w) l). lia.
    + rewrite filter_cons_True by done. simpl.
      apply elem_of_cons in Hin as [->|Hin]; [done|].
      specialize (IH Hin). lia.
Qed.

(** The while loop of [uev_ctx_delete] empties the list in at most as
    many turns as there are watchers, and closes nothing. *)
Lemma drain_watchers_spec fuel : forall s,
  consistent s -> (length (list_of s) <= fuel)%nat ->
  exists s',
    drain_watchers fuel CTX s = Done tt s' /\ consistent s' /\
    list_of s' = [] /\ open_fds s' = open_fds s /\
    efd <$> ctx s' = efd <$> ctx s /\ fds_grow (fds s) (fds s').
Proof.
  induction fuel as [|fuel IH]; intros s C Hlen.
  - destruct (cs_epoll s C) as (u & m & Hu & Hm).
    rewrite (list_of_eq s u Hu) in Hlen.
    destruct (watchers u) as [|w l] eqn:El; [|simpl in Hlen; lia].
    exists s. split_and!; try done.
    + simpl. unfold bind, get_ctx. by rewrite Hu, El.
    + by rewrite (list_of_eq s u Hu).
    + apply fds_grow_refl.
  - destruct (cs_epoll s C) as (u & m & Hu & Hm).
    pose proof (list_of_eq s u Hu) as Hl.
    destruct (watchers u) as [|w l] eqn:El.
    { exists s. split_and!; try done.
      + simpl. unfold bind, get_ctx. by rewrite Hu, El.
      + apply fds_grow_refl. }
    assert (Hin : w ∈ list_of s) by (rewrite Hl; apply elem_of_cons; auto).
    destruct (proj1 (cs_live s C w) Hin) as [v Hv].
    assert (Hw : w <> NULL).
    { pose proof (cs_brk s C w (ex_intro _ v Hv)). unfold NULL. lia. }
    assert (Hinu : w ∈ watchers u) by (rewrite El; apply elem_of_cons; auto).
    assert (exists s1,
              (if decide (UEV_TIMER_TYPE = type v)
               then uev_timer_delete CTX w else uev_io_delete CTX w) s
              = Done 0 s1 /\ consistent s1 /\
              list_of s1 = filter (fun x => x <> w) (list_of s) /\
              open_fds s1 = open_fds s /\ efd <$> ctx s1 = efd <$> ctx s /\
              fds_grow (fds s) (fds s1)) as (s1 & E & C1 & Hl1 & Ho1 & He1 & Hg1).
    { destruct (decide (UEV_TIMER_TYPE = type v)).
      - destruct (uev_timer_delete_total w s u v Hu Hv Hinu Hw) as (s1 & E).
        exists s1. split; [done|].
        destruct (uev_timer_delete_consistent _ _ _ _ _ C E)
          as (C1 & [(? & _)|(_ & v1 & _ & _ & Hl1 & _ & Hg1 & Ho1)]); [lia|].
        split_and!; try done.
        unfold uev_timer_delete in E.
        destruct (decide (CTX = CNULL \/ w = NULL)) as [[?|?]|_]; [done|done|].
        apply bind_done in E as (r1 & s0 & Hs & Hd).
        apply uev_timer_set_done in Hs
          as [(_ & [?|?] & _)|(_ & _ & _ & _ & _ & _ & Hc0 & _)]; [done|done|].
        apply delete_watcher_done in Hd
          as [(? & _)|(_ & _ & _ & u0 & _ & _ & Hu0 & _ & _ & Hc1 & _)]; [lia|].
        rewrite Hc1, <- Hc0, Hu0. done.
      - unfold uev_io_delete.
        destruct (delete_watcher_total w s u v Hu Hv Hinu Hw) as (s1 & E).
        exists s1. split; [done|].
        destruct (delete_watcher_consistent _ _ _ _ _ C E)
          as (C1 & [(? & _)|(_ & v1 & _ & _ & Hl1 & _ & Hg1 & Ho1)]); [lia|].
        split_and!; try done.
        apply delete_watcher_done in E
          as [(? & _)|(_ & _ & _ & u0 & _ & _ & Hu0 & _ & _ & Hc1 & _)]; [lia|].
        rewrite Hc1, Hu0. done. }
    destruct (IH s1 C1) as (s' & E' & C' & Hl' & Ho' & He' & Hg').
    { rewrite Hl1. pose proof (filter_shrinks w (list_of s) Hin). lia. }
    exists s'. split_and!; try done; try congruence.
    + simpl. unfold bind at 1. unfold get_ctx at 1. rewrite Hu, El.
      rewrite (bind_eq (load w) _ s v s) by (unfold load; by rewrite Hv).
      rewrite (bind_eq _ _ s 0 s1 E). done.
    + by eapply fds_grow_trans.
Qed.

(** X2: tearing a Context down always succeeds on a consistent reactor: the
    loop of [uev_ctx_delete] needs no more turns than there are watchers,
    every watcher block is released and the Context with it, and of all open
    descriptors exactly one is closed, the epoll instance. Every other
    descriptor is still open afterwards: those the application handed to I/O
    watchers, and also the timerfd of every timer watcher the Context held. *)
Theorem uev_ctx_delete_releases_watchers fuel s u :
  consistent s -> ctx s = Some u -> (length (watchers u) <= fuel)%nat ->
  exists s',
    uev_ctx_delete fuel CTX s = Done tt s' /\
    ctx s' = None /\ heap s' = ∅ /\
    open_fds s' = open_fds s ∖ {[efd u]} /\
    last (log s') = Some (EvClose (efd u)) /\
    forall w v, heap s !! w = Some v -> is_Some (fds s' !! fd v).
Proof.
  intros C Hu Hlen.
  destruct (drain_watchers_spec fuel s C) as (s1 & E & C1 & Hl1 & Ho1 & He1 & Hg1).
  { by rewrite (list_of_eq s u Hu). }
  destruct (cs_epoll s1 C1) as (u1 & m1 & Hu1 & Hm1).
  assert (Hefd : efd u1 = efd u).
  { rewrite Hu1, Hu in He1. simpl in He1. congruence. }
  assert (Hheap : heap s1 = ∅).
  { apply map_empty. intros w.
    destruct (heap s1 !! w) as [v|] eqn:Hv; [|done].
    assert (w ∈ list_of s1) as Hin by (apply (cs_live s1 C1); eauto).
    rewrite Hl1 in Hin. by apply elem_of_nil in Hin. }
  destruct (close (efd u1) s1) as [rc s2|] eqn:Hcl.
  2:{ unfold close, bind, emit, modify, ret in Hcl. rewrite Hm1 in Hcl. done. }
  pose proof Hcl as Hcl'.
  apply close_done in Hcl'
    as (Cc & Ch & Cb & Ck & Ce & Cl & [(_ & _ & Cf)|(_ & Cn & _)]);
    [|congruence].
  eexists. split.
  { unfold uev_ctx_delete. rewrite (bind_eq _ _ s tt s1 E).
    rewrite (bind_eq (get_ctx CTX) _ s1 u1 s1) by (unfold get_ctx; by rewrite Hu1).
    rewrite (bind_eq _ _ s1 rc s2 Hcl). reflexivity. }
  simpl. split; [done|]. split; [congruence|].
  assert (Hopen : open_fds s2 = open_fds s ∖ {[efd u]}).
  { unfold open_fds in *. rewrite Cf, dom_fmap_L, dom_delete_L, Ho1, Hefd. done. }
  split; [done|]. split.
  { rewrite Cl, last_snoc, Hefd. done. }
  intros w v Hv.
  destruct (cs_reg s C w v Hv) as (e & He & _).
  assert (fd v <> efd u) as Hne.
  { intros Heq. rewrite Heq in He. rewrite (cs_self s C u Hu) in He. done. }
  assert (fd v ∈ open_fds s ∖ {[efd u]}) as Hin.
  { apply elem_of_difference. split.
    - apply elem_of_dom. apply (cs_open s C). eauto.
    - by apply not_elem_of_singleton. }
  rewrite <- Hopen in Hin. unfold open_fds in Hin.
  by apply elem_of_dom in Hin.
Qed.

(** The reactor of [mixed] is torn down in two turns. *)
Lemma uev_ctx_delete_releases_watchers_witness :
  let s := mixed true [] in
  exists s',
    uev_ctx_delete 2 CTX s = Done tt s' /\
    ctx s' = None /\ heap s' = ∅ /\
    open_fds s' = open_fds s ∖ {[3]} /\
    last (log s') = Some (EvClose 3) /\
    forall w v, heap s !! w = Some v -> is_Some (fds s' !! fd v).
Proof.
  intros s.
  apply (uev_ctx_delete_releases_watchers 2 s (Uev 3 true [2; 1] [])).
  - apply consistent_mixed.
  - reflexivity.
  - simpl. lia.
Defined.

(** X3: [uev_ctx_create] does not leak. Whenever it returns NULL, the set of
    open descriptors, the heap and the (absent) reactor instance are as before
    the call; if the kernel had handed out an epoll descriptor, that
    descriptor is closed again, and closing it is the last thing the function
    does. *)
Theorem uev_ctx_create_failure_releases N s s' :
  uev_ctx_create N s = Done CNULL s' ->
  open_fds s' = open_fds s /\ ctx s' = ctx s /\ heap s' = heap s /\
  match env s with
  | NewFd f :: _ =>
      0 <= f -> fds s' !! f = None /\ last (log s') = Some (EvClose f)
  | _ => True
  end.
Proof.
  intros H. apply uev_ctx_create_done in H
    as (Hh & _ & _ & [(_ & Hf & Hc & _ & x & rest & He & Hx)|
                      [(_ & Hc & f & rest & Hf0 & Hfn & He & Hf & Hl)|(? & _)]]);
    [| |done].
  - unfold open_fds. rewrite Hf, He. split_and!; try done. lia.
  - unfold open_fds. rewrite Hf, He, Hl, dom_fmap_L. split_and!; try done.
    intros _. rewrite lookup_fmap, Hfn, last_snoc. done.
Qed.

(** The buffer for the events cannot be allocated. *)
Lemma uev_ctx_create_failure_releases_witness :
  let s := bare [NewFd 3; Alloc true; Alloc false] in
  let s' := after (uev_ctx_create 8) s in
  open_fds s' = open_fds s /\ ctx s' = ctx s /\ heap s' = heap s /\
  (0 <= 3 -> fds s' !! 3 = None /\ last (log s') = Some (EvClose 3)).
Proof.
  intros s s'.
  apply (uev_ctx_create_failure_releases 8 s s').
  vm_compute. reflexivity.
Defined.

(** X4: what a successful [uev_ctx_create] returns: a Context around a new
    epoll instance with an empty interest list, with the running flag down, no
    watcher, and a zeroed event buffer of UEV_MAX_EVENTS entries. No system
    call other than epoll_create was made and errno is untouched. In a process
    without watcher blocks this is a fresh Context, which satisfies the
    representation invariant. *)
Theorem uev_ctx_create_gives_fresh_context N s c s' :
  uev_ctx_create N s = Done c s' -> c <> CNULL ->
  exists f,
    0 <= f /\ fds s !! f = None /\
    fds s' = <[f := FEpoll ∅]> (fds s) /\
    ctx s' = Some (Uev f false [] (replicate N (EpollEvent 0 0))) /\
    heap s' = heap s /\ log s' = log s /\ errno s' = errno s /\
    (heap s = ∅ -> 0 < brk s ->
     fresh_context s' /\ consistent s' /\ lockstep s').
Proof.
  intros H Hc. apply uev_ctx_create_done in H
    as (Hh & Hb & _ & [(? & _)|[(? & _)|
         (_ & f & Hf0 & Hfn & Hn & He & Hf & Hx & Hl & Her)]]); [done|done|].
  exists f. split_and!; try done.
  intros Hempty Hpos.
  assert (fresh_context s') as F.
  { exists f, false, (replicate N (EpollEvent 0 0)).
    split_and!; [done| |congruence|lia].
    rewrite Hf. apply lookup_insert_eq. }
  split; [done|]. split; [by apply consistent_fresh|].
  by apply consistent_lockstep, consistent_fresh.
Qed.

Lemma uev_ctx_create_gives_fresh_context_witness :
  let s := bare [NewFd 3; Alloc true; Alloc true] in
  let s' := after (uev_ctx_create 8) s in
  exists f,
    0 <= f /\ fds s !! f = None /\
    fds s' = <[f := FEpoll ∅]> (fds s) /\
    ctx s' = Some (Uev f false [] (replicate 8 (EpollEvent 0 0))) /\
    heap s' = heap s /\ log s' = log s /\ errno s' = errno s /\
    (heap s = ∅ -> 0 < brk s ->
     fresh_context s' /\ consistent s' /\ lockstep s').
Proof.
  intros s s'.
  apply (uev_ctx_create_gives_fresh_context 8 s CTX s').
  - vm_compute. reflexivity.
  - done.
Defined.

(** X5: creating a Context and deleting it again gives back what was taken:
    the same descriptors are open as before, no reactor instance is allocated,
    heap and allocator are untouched, and the one system call on record is the
    close of the epoll descriptor. With no watcher on the list the loop of
    [uev_ctx_delete] makes no turn at all. *)
Theorem uev_ctx_create_delete_round_trip N fuel s s1 :
  uev_ctx_create N s = Done CTX s1 ->
  exists f s2,
    uev_ctx_delete fuel CTX s1 = Done tt s2 /\
    fds s1 !! f = Some (FEpoll ∅) /\ fds s !! f = None /\
    open_fds s2 = open_fds s /\ ctx s2 = ctx s /\ heap s2 = heap s /\
    brk s2 = brk s /\ log s2 = log s ++ [EvClose f].
Proof.
  intros H. apply uev_ctx_create_done in H
    as (Hh & Hb & _ & [(? & _)|[(? & _)|
         (_ & f & Hf0 & Hfn & Hn & He & Hf & Hx & Hl & Her)]]); [done|done|].
  assert (Hlk : fds s1 !! f = Some (FEpoll ∅))
    by (rewrite Hf; apply lookup_insert_eq).
  exists f. eexists. split.
  { unfold uev_ctx_delete.
    assert (drain_watchers fuel CTX s1 = Done tt s1) as E.
    { destruct fuel; simpl; unfold bind, get_ctx; by rewrite Hx. }
    rewrite (bind_eq _ _ s1 tt s1 E).
    unfold bind at 1. unfold get_ctx. rewrite Hx. simpl.
    unfold close, bind, emit, modify, ret. rewrite Hlk. reflexivity. }
  simpl. split_and!; try done; try congruence.
  unfold open_fds. simpl. rewrite dom_fmap_L, Hf, delete_insert_id by done.
  done.
Qed.

Lemma uev_ctx_create_delete_round_trip_witness :
  let s := bare [NewFd 3; Alloc true; Alloc true] in
  let s1 := after (uev_ctx_create 8) s in
  exists f s2,
    uev_ctx_delete 0 CTX s1 = Done tt s2 /\
    fds s1 !! f = Some (FEpoll ∅) /\ fds s !! f = None /\
    open_fds s2 = open_fds s /\ ctx s2 = ctx s /\ heap s2 = heap s /\
    brk s2 = brk s /\ log s2 = log s ++ [EvClose f].
Proof.
  intros s s1.
  apply (uev_ctx_create_delete_round_trip 8 0 s s1).
  vm_compute. reflexivity.
Defined.

(** ** Watchers *)

(** X6: deleting a live watcher cannot fail. The result of the EPOLL_CTL_DEL
    call is not looked at: whatever the kernel answers, the watcher is taken
    off the list, its block is released and 0 is returned. In particular, when
    the application has already closed the watched descriptor the kernel call
    fails with EBADF, which is all that is left of it in errno. The watcher
    pointer is dangling afterwards: deleting it a second time, or arming it,
    dereferences freed memory. *)
Theorem delete_watcher_ignores_kernel_verdict w s u v m :
  ctx s = Some u -> fds s !! efd u = Some (FEpoll m) ->
  heap s !! w = Some v -> w ∈ watchers u -> w <> NULL ->
  exists rc s',
    delete_watcher CTX w s = Done 0 s' /\
    log s' = log s ++ [EvEpollCtl EPOLL_CTL_DEL (fd v) rc] /\
    heap s' = delete w (heap s) /\
    list_of s' = filter (fun x => x <> w) (watchers u) /\
    (fds s !! fd v = None ->
     rc = -1 /\ errno s' = EBADF /\ fds s' = fds s) /\
    delete_watcher CTX w s' = Fault Undefined /\
    (forall t p, uev_timer_set CTX w t p s' = Fault Undefined).
Proof.
  intros Hu Hm Hv Hin Hw.
  destruct (delete_watcher_total w s u v Hu Hv Hin Hw) as (s' & E).
  pose proof E as E'.
  apply delete_watcher_done in E'
    as [(? & _)|(_ & _ & _ & u1 & v1 & rc & Hu1 & Hv1 & _ & Hc & Hh & _ & _ & _
                 & Hl & Hd)]; [lia|].
  assert (u1 = u) as -> by congruence.
  assert (v1 = v) as -> by congruence.
  exists rc, s'. split_and!; try done.
  - by rewrite (list_of_eq s' _ Hc).
  - intros Hclosed.
    assert (delete_watcher CTX w s =
            Done 0 (World (fds s) (clock s)
                      (Some (Uev (efd u) (running u)
                               (filter (fun x => x <> w) (watchers u))
                               (events u)))
                      (delete w (heap s)) (brk s) EBADF (env s)
                      (log s ++ [EvEpollCtl EPOLL_CTL_DEL (fd v) (-1)])))
      as E2.
    { unfold delete_watcher.
      destruct (decide (CTX = CNULL \/ w = NULL)) as [[?|?]|_]; [done|done|].
      unfold bind at 1. unfold get_ctx at 1. rewrite Hu.
      unfold bind at 1. unfold load at 1. rewrite Hv.
      unfold bind at 1. unfold epoll_ctl, bind, gets. rewrite Hm, Hclosed.
      unfold sys_fail, bind, modify, emit, ret, LIST_REMOVE, bind, get_ctx.
      simpl. rewrite Hu.
      destruct (decide (w ∈ watchers u)) as [_|?]; [|done].
      unfold put_ctx, modify, free, bind, load. simpl. rewrite Hv. done. }
    rewrite E2 in E. injection E as <-. simpl in *.
    apply app_inv_head in Hl. injection Hl as <-. done.
  - unfold delete_watcher.
    destruct (decide (CTX = CNULL \/ w = NULL)) as [[?|?]|_]; [done|done|].
    unfold bind, get_ctx, load. rewrite Hc, Hh, lookup_delete_eq. done.
  - intros t p. unfold uev_timer_set.
    destruct (decide (CTX = CNULL \/ w = NULL)) as [[?|?]|_]; [done|done|].
    unfold bind, load. rewrite Hh, lookup_delete_eq. done.
Qed.

(** The application closed descriptor 5 before deleting its watcher. *)
Lemma delete_watcher_ignores_kernel_verdict_witness :
  let s := orphaned [] in
  let v := Watcher 5 UEV_DIR_INBOUND UEV_FILE_TYPE 100 0 0 0 in
  exists rc s',
    delete_watcher CTX 1 s = Done 0 s' /\
    log s' = log s ++ [EvEpollCtl EPOLL_CTL_DEL (fd v) rc] /\
    heap s' = delete 1 (heap s) /\
    list_of s' = filter (fun x => x <> 1) [1] /\
    (fds s !! fd v = None ->
     rc = -1 /\ errno s' = EBADF /\ fds s' = fds s) /\
    delete_watcher CTX 1 s' = Fault Undefined /\
    (forall t p, uev_timer_set CTX 1 t p s' = Fault Undefined).
Proof.
  intros s v.
  apply (delete_watcher_ignores_kernel_verdict 1 s (Uev 3 false [1] []) v ∅).
  - reflexivity.
  - reflexivity.
  - reflexivity.
  - simpl. apply elem_of_cons. left. reflexivity.
  - unfold NULL. lia.
Defined.

(** X7: a descriptor carries at most one watcher. Asking for a second watcher
    on a descriptor that a live watcher of the Context already uses is turned
    down by the kernel with EEXIST: NULL is returned, the block just allocated
    is released again, and the first watcher, the list and the registrations
    are as before. A descriptor can thus not be watched in both directions. *)
Theorem one_watcher_per_descriptor h d dr s w v rest :
  consistent s -> heap s !! w = Some v -> h <> NULL ->
  env s = Alloc true :: rest ->
  exists s',
    uev_io_create CTX h d (fd v) dr s = Done NULL s' /\
    errno s' = EEXIST /\
    fds s' = fds s /\ heap s' = heap s /\ ctx s' = ctx s /\
    log s' = log s ++ [EvEpollCtl EPOLL_CTL_ADD (fd v) (-1)].
Proof.
  intros C Hv Hh He.
  destruct (cs_epoll s C) as (u & m & Hu & Hm).
  destruct (cs_reg s C w v Hv) as (e & Hreg & _).
  pose proof (cs_open s C (fd v) (ex_intro _ e Hreg)) as [x Hx].
  assert (fd v <> efd u) as Hne.
  { intros Heq. rewrite Heq, (cs_self s C u Hu) in Hreg. done. }
  rewrite (interest_of_eq s u m Hu Hm) in Hreg.
  pose proof (cs_pos s C) as Hpos.
  pose proof (consistent_fresh_block s C) as Hfresh.
  unfold uev_io_create, new_watcher.
  destruct (decide (CTX = CNULL \/ h = NULL)) as [[?|?]|_]; [done|done|].
  destruct (decide (fd v = efd u)); [done|].
  eexists. split.
  { unfold bind at 1. unfold calloc_watcher, bind at 1, ask. rewrite He.
    simpl.
    destruct (decide (0 < brk s /\ heap s !! brk s = None)) as [_|[]]; [|done].
    destruct (decide (brk s = NULL)) as [E|_]; [unfold NULL in E; lia|].
    unfold bind at 1. unfold load at 1. simpl. rewrite lookup_insert_eq.
    unfold bind at 1. unfold store, bind at 1, load at 1. simpl.
    rewrite lookup_insert_eq. unfold modify at 1.
    unfold bind at 1. unfold get_ctx at 1. simpl. rewrite Hu.
    unfold bind at 1. unfold epoll_ctl, bind at 1, bind at 1, gets. simpl.
    rewrite Hm, Hx.
    destruct (decide (fd v = efd u)); [done|].
    destruct (decide (EPOLL_CTL_ADD = EPOLL_CTL_ADD)) as [_|]; [|done].
    rewrite Hreg.
    unfold sys_fail, free, load, emit, bind, modify, ret. simpl.
    rewrite lookup_insert_eq. reflexivity. }
  simpl. split_and!; try done.
  rewrite insert_insert_eq, delete_insert_id by done. done.
Qed.

(** The reactor of [mixed] is asked to watch descriptor 5 for output as
    well. *)
Lemma one_watcher_per_descriptor_witness :
  let s := mixed false [Alloc true] in
  let v := Watcher 5 UEV_DIR_INBOUND UEV_FILE_TYPE 100 0 0 0 in
  exists s',
    uev_io_create CTX 100 0 (fd v) UEV_DIR_OUTBOUND s = Done NULL s' /\
    errno s' = EEXIST /\
    fds s' = fds s /\ heap s' = heap s /\ ctx s' = ctx s /\
    log s' = log s ++ [EvEpollCtl EPOLL_CTL_ADD (fd v) (-1)].
Proof.
  intros s v.
  apply (one_watcher_per_descriptor 100 0 UEV_DIR_OUTBOUND s 1 v []).
  - apply consistent_mixed.
  - reflexivity.
  - unfold NULL. lia.
  - reflexivity.
Defined.

(** X8: argument validation. The functions that create, delete or arm a
    watcher reject a null Context, and a null callback or watcher, with the
    error value and errno EINVAL, and touch nothing else. [uev_timer_create]
    finds out late: by the time [new_watcher] rejects the arguments a timer
    descriptor has been created, which is closed again before NULL is
    returned. [uev_ctx_delete] does not check: on the null pointer it
    dereferences it. *)
Theorem null_arguments_are_rejected s :
  (forall c h d f dr, c = CNULL \/ h = NULL ->
     uev_io_create c h d f dr s = Done NULL (set_errno EINVAL s)) /\
  (forall c w, c = CNULL \/ w = NULL ->
     uev_io_delete c w s = Done (-1) (set_errno EINVAL s) /\
     uev_timer_delete c w s = Done (-1) (set_errno EINVAL s) /\
     forall t p, uev_timer_set c w t p s = Done (-1) (set_errno EINVAL s)) /\
  (forall c h d t p f rest, c = CNULL \/ h = NULL ->
     env s = NewFd f :: rest -> 0 <= f -> fds s !! f = None ->
     uev_timer_create c h d t p s =
     Done NULL (World (forget f <$> fds s) (clock s) (ctx s) (heap s) (brk s)
                  EINVAL rest (log s ++ [EvClose f]))) /\
  (forall fuel, uev_ctx_delete fuel CNULL s = Fault Undefined).
Proof.
  split_and!.
  - intros c h d f dr H. unfold uev_io_create, new_watcher.
    by destruct (decide (c = CNULL \/ h = NULL)).
  - intros c w H. unfold uev_io_delete, delete_watcher, uev_timer_delete,
      uev_timer_set.
    by destruct (decide (c = CNULL \/ w = NULL)).
  - intros c h d t p f rest H He Hf Hn. unfold uev_timer_create.
    unfold bind at 1. unfold timerfd_create, bind at 1, ask. rewrite He.
    destruct (f <? 0) eqn:E; [apply Z.ltb_lt in E; lia|].
    simpl. rewrite Hn, E.
    unfold bind at 1. unfold new_watcher.
    destruct (decide (c = CNULL \/ h = NULL)); [|done].
    unfold bind at 1. unfold modify at 1. unfold ret at 1.
    destruct (decide (NULL = NULL)); [|done].
    unfold close, emit, bind, modify, ret. simpl.
    rewrite lookup_insert_eq. simpl. by rewrite delete_insert_id.
  - intros fuel. unfold uev_ctx_delete, bind. by destruct fuel.
Qed.

(** X9: creating an I/O watcher and deleting it again is a round trip. On a
    consistent reactor, a watcher that [uev_io_create] has just returned can
    always be deleted, and after [uev_io_delete] the descriptor table, with
    the interest list of the epoll instance, the heap and the Context are what
    they were before the create. Only the allocator has moved on: the address
    is not handed out again. *)
Theorem uev_io_create_delete_round_trip h d f dr s w s1 :
  consistent s ->
  uev_io_create CTX h d f dr s = Done w s1 -> w <> NULL ->
  exists s2,
    uev_io_delete CTX w s1 = Done 0 s2 /\
    fds s2 = fds s /\ heap s2 = heap s /\ ctx s2 = ctx s /\
    brk s2 = brk s + 1 /\
    log s2 = log s ++ [EvEpollCtl EPOLL_CTL_ADD f 0;
                       EvEpollCtl EPOLL_CTL_DEL f 0].
Proof.
  intros C H Hw. unfold uev_io_create in H.
  apply new_watcher_done in H
    as (_ & [(? & _)|(-> & _ & Hh & Hb & Hpos & Hfresh & u & m & Hu & Hm & Hmf
                      & Hfo & Hne & Hc1 & Hf1 & Hh1 & Hl1)]); [done|].
  set (W := Watcher f dr UEV_FILE_TYPE h d 0 0) in *.
  assert (brk s ∉ watchers u) as Hnew.
  { rewrite <- (list_of_eq s u Hu). intros Hin.
    apply (cs_live s C) in Hin as [v Hv]. congruence. }
  destruct (delete_watcher_total (brk s) s1 _ W Hc1) as (s2 & E); try done.
  { rewrite Hh1. apply lookup_insert_eq. }
  { simpl. apply elem_of_cons. auto. }
  exists s2. split; [done|].
  apply delete_watcher_done in E
    as [(? & _)|(_ & _ & _ & u1 & v1 & rc & Hu1 & Hv1 & _ & Hc2 & Hh2 & Hb2 & _
                 & _ & Hl2 & Hd)]; [lia|].
  rewrite Hc1 in Hu1. injection Hu1 as <-.
  rewrite Hh1, lookup_insert_eq in Hv1. injection Hv1 as <-.
  simpl in *.
  assert (fds s1 !! efd u =
          Some (FEpoll (<[f := EpollEvent
                               (if decide (dr = UEV_DIR_OUTBOUND)
                                then EPOLLOUT else EPOLLIN) (brk s)]> m)))
    as Hm1 by (rewrite Hf1; apply lookup_insert_eq).
  destruct Hd as [(-> & m1 & Hm1' & Hf2)|(_ & _ & Hno)].
  2:{ exfalso. apply Hno. eexists. split_and!; [exact Hm1| | |done].
      - rewrite lookup_insert_eq. eauto.
      - rewrite Hf1, lookup_insert_ne by done. done. }
  rewrite Hm1 in Hm1'. injection Hm1' as <-.
  split_and!.
  - rewrite Hf2, Hf1, delete_insert_id, insert_insert_eq by done.
    by apply insert_id.
  - rewrite Hh2, Hh1. by apply delete_insert_id.
  - rewrite Hc2, Hu, filter_head, filter_absent by done. by rewrite uev_eta.
  - lia.
  - rewrite Hl2, Hl1, <- app_assoc. done.
Qed.

Lemma uev_io_create_delete_round_trip_witness :
  let s := boot [Alloc true; CtlAdd 0] in
  let s1 := after (uev_io_create CTX 100 0 5 UEV_DIR_INBOUND) s in
  exists s2,
    uev_io_delete CTX 1 s1 = Done 0 s2 /\
    fds s2 = fds s /\ heap s2 = heap s /\ ctx s2 = ctx s /\
    brk s2 = brk s + 1 /\
    log s2 = log s ++ [EvEpollCtl EPOLL_CTL_ADD 5 0;
                       EvEpollCtl EPOLL_CTL_DEL 5 0].
Proof.
  intros s s1.
  apply (uev_io_create_delete_round_trip 100 0 5 UEV_DIR_INBOUND s 1 s1).
  - apply consistent_fresh, fresh_context_boot.
  - vm_compute. reflexivity.
  - unfold NULL. lia.
Defined.

(** ** Timers *)

Lemma msec2tspec_invalid (t : Z) :
  t < 0 -> valid_timespec (msec2tspec t) = false.
Proof.
  intros Ht. unfold valid_timespec, msec2tspec. simpl.
  pose proof (Z.quot_rem' t 1000) as E.
  pose proof (Z.rem_bound_pos_neg t 1000 ltac:(lia) ltac:(lia)) as B.
  destruct (0 <=? Z.quot t 1000) eqn:Eq; [|done].
  destruct (0 <=? Z.rem t 1000 * 1000000) eqn:Er; [|done].
  apply Z.leb_le in Eq, Er. lia.
Qed.

Lemma schedule_valid t p :
  valid_timespec (msec2tspec t) && valid_timespec (msec2tspec p) = true
  <-> 0 <= t /\ 0 <= p.
Proof.
  rewrite andb_true_iff. split.
  - intros [Ht Hp]. split.
    + destruct (Z_lt_le_dec t 0) as [L|]; [|done].
      rewrite (msec2tspec_invalid t L) in Ht. done.
    + destruct (Z_lt_le_dec p 0) as [L|]; [|done].
      rewrite (msec2tspec_invalid p L) in Hp. done.
  - intros [Ht Hp]. split; by apply msec2tspec_valid.
Qed.

(** X10: on a running reactor [uev_timer_set] succeeds on a timer watcher
    exactly when neither the timeout nor the period is negative. On success
    the timer descriptor holds the schedule built from the two, counted from
    the present clock reading, and errno is untouched; otherwise the result is
    -1, errno is EINVAL and the descriptor keeps the schedule it had. A
    timeout of zero hands the kernel a zero expiration, which disarms the
    timer whatever the period is. *)
Theorem uev_timer_set_running_status w t p s u v cur since :
  ctx s = Some u -> running u = true -> w <> NULL ->
  heap s !! w = Some v -> fds s !! fd v = Some (FTimer cur since) ->
  exists r s',
    uev_timer_set CTX w t p s = Done r s' /\
    (r = 0 <-> 0 <= t /\ 0 <= p) /\
    (r = 0 ->
     fds s' !! fd v = Some (FTimer (schedule t p) (clock s)) /\
     errno s' = errno s /\
     (t = 0 -> it_value (schedule t p) = Timespec 0 0)) /\
    (r <> 0 -> r = -1 /\ errno s' = EINVAL /\ fds s' = fds s).
Proof.
  intros Hu Hr Hw Hv Hf.
  rewrite (uev_timer_set_running w t p s u v cur since Hu Hr Hw Hv Hf).
  pose proof (schedule_valid t p) as Hval. simpl.
  destruct (valid_timespec (msec2tspec t) && valid_timespec (msec2tspec p)).
  - eexists _, _. split; [reflexivity|]. simpl. split_and!.
    + split; [intros _; by apply Hval|done].
    + intros _. split_and!; [apply lookup_insert_eq|done|by intros ->].
    + done.
  - eexists _, _. split; [reflexivity|]. simpl. split_and!.
    + split; [done|]. intros H. apply Hval in H. done.
    + done.
    + done.
Qed.

(** The one-shot timer of the running reactor of [mixed] is given a
    period of 20 ms and a timeout of zero. *)
Lemma uev_timer_set_running_status_witness :
  let s := mixed true [] in
  let v := Watcher 4 UEV_DIR_INBOUND UEV_TIMER_TYPE 100 0 50 0 in
  exists r s',
    uev_timer_set CTX 2 0 20 s = Done r s' /\
    (r = 0 <-> 0 <= 0 /\ 0 <= 20) /\
    (r = 0 ->
     fds s' !! fd v = Some (FTimer (schedule 0 20) (clock s)) /\
     errno s' = errno s /\
     (0 = 0 -> it_value (schedule 0 20) = Timespec 0 0)) /\
    (r <> 0 -> r = -1 /\ errno s' = EINVAL /\ fds s' = fds s).
Proof.
  intros s v.
  apply (uev_timer_set_running_status 2 0 20 s (Uev 3 true [2; 1] []) v
           zero_spec 1000).
  - reflexivity.
  - reflexivity.
  - unfold NULL. lia.
  - reflexivity.
  - reflexivity.
Defined.

(** X11: what a successful [uev_timer_create] leaves behind: a new timer
    descriptor, registered for input with the new watcher as its tag; the
    watcher, heading the list, records the descriptor, the callback, its
    argument, the timeout and the period. Whether the timer is ticking depends
    on the running flag: created while the loop runs it is armed at once with
    the requested schedule, counted from the present clock reading (and the
    request is accepted only if neither value is negative); created before
    [uev_run] it stays disarmed, and a negative value goes unnoticed. *)
Theorem uev_timer_create_arms_when_running c h d t p s r s' :
  uev_timer_create c h d t p s = Done r s' -> r <> NULL ->
  exists f u rest,
    c = CTX /\ h <> NULL /\ ctx s = Some u /\
    env s = NewFd f :: rest /\ 0 <= f /\ fds s !! f = None /\
    heap s' !! r = Some (Watcher f UEV_DIR_INBOUND UEV_TIMER_TYPE h d t p) /\
    list_of s' = r :: list_of s /\
    interest_of s' !! f = Some (EpollEvent EPOLLIN r) /\
    fds s' !! f =
      Some (FTimer (if running u then schedule t p else zero_spec) (clock s)) /\
    (running u = true -> 0 <= t /\ 0 <= p).
Proof.
  intros H Hr. unfold uev_timer_create in H.
  apply bind_done in H as (f & s1 & Hc & H).
  apply timerfd_create_done in Hc
    as (Hc1 & Hh1 & Hb1 & Hk1 & Hl1 & [(Hf0 & Hfn & (rest & He1) & Hf1)|(-> & _)]).
  2:{ simpl in H. by apply ret_done in H as [<- _]. }
  destruct (f <? 0) eqn:Hneg; [lia|].
  apply bind_done in H as (w & s2 & Hn & H).
  apply new_watcher_done in Hn.
  destruct Hn as (Hk2 & [(-> & _)|
    (-> & -> & Hh & Hb2 & Hpos & Hfresh & u & m & Hu & Hm & Hmf & Hfo & Hne
     & Hc2 & Hf2 & Hh2 & Hl2)]).
  { simpl in H. apply bind_done in H as (? & ? & _ & H).
    by apply ret_done in H as [<- _]. }
  destruct (decide (brk s1 = NULL)) as [E|_]; [unfold NULL in *; lia|].
  apply bind_done in H as (r1 & s3 & Hs & H).
  destruct (decide (r1 <> 0)) as [Hr1|Hr1].
  { apply bind_done in H as (? & ? & _ & H).
    apply bind_done in H as (? & ? & _ & H).
    by apply ret_done in H as [<- _]. }
  apply ret_done in H as [<- <-].
  assert (r1 = 0) as -> by (destruct (decide (r1 = 0)); [done|by destruct Hr1]).
  apply uev_timer_set_done in Hs
    as [(? & _)|(_ & _ & u' & v & Hu' & Hv & Hc3 & Hb3 & Hk3 & He3 & Hh3 & Hs)];
    [lia|].
  rewrite Hh2, lookup_insert_eq in Hv. injection Hv as <-. simpl in *.
  rewrite Hc2 in Hu'. injection Hu' as <-. simpl in Hs.
  rewrite Hc1 in Hu. rewrite Hf1 in Hm.
  assert (Hfe : f <> efd u) by done.
  rewrite lookup_insert_ne in Hm by done.
  exists f, u, rest. split_and!; try done.
  - rewrite Hh3. apply lookup_insert_eq.
  - rewrite (list_of_eq s3 _ (eq_trans Hc3 Hc2)), (list_of_eq s u Hu). done.
  - assert (fds s3 !! efd u =
            Some (FEpoll (<[f := EpollEvent EPOLLIN (brk s1)]> m))) as Hm3.
    { destruct Hs as [(_ & _ & -> & _)|(_ & _ & [(_ & _ & _ & ->)|(? & _)])];
        [|rewrite lookup_insert_ne by done|lia];
        rewrite Hf2; apply lookup_insert_eq. }
    rewrite (interest_of_eq s3 _ _ (eq_trans Hc3 Hc2) Hm3).
    apply lookup_insert_eq.
  - destruct Hs as [(-> & _ & -> & _)|(-> & _ & [(_ & _ & _ & ->)|(? & _)])];
      [| |lia].
    + rewrite Hf2, lookup_insert_ne, Hf1, lookup_insert_eq by done. done.
    + rewrite lookup_insert_eq. congruence.
  - intros Hrun.
    destruct Hs as [(Hno & _)|(_ & _ & [(_ & _ & Hval & _)|(? & _)])];
      [congruence| |lia].
    by apply schedule_valid.
Qed.

(** A timer is created from within a running loop. *)
Lemma uev_timer_create_arms_when_running_witness :
  let s := spinning [NewFd 4; Alloc true; CtlAdd 0] in
  let s' := after (uev_timer_create CTX 100 0 50 20) s in
  exists f u rest,
    CTX = CTX /\ 100 <> NULL /\ ctx s = Some u /\
    env s = NewFd f :: rest /\ 0 <= f /\ fds s !! f = None /\
    heap s' !! 1 = Some (Watcher f UEV_DIR_INBOUND UEV_TIMER_TYPE 100 0 50 20) /\
    list_of s' = 1 :: list_of s /\
    interest_of s' !! f = Some (EpollEvent EPOLLIN 1) /\
    fds s' !! f =
      Some (FTimer (if running u then schedule 50 20 else zero_spec) (clock s)) /\
    (running u = true -> 0 <= 50 /\ 0 <= 20).
Proof.
  intros s s'.
  apply (uev_timer_create_arms_when_running CTX 100 0 50 20 s 1 s').
  - vm_compute. reflexivity.
  - unfold NULL. lia.
Defined.

(** X12: creating a timer and deleting it again is not a round trip: it costs
    a descriptor. On a consistent reactor, a timer [uev_timer_create] has just
    returned can always be deleted, and after [uev_timer_delete] the heap, the
    watcher list and the registrations are what they were before the create;
    but the timer descriptor the create had opened is still open, and no
    watcher refers to it. *)
Theorem uev_timer_create_delete_leaks_descriptor h d t p s w s1 :
  consistent s ->
  uev_timer_create CTX h d t p s = Done w s1 -> w <> NULL ->
  exists s2 f,
    uev_timer_delete CTX w s1 = Done 0 s2 /\
    heap s2 = heap s /\ list_of s2 = list_of s /\
    interest_of s2 = interest_of s /\ consistent s2 /\
    fds s !! f = None /\
    open_fds s2 = open_fds s ∪ {[f]} /\
    (exists cur since, fds s2 !! f = Some (FTimer cur since)) /\
    forall x v, heap s2 !! x = Some v -> fd v <> f.
Proof.
  intros C H Hw.
  destruct (uev_timer_create_consistent _ _ _ _ _ _ _ _ C H)
    as (C1 & [(? & _)|(_ & Hnew & Hl1 & f & Hfn & Hin & Hi1 & Hh1)]); [done|].
  apply uev_timer_create_done in H
    as (_ & [(? & _)|[(? & _)|
         (-> & _ & _ & _ & _ & _ & f' & u & m & cur & _ & Hfn' & _ & Hu & Hm & _
          & Hne & Hc1 & Hf1 & Hh1')]]); [done|done|].
  assert (f' = f) as ->.
  { rewrite Hh1' in Hh1.
    pose proof (f_equal (fun hp => hp !! brk s) Hh1) as E. simpl in E.
    rewrite !lookup_insert_eq in E. by injection E. }
  set (W := Watcher f UEV_DIR_INBOUND UEV_TIMER_TYPE h d t p) in *.
  destruct (uev_timer_delete_total (brk s) s1 _ W Hc1) as (s2 & E); try done.
  { rewrite Hh1. apply lookup_insert_eq. }
  { simpl. apply elem_of_cons. auto. }
  exists s2, f. split; [done|].
  destruct (uev_timer_delete_consistent _ _ _ _ _ C1 E)
    as (C2 & [(? & _)|(_ & v & Hv & Hh2 & Hl2 & Hi2 & Hg2 & Ho2)]); [lia|].
  rewrite Hh1, lookup_insert_eq in Hv. injection Hv as <-. simpl in *.
  assert (brk s ∉ list_of s) as Hnl.
  { intros Hx. apply (cs_live s C) in Hx as [? ?]. congruence. }
  assert (heap s2 = heap s) as Hheap.
  { rewrite Hh2, Hh1. by apply delete_insert_id. }
  assert (open_fds s2 = open_fds s ∪ {[f]}) as Hopen.
  { rewrite Ho2. unfold open_fds. rewrite Hf1, dom_insert_L.
    rewrite (dom_insert_lookup_L (fds s) (efd u)) by eauto.
    apply (comm_L (∪)). }
  split_and!; try done.
  - rewrite Hl2, Hl1, filter_head. by apply filter_absent.
  - rewrite Hi2, Hi1. by apply delete_insert_id.
  - destruct (proj2 Hg2 f cur (clock s)) as (cur' & since' & Hx); [|eauto].
    rewrite Hf1. apply lookup_insert_eq.
  - intros x v Hv Hfd. rewrite Hheap in Hv.
    destruct (cs_reg s C x v Hv) as (e & He & _).
    rewrite Hfd, Hin in He. done.
Qed.

Lemma uev_timer_create_delete_leaks_descriptor_witness :
  let s := boot [NewFd 4; Alloc true; CtlAdd 0] in
  let s1 := after (uev_timer_create CTX 100 0 50 0) s in
  exists s2 f,
    uev_timer_delete CTX 1 s1 = Done 0 s2 /\
    heap s2 = heap s /\ list_of s2 = list_of s /\
    interest_of s2 = interest_of s /\ consistent s2 /\
    fds s !! f = None /\
    open_fds s2 = open_fds s ∪ {[f]} /\
    (exists cur since, fds s2 !! f = Some (FTimer cur since)) /\
    forall x v, heap s2 !! x = Some v -> fd v <> f.
Proof.
  intros s s1.
  apply (uev_timer_create_delete_leaks_descriptor 100 0 50 0 s 1 s1).
  - apply consistent_fresh, fresh_context_boot.
  - vm_compute. reflexivity.
  - unfold NULL. lia.
Defined.

(** ** What no library code does to descriptors and watchers *)

Lemma evolves_refl s : evolves s s.
Proof.
  split; [lia|apply fds_grow_refl| |done].
  intros w v' _ Hv. eauto.
Qed.

Lemma evolves_trans s1 s2 s3 : evolves s1 s2 -> evolves s2 s3 -> evolves s1 s3.
Proof.
  intros [b1 f1 o1 h1] [b2 f2 o2 h2]. split.
  - lia.
  - by eapply fds_grow_trans.
  - intros w v3 Hw Hv3.
    destruct (o2 w v3 ltac:(lia) Hv3) as (v2 & Hv2 & E2).
    destruct (o1 w v2 Hw Hv2) as (v1 & Hv1 & E1).
    exists v1. split; [done|congruence].
  - auto.
Qed.

Lemma settles_refl s : settles s s.
Proof. split; [apply evolves_refl|done]. Qed.

Lemma settles_trans s1 s2 s3 : settles s1 s2 -> settles s2 s3 -> settles s1 s3.
Proof.
  intros [e1 b1] [e2 b2]. split; [by eapply evolves_trans|congruence].
Qed.

(** Code that touches neither the heap nor the descriptors. *)
Lemma evolves_fields s s' :
  heap s' = heap s -> fds s' = fds s -> brk s <= brk s' -> evolves s s'.
Proof.
  intros Hh Hf Hb. split; [done|rewrite Hf; apply fds_grow_refl| |].
  - intros w v' _ Hv. rewrite Hh in Hv. eauto.
  - unfold handled. by rewrite Hh.
Qed.

Lemma settles_fields s s' :
  heap s' = heap s -> fds s' = fds s -> brk s <= brk s' ->
  buffer_of s' = buffer_of s -> settles s s'.
Proof. intros. split; [by apply evolves_fields|done]. Qed.

Lemma buffer_of_ctx s s' : ctx s' = ctx s -> buffer_of s' = buffer_of s.
Proof. unfold buffer_of. by intros ->. Qed.

Lemma new_watcher_settles c ty f dr h d s r s' :
  new_watcher c ty f dr h d s = Done r s' -> settles s s'.
Proof.
  intros H. apply new_watcher_done in H
    as (_ & [(_ & Hc & Hf & Hh & Hb)|
             (-> & _ & Hnn & Hb & _ & _ & u & m & Hu & Hm & _ & _ & _ & Hc & Hf
              & Hh & _)]).
  - apply settles_fields; try done; [|by apply buffer_of_ctx].
    destruct Hb as [[-> _]|[-> _]]; lia.
  - split; [split|].
    + lia.
    + rewrite Hf. by eapply fds_grow_insert_epoll.
    + intros w v' Hw Hv. rewrite Hh, lookup_insert_ne in Hv by lia. eauto.
    + intros Hs w v' Hv. rewrite Hh in Hv.
      destruct (decide (w = brk s)) as [->|Hne].
      * rewrite lookup_insert_eq in Hv. by injection Hv as <-.
      * rewrite lookup_insert_ne in Hv by done. by eapply Hs.
    + unfold buffer_of. by rewrite Hc, Hu.
Qed.

Lemma delete_watcher_settles c w s r s' :
  delete_watcher c w s = Done r s' -> settles s s'.
Proof.
  intros H. apply delete_watcher_done in H
    as [(_ & _ & ->)|(_ & _ & _ & u & v & rc & Hu & Hv & _ & Hc & Hh & Hb & _ & _
                      & _ & Hd)].
  - by apply settles_fields.
  - split; [split|].
    + lia.
    + destruct Hd as [(_ & m & Hm & ->)|(_ & -> & _)];
        [by eapply fds_grow_insert_epoll|apply fds_grow_refl].
    + intros x v' _ Hx. rewrite Hh in Hx.
      apply lookup_delete_Some in Hx as [_ Hx]. eauto.
    + intros Hs x v' Hx. rewrite Hh in Hx.
      apply lookup_delete_Some in Hx as [_ Hx]. by eapply Hs.
    + unfold buffer_of. by rewrite Hc, Hu.
Qed.

Lemma uev_timer_set_settles c w t p s r s' :
  uev_timer_set c w t p s = Done r s' -> settles s s'.
Proof.
  intros H. apply uev_timer_set_done in H
    as [(_ & _ & ->)|(_ & _ & u & v & Hu & Hv & Hc & Hb & _ & _ & Hh & Hs)].
  - by apply settles_fields.
  - split; [split|].
    + lia.
    + destruct Hs as [(_ & _ & -> & _)|
                      (_ & _ & [(_ & (cur & since & Hx) & _ & ->)|(_ & -> & _)])];
        [apply fds_grow_refl|by eapply fds_grow_insert_timer|apply fds_grow_refl].
    + intros x v' _ Hx. rewrite Hh in Hx.
      destruct (decide (x = w)) as [->|Hne].
      * rewrite lookup_insert_eq in Hx. injection Hx as <-. eauto.
      * rewrite lookup_insert_ne in Hx by done. eauto.
    + intros Hd x v' Hx. rewrite Hh in Hx.
      destruct (decide (x = w)) as [->|Hne].
      * rewrite lookup_insert_eq in Hx. injection Hx as <-. simpl.
        by eapply Hd.
      * rewrite lookup_insert_ne in Hx by done. by eapply Hd.
    + by apply buffer_of_ctx.
Qed.

Lemma timerfd_create_settles s r s' :
  timerfd_create s = Done r s' -> settles s s'.
Proof.
  intros H. apply timerfd_create_done in H
    as (Hc & Hh & Hb & _ & _ & [(_ & Hn & _ & Hf)|(_ & Hf & _)]).
  - split; [|by apply buffer_of_ctx]. split.
    + lia.
    + rewrite Hf. by apply fds_grow_insert_new.
    + intros w v' _ Hv. rewrite Hh in Hv. eauto.
    + unfold handled. by rewrite Hh.
  - apply settles_fields; try done; [lia|by apply buffer_of_ctx].
Qed.

Lemma uev_timer_create_settles c h d t p s r s' :
  uev_timer_create c h d t p s = Done r s' -> settles s s'.
Proof.
  intros H. apply uev_timer_create_done in H
    as (_ & [(_ & Hf & Hc & Hh & Hb & _)|
             [(_ & Hh & Hb & (f & l & rest & _ & _ & _ & Hf & _) & Hc)|
              (-> & _ & Hnn & Hb & _ & _ & f & u & m & cur & _ & Hfn & _ & Hu
               & Hm & _ & Hne & Hc & Hf & Hh)]]).
  - apply settles_fields; try done; [lia|by apply buffer_of_ctx].
  - split; [split|].
    + lia.
    + rewrite Hf. apply fds_grow_forget.
    + intros w v' _ Hv. rewrite Hh in Hv. eauto.
    + unfold handled. by rewrite Hh.
    + destruct Hc as [Hc|(u & Hu & Hc)]; [by apply buffer_of_ctx|].
      unfold buffer_of. by rewrite Hc, Hu.
  - split; [split|].
    + lia.
    + rewrite Hf. eapply fds_grow_trans.
      * by eapply fds_grow_insert_epoll.
      * apply fds_grow_insert_new. by rewrite lookup_insert_ne.
    + intros w v' Hw Hv. rewrite Hh, lookup_insert_ne in Hv by lia. eauto.
    + intros Hs w v' Hv. rewrite Hh in Hv.
      destruct (decide (w = brk s)) as [->|Hx].
      * rewrite lookup_insert_eq in Hv. by injection Hv as <-.
      * rewrite lookup_insert_ne in Hv by done. by eapply Hs.
    + unfold buffer_of. by rewrite Hc, Hu.
Qed.

Lemma uev_timer_delete_settles c w s r s' :
  uev_timer_delete c w s = Done r s' -> settles s s'.
Proof.
  intros H. unfold uev_timer_delete in H.
  destruct (decide (c = CNULL \/ w = NULL)).
  { exec. by apply settles_fields. }
  apply bind_done in H as (r1 & s1 & Hs & Hd).
  eapply settles_trans;
    [by eapply uev_timer_set_settles|by eapply delete_watcher_settles].
Qed.

Lemma uev_exit_settles c s (r : unit) s' :
  uev_exit c s = Done r s' -> settles s s'.
Proof.
  intros H. unfold uev_exit in H. exec. fields.
  apply settles_fields; try done. unfold buffer_of. simpl.
  match goal with E : ctx s = Some _ |- _ => by rewrite E end.
Qed.

Lemma api_settles c s r s' : api c s = Done r s' -> settles s s'.
Proof.
  intros H. destruct c; simpl in H.
  - by eapply new_watcher_settles.
  - by eapply delete_watcher_settles.
  - by eapply uev_timer_create_settles.
  - by eapply uev_timer_set_settles.
  - by eapply uev_timer_delete_settles.
  - apply bind_done in H as ([] & s1 & He & H).
    apply ret_done in H as [_ <-]. by eapply uev_exit_settles.
Qed.

Lemma emit_settles e s (r : unit) s' : emit e s = Done r s' -> settles s s'.
Proof.
  intros H. unfold emit in H. apply modify_done in H as ->.
  by apply settles_fields.
Qed.

Lemma run_script_settles p : forall s (r : unit) s',
  run_script p s = Done r s' -> settles s s'.
Proof.
  induction p as [|c k IH]; intros s r s' H; simpl in H.
  - apply ret_done in H as [_ <-]. apply settles_refl.
  - apply bind_done in H as ([] & sa & He & H).
    apply bind_done in H as (rc & sb & Ha & H).
    eapply settles_trans; [by eapply emit_settles|].
    eapply settles_trans; [by eapply api_settles|by eapply IH].
Qed.

Lemma fire_settles code w s (r : unit) s' :
  fire code CTX w s = Done r s' -> settles s s'.
Proof.
  intros H. unfold fire in H.
  apply bind_done in H as (v & s1 & Hv & H).
  apply load_done in Hv as [Hv ->].
  destruct (decide (handler v <> NULL)).
  - unfold invoke in H. destruct (code (handler v)) as [f|]; [|done].
    apply bind_done in H as ([] & sa & He & H).
    eapply settles_trans; [by eapply emit_settles|by eapply run_script_settles].
  - apply ret_done in H as [_ <-]. apply settles_refl.
Qed.

Lemma after_fire_settles w res s r s' :
  after_fire CTX w res s = Done r s' -> settles s s'.
Proof.
  intros H. unfold after_fire in H.
  apply bind_done in H as (v & s0 & Hv & H).
  apply load_done in Hv as [Hv ->].
  destruct (decide (UEV_TIMER_TYPE = type v)).
  2:{ apply ret_done in H as [_ <-]. apply settles_refl. }
  apply bind_done in H as (n & s1 & Hr & H).
  apply read_timer_done in Hr as (Hc1 & Hf1 & Hh1 & Hb1 & _ & _).
  assert (settles s s1) as S1.
  { apply settles_fields; try done; [lia|by apply buffer_of_ctx]. }
  apply bind_done in H as (res' & s2 & Hres & H).
  assert (settles s1 s2) as S2.
  { clear H. destruct (decide (n <> 8)).
    - exec. fields. apply settles_fields; try done.
      unfold buffer_of. simpl.
      match goal with E : ctx s1 = Some _ |- _ => by rewrite E end.
    - apply ret_done in Hres as [_ <-]. apply settles_refl. }
  apply bind_done in H as (v' & s3 & Hv' & H).
  apply load_done in Hv' as [Hv' ->].
  apply bind_done in H as ([] & s4 & Hd & H).
  apply ret_done in H as [_ <-].
  eapply settles_trans; [exact S1|]. eapply settles_trans; [exact S2|].
  destruct (decide (period v' = 0)).
  - apply bind_done in Hd as (rd & s5 & Hd & H).
    apply ret_done in H as [_ <-]. by eapply uev_timer_delete_settles.
  - apply ret_done in Hd as [_ <-]. apply settles_refl.
Qed.

Lemma dispatch_settles code i res s r s' :
  dispatch code CTX i res s = Done r s' -> settles s s'.
Proof.
  intros H. unfold dispatch in H.
  apply bind_done in H as (u & s0 & Hu & H).
  apply get_ctx_done in Hu as (_ & Hu & ->).
  destruct (events u !! i) as [e|]; [|done].
  apply bind_done in H as ([] & s1 & Hf & H).
  eapply settles_trans; [by eapply fire_settles|by eapply after_fire_settles].
Qed.

Lemma dispatch_from_settles code todo : forall i res s r s',
  dispatch_from code todo CTX i res s = Done r s' -> settles s s'.
Proof.
  induction todo as [|todo IH]; intros i res s r s' H; simpl in H.
  - apply ret_done in H as [_ <-]. apply settles_refl.
  - apply bind_done in H as (r1 & s1 & Hd & H).
    eapply settles_trans; [by eapply dispatch_settles|by eapply IH].
Qed.

Lemma wait_events_evolves N fuel : forall res s r s',
  wait_events N fuel CTX res s = Done r s' -> evolves s s'.
Proof.
  induction fuel as [|fuel IH]; intros res s r s' H; simpl in H; [done|].
  apply bind_done in H as (u & s0 & Hg & H).
  apply get_ctx_done in Hg as (_ & Hu & ->).
  apply bind_done in H as (rw & s1 & Hw & H).
  apply epoll_wait_done in Hw as (Hc1 & Hf1 & Hh1 & Hb1 & Hl1 & _).
  apply bind_done in H as ([] & s2 & Hp & H).
  unfold put_ctx in Hp. apply modify_done in Hp as ->.
  set (s2 := set_ctx _ s1) in *.
  assert (evolves s s2) as E2 by (apply evolves_fields; simpl; try done; lia).
  destruct (fst rw <? 0).
  - apply bind_done in H as (err & s3 & He & H).
    apply gets_done in He as [-> ->].
    destruct (decide (EINTR = errno s2)).
    + eapply evolves_trans; [exact E2|by eapply IH].
    + apply bind_done in H as (u' & s3 & Hg & H).
      apply get_ctx_done in Hg as (_ & Hu' & ->).
      apply bind_done in H as ([] & s4 & Hp & H).
      unfold put_ctx in Hp. apply modify_done in Hp as ->.
      apply ret_done in H as [_ <-].
      eapply evolves_trans; [exact E2|]. by apply evolves_fields.
  - by apply ret_done in H as [_ <-].
Qed.

Lemma event_loop_evolves N code fuel : forall res s r s',
  event_loop N code fuel CTX res s = Done r s' -> evolves s s'.
Proof.
  induction fuel as [|fuel IH]; intros res s r s' H; simpl in H.
  - apply bind_done in H as (u & s0 & Hg & H).
    apply get_ctx_done in Hg as (_ & Hu & ->).
    destruct (running u); [done|]. apply ret_done in H as [_ <-].
    apply evolves_refl.
  - apply bind_done in H as (u & s0 & Hg & H).
    apply get_ctx_done in Hg as (_ & Hu & ->).
    destruct (running u);
      [|apply ret_done in H as [_ <-]; apply evolves_refl].
    apply bind_done in H as (rw & s1 & Hw & H).
    apply bind_done in H as (r1 & s2 & Hd & H).
    eapply evolves_trans; [by eapply wait_events_evolves|].
    eapply evolves_trans; [|by eapply IH].
    by eapply dispatch_from_settles.
Qed.

Lemma arm_pass_evolves ws : forall s (r : unit) s',
  arm_pass CTX ws s = Done r s' -> evolves s s'.
Proof.
  induction ws as [|w ws IH]; intros s r s' H; simpl in H.
  - apply ret_done in H as [_ <-]. apply evolves_refl.
  - apply bind_done in H as (v & s0 & Hl & H).
    apply load_done in Hl as [Hv ->].
    apply bind_done in H as ([] & s1 & Hs & H).
    eapply evolves_trans; [|by eapply IH].
    destruct (decide (UEV_TIMER_TYPE = type v)).
    + apply bind_done in Hs as (rs & s2 & Hs & Hr).
      apply ret_done in Hr as [_ <-]. by eapply uev_timer_set_settles.
    + apply ret_done in Hs as [_ <-]. apply evolves_refl.
Qed.

Lemma uev_run_evolves N code fuel c s r s' :
  uev_run N code fuel c s = Done r s' -> evolves s s'.
Proof.
  intros H. unfold uev_run in H.
  destruct (decide (c = CNULL)) as [->|Hc].
  { exec. by apply evolves_fields. }
  destruct c; [done|].
  apply bind_done in H as ([] & s1 & Hstart & Hloop).
  eapply evolves_trans; [|by eapply event_loop_evolves].
  unfold start_timers in Hstart.
  apply bind_done in Hstart as (u & s0 & Hg & Hstart).
  apply get_ctx_done in Hg as (_ & Hu & ->).
  apply bind_done in Hstart as ([] & s2 & Hp & Ha).
  unfold put_ctx in Hp. apply modify_done in Hp as ->.
  eapply evolves_trans; [|by eapply arm_pass_evolves].
  by apply evolves_fields.
Qed.

(** X13: [uev_run] never closes a descriptor of its caller and never rewrites
    a watcher's identity. Whatever the callbacks do, whenever the loop
    returns: every descriptor that was open at the call is still open, timer
    descriptors included (so the timerfd of every timer that fired as a
    one-shot and was deleted by the loop is left open); and every watcher that
    was live at the call and still is has the descriptor, direction, type,
    callback and callback argument it had. If every watcher had a callback at
    the call, every watcher has one at the return. *)
Theorem uev_run_keeps_descriptors_and_identities N code fuel c s r s' :
  consistent s ->
  uev_run N code fuel c s = Done r s' ->
  open_fds s ⊆ open_fds s' /\
  (forall g cur since, fds s !! g = Some (FTimer cur since) ->
     exists cur' since', fds s' !! g = Some (FTimer cur' since')) /\
  (forall w v v', heap s !! w = Some v -> heap s' !! w = Some v' ->
     identity v' = identity v) /\
  (handled s -> handled s').
Proof.
  intros C H. apply uev_run_evolves in H as [Hb [Hg Ht] Ho Hh].
  split_and!; try done.
  - intros g Hin. unfold open_fds in *.
    apply elem_of_dom. apply Hg. by apply elem_of_dom.
  - intros w v v' Hv Hv'.
    destruct (Ho w v') as (v0 & Hv0 & E); [|done|congruence].
    apply (cs_brk s C). eauto.
Qed.

(** A run of the reactor of [mixed] in which the one-shot timer fires
    and its callback stops the loop. *)
Lemma uev_run_keeps_descriptors_and_identities_witness :
  let s := mixed false [Ready 50000000 [4]; ReadRet 8] in
  let s' := after (uev_run 10 stopping 5 CTX) s in
  open_fds s ⊆ open_fds s' /\
  (forall g cur since, fds s !! g = Some (FTimer cur since) ->
     exists cur' since', fds s' !! g = Some (FTimer cur' since')) /\
  (forall w v v', heap s !! w = Some v -> heap s' !! w = Some v' ->
     identity v' = identity v) /\
  (handled s -> handled s').
Proof.
  intros s s'.
  apply (uev_run_keeps_descriptors_and_identities 10 stopping 5 CTX s 0 s').
  - apply consistent_mixed.
  - vm_compute. reflexivity.
Defined.

(** X14: no sequence of calls that create, arm or delete watchers, or ask the
    loop to stop, closes a descriptor that was open before it: the library
    never closes a descriptor the application handed to it, and a timer
    descriptor stays one. A watcher that is live before and after has kept its
    descriptor, direction, type, callback and callback argument; the epoll
    descriptor and the event buffer of the Context are untouched. No watcher
    without a callback ever appears, so starting with no watcher every watcher
    has one, and the test for a null callback in [uev_run] never fails. *)
Theorem library_calls_keep_descriptors_and_identities cs s s' :
  consistent s ->
  run_calls cs s = Done tt s' ->
  open_fds s ⊆ open_fds s' /\
  (forall g cur since, fds s !! g = Some (FTimer cur since) ->
     exists cur' since', fds s' !! g = Some (FTimer cur' since')) /\
  (forall w v v', heap s !! w = Some v -> heap s' !! w = Some v' ->
     identity v' = identity v) /\
  buffer_of s' = buffer_of s /\
  (handled s -> handled s') /\
  (heap s = ∅ -> handled s').
Proof.
  intros C H. unfold run_calls in H.
  apply run_script_settles in H as [[Hb [Hg Ht] Ho Hh] Hbuf].
  split_and!; try done.
  - intros g Hin. unfold open_fds in *.
    apply elem_of_dom. apply Hg. by apply elem_of_dom.
  - intros w v v' Hv Hv'.
    destruct (Ho w v') as (v0 & Hv0 & E); [|done|congruence].
    apply (cs_brk s C). eauto.
  - intros He. apply Hh. intros w v Hv. by rewrite He in Hv.
Qed.

(** Two watchers are created, the timer is rearmed and then deleted. *)
Lemma library_calls_keep_descriptors_and_identities_witness :
  let s := boot [Alloc true; CtlAdd 0; NewFd 4; Alloc true; CtlAdd 0] in
  let cs := [CIoCreate CTX 100 0 5 UEV_DIR_INBOUND;
             CTimerCreate CTX 100 0 50 0;
             CTimerSet CTX 2 30 20;
             CTimerDelete CTX 2] in
  let s' := after (run_calls cs) s in
  open_fds s ⊆ open_fds s' /\
  (forall g cur since, fds s !! g = Some (FTimer cur since) ->
     exists cur' since', fds s' !! g = Some (FTimer cur' since')) /\
  (forall w v v', heap s !! w = Some v -> heap s' !! w = Some v' ->
     identity v' = identity v) /\
  buffer_of s' = buffer_of s /\
  (handled s -> handled s') /\
  (heap s = ∅ -> handled s').
Proof.
  intros s cs s'.
  apply (library_calls_keep_descriptors_and_identities cs s s').
  - apply consistent_fresh, fresh_context_boot.
  - vm_compute. reflexivity.
Defined.

(** ** Batches of events *)

Lemma callbacks_app d1 d2 : callbacks (d1 ++ d2) = callbacks d1 ++ callbacks d2.
Proof. unfold callbacks. apply List.filter_app. Qed.

Lemma callbacks_none Q d :
  (forall e, Q e = true -> is_callback e = false) ->
  forallb Q d = true -> callbacks d = [].
Proof.
  intros HQ. induction d as [|e d IH]; [done|]. simpl.
  intros H. apply andb_true_iff in H as [He Hd].
  rewrite (HQ e He). by apply IH.
Qed.

(** One turn of the for loop leaves at most one callback invocation in
    the history, that of the watcher the event is tagged with, and it
    comes first. *)
Lemma dispatch_log code i res s r s' u :
  ctx s = Some u -> dispatch code CTX i res s = Done r s' ->
  exists e v d,
    events u !! i = Some e /\ heap s !! ev_data e = Some v /\
    callbacks d = [] /\
    log s' = log s ++
      (if decide (handler v <> NULL)
       then [EvCallback (handler v) (ev_data e) (data v)] else []) ++ d.
Proof.
  intros Hu H. unfold dispatch in H.
  apply bind_done in H as (u0 & s0 & Hg & H).
  apply get_ctx_done in Hg as (_ & Hu0 & ->).
  assert (u0 = u) as -> by congruence.
  destruct (events u !! i) as [e|] eqn:He; [|done].
  apply bind_done in H as ([] & s1 & Hf & Ha).
  apply (after_fire_step (fun e => negb (is_callback e))) in Ha
    as [[_ _ (d2 & Hl2 & Hq2 & _)] _]; [|by intros ? ->].
  apply (callbacks_none _ d2) in Hq2; [|by intros []].
  unfold fire in Hf.
  apply bind_done in Hf as (v & s2 & Hv & Hf).
  apply load_done in Hv as [Hv ->].
  exists e, v.
  destruct (decide (handler v <> NULL)).
  - unfold invoke in Hf. destruct (code (handler v)) as [f|]; [|done].
    apply bind_done in Hf as ([] & sa & He1 & Hs).
    unfold emit in He1. apply modify_done in He1 as ->.
    apply run_script_step in Hs as [_ _ (d1 & Hl1 & Hq1 & _)].
    apply (callbacks_none _ d1) in Hq1; [|by intros []].
    exists (d1 ++ d2). split_and!; try done.
    + by rewrite callbacks_app, Hq1, Hq2.
    + rewrite Hl2, Hl1. simpl. by rewrite <- !app_assoc.
  - apply ret_done in Hf as [_ <-]. exists d2. by split_and!.
Qed.

Lemma dispatch_from_callbacks code s0 u0 :
  consistent s0 -> ctx s0 = Some u0 ->
  forall todo i res s r s',
    evolves s0 s -> handled s -> buffer_of s = buffer_of s0 ->
    (forall e, e ∈ take todo (drop i (events u0)) ->
       is_Some (heap s0 !! ev_data e)) ->
    dispatch_from code todo CTX i res s = Done r s' ->
    exists d,
      log s' = log s ++ d /\
      callbacks d = omap (callback_of s0) (take todo (drop i (events u0))) /\
      length (callbacks d) = todo.
Proof.
  intros C0 Hu0. induction todo as [|todo IH]; intros i res s r s' E Hh Hb Hlive H.
  - simpl in H. apply ret_done in H as [_ <-]. exists [].
    by rewrite app_nil_r.
  - simpl in H. apply bind_done in H as (r1 & s1 & Hd & H).
    assert (exists u, ctx s = Some u /\ events u = events u0) as (u & Hu & Hev).
    { unfold buffer_of in Hb. rewrite Hu0 in Hb.
      destruct (ctx s) as [u|]; [|done]. exists u. split; [done|].
      simpl in Hb. congruence. }
    pose proof (dispatch_settles _ _ _ _ _ _ Hd) as [E1 Hb1].
    apply (dispatch_log _ _ _ _ _ _ u Hu) in Hd
      as (e & v & d1 & He & Hv & Hc1 & Hl1).
    rewrite Hev in He.
    pose proof (drop_S _ _ _ He) as Hdrop.
    rewrite Hdrop in Hlive |- *. simpl in Hlive |- *.
    destruct (Hlive e) as [v0 Hv0]; [apply elem_of_cons; auto|].
    destruct (ev_old _ _ E (ev_data e) v) as (v0' & Hv0' & Hid); [|done|].
    { apply (cs_brk s0 C0). eauto. }
    assert (v0' = v0) as -> by congruence.
    assert (handler v = handler v0 /\ data v = data v0) as [Hhd Hdt]
      by (unfold identity in Hid; split; congruence).
    destruct (decide (handler v <> NULL)) as [_|Hn];
      [|exfalso; apply Hn; by eapply Hh].
    destruct (IH (S i) r1 s1 r s') as (d & Hl & Hcb & Hlen); try done.
    + by eapply evolves_trans.
    + by apply (ev_handled _ _ E1).
    + congruence.
    + intros x Hx. apply Hlive. apply elem_of_cons. auto.
    + exists ((EvCallback (handler v) (ev_data e) (data v) :: d1) ++ d).
      split_and!.
      * rewrite Hl, Hl1. simpl. by rewrite <- !app_assoc.
      * rewrite callbacks_app. simpl. rewrite Hc1. simpl.
        unfold callback_of at 1. rewrite Hv0. simpl.
        rewrite Hcb, Hhd, Hdt. done.
      * rewrite callbacks_app, length_app. simpl. rewrite Hc1. simpl. lia.
Qed.

(** X15: every event of a batch is dispatched, in the order reported, whatever
    the callbacks do. Take a consistent reactor in which every watcher has a
    callback, and a stretch of the event buffer whose tags are live watchers.
    If the for loop over that stretch comes to its end, the callback
    invocations it leaves in the history are exactly those the events of the
    stretch stand for, one per event and in buffer order, each with the
    callback and argument its watcher had when the batch began. In particular
    a callback that calls [uev_exit] does not cut the batch short: the running
    flag is tested only between batches. *)
Theorem batch_is_dispatched_in_full code todo i res s r s' u :
  consistent s -> handled s -> ctx s = Some u ->
  (forall e, e ∈ take todo (drop i (events u)) ->
     is_Some (heap s !! ev_data e)) ->
  dispatch_from code todo CTX i res s = Done r s' ->
  exists d,
    log s' = log s ++ d /\
    callbacks d = omap (callback_of s) (take todo (drop i (events u))) /\
    length (callbacks d) = todo.
Proof.
  intros C Hh Hu Hlive H.
  apply (dispatch_from_callbacks code s u C Hu todo i res s r s'); try done.
  apply evolves_refl.
Qed.

Lemma handled_mixed run answers : handled (mixed run answers).
Proof.
  intros w v Hv. simpl in Hv.
  apply lookup_insert_Some in Hv as [[_ <-]|[_ Hv]]; [done|].
  apply lookup_singleton_Some in Hv as [_ <-]. done.
Qed.

Lemma consistent_both_ready answers : consistent (both_ready answers).
Proof.
  pose proof (consistent_mixed true answers) as C.
  apply (consistent_same (mixed true answers) (both_ready answers)
           (Uev 3 true [2; 1] [])
           (Uev 3 true [2; 1] [EpollEvent EPOLLIN 1; EpollEvent EPOLLIN 2])
           {[ 5 := EpollEvent EPOLLIN 1; 4 := EpollEvent EPOLLIN 2 ]});
    try done; try (vm_compute; reflexivity).
  apply fds_grow_refl.
Qed.

(** Both watchers of [mixed] are ready; the callback of the first asks
    the loop to stop, and that of the second is invoked all the same. *)
Lemma batch_is_dispatched_in_full_witness :
  let s := both_ready [ReadRet 8] in
  let s' := after (dispatch_from stopping 2 CTX 0 0) s in
  exists d,
    log s' = log s ++ d /\
    callbacks d =
      omap (callback_of s)
        (take 2 (drop 0 [EpollEvent EPOLLIN 1; EpollEvent EPOLLIN 2])) /\
    length (callbacks d) = 2%nat.
Proof.
  intros s s'.
  apply (batch_is_dispatched_in_full stopping 2 0 0 s 0 s'
           (Uev 3 true [2; 1] [EpollEvent EPOLLIN 1; EpollEvent EPOLLIN 2])).
  - apply consistent_both_ready.
  - apply (handled_mixed true [ReadRet 8]).
  - reflexivity.
  - intros e He. simpl in He.
    apply elem_of_cons in He as [->|He]; [by eexists|].
    apply elem_of_cons in He as [->|He]; [by eexists|].
    by apply elem_of_nil in He.
  - vm_compute. reflexivity.
Defined.

Lemma ready_events_spec (m : gmap Z epoll_event) rs : forall evs,
  ready_events m rs = Some evs -> Forall2 (fun f e => m !! f = Some e) rs evs.
Proof.
  induction rs as [|f rs IH]; intros evs H; simpl in H.
  - injection H as <-. constructor.
  - destruct (m !! f) as [e|] eqn:Hf; [|done].
    destruct (ready_events m rs) as [es|]; [|done].
    injection H as <-. constructor; auto.
Qed.

Lemma epoll_wait_bound ep N s r s' :
  epoll_wait ep N s = Done r s' -> 0 <= fst r ->
  exists m dt rs rest,
    fds s !! ep = Some (FEpoll m) /\ env s = Ready dt rs :: rest /\
    ready_events m rs = Some (snd r) /\
    fst r = Z.of_nat (length (snd r)) /\
    NoDup rs /\ (0 < length rs <= N)%nat.
Proof.
  unfold epoll_wait. intros H Hr. exec; try done; simpl in Hr; try lia.
  destruct a as (Hne & Hnd & Hlen & Hdt).
  eexists _, _, _, _. split_and!; eauto.
  destruct ready; [done|]. simpl. lia.
Qed.

(** A wait that succeeds, possibly after interruptions by signals. *)
Lemma wait_events_batch N fuel : forall res s r s',
  wait_events N fuel CTX res s = Done r s' -> 0 <= fst r ->
  exists u u' m rs,
    ctx s = Some u /\ ctx s' = Some u' /\ fds s !! efd u = Some (FEpoll m) /\
    efd u' = efd u /\ watchers u' = watchers u /\ running u' = running u /\
    heap s' = heap s /\ fds s' = fds s /\ brk s' = brk s /\ snd r = res /\
    ready_events m rs = Some (take (Z.to_nat (fst r)) (events u')) /\
    fst r = Z.of_nat (length rs) /\ NoDup rs /\ (0 < length rs <= N)%nat /\
    length (events u') = (length rs `max` length (events u))%nat.
Proof.
  induction fuel as [|fuel IH]; intros res s r s' H Hr; simpl in H; [done|].
  apply bind_done in H as (u & s0 & Hg & H).
  apply get_ctx_done in Hg as (_ & Hu & ->).
  apply bind_done in H as (rw & s1 & Hw & H).
  pose proof Hw as Hw'.
  apply epoll_wait_done in Hw' as (Hc1 & Hf1 & Hh1 & Hb1 & Hl1 & Hcase).
  apply bind_done in H as ([] & s2 & Hp & H).
  unfold put_ctx in Hp. apply modify_done in Hp as ->.
  set (s2 := set_ctx _ s1) in *.
  destruct (fst rw <? 0) eqn:Hneg.
  - apply Z.ltb_lt in Hneg.
    destruct Hcase as [[_ Hnil]|(? & ? & ? & ? & _ & _ & _ & Hlen & _)]; [|lia].
    apply bind_done in H as (err & s3 & He & H).
    apply gets_done in He as [-> ->].
    destruct (decide (EINTR = errno s2)).
    + destruct (IH _ _ _ _ H Hr)
        as (u2 & u' & m & rs & Hu2 & Hu' & Hm & He & Hws & Hrn & Hh & Hf & Hb
            & Hres & Hev & Hn & Hnd & Hlen & Hsz).
      simpl in Hu2. rewrite Hnil in Hu2. simpl in Hu2. rewrite drop_0 in Hu2.
      injection Hu2 as <-. simpl in *.
      exists u, u', m, rs. split_and!; try done; try congruence; lia.
    + apply bind_done in H as (u' & s3 & Hg & H).
      apply get_ctx_done in Hg as (_ & Hu' & ->).
      apply bind_done in H as ([] & s4 & Hp & H).
      apply ret_done in H as [<- _]. simpl in Hr. lia.
  - apply Z.ltb_ge in Hneg. apply ret_done in H as [<- <-]. simpl in *.
    destruct (epoll_wait_bound _ _ _ _ _ Hw Hneg)
      as (m & dt & rs & rest & Hm & He & Hev & Hn & Hnd & Hlen).
    pose proof (Forall2_length _ _ _ (ready_events_spec _ _ _ Hev)) as Hsz.
    eexists u, _, m, rs. split_and!; try done; simpl; try lia.
    + rewrite Hn, Nat2Z.id. by rewrite take_app_length.
    + rewrite length_app, length_drop. lia.
Qed.

(** X16: what a successful wait hands to the for loop. On a consistent
    reactor, when the wait loop returns a count that is not negative, the
    count is at least one and at most UEV_MAX_EVENTS, [result] is as it was,
    and the first so many entries of the event buffer are registrations of the
    epoll instance whose tags are live watchers, each on the descriptor it is
    registered for, and no watcher occurs twice. Watchers, registrations and
    the list are untouched, and a buffer of UEV_MAX_EVENTS entries still has
    that size: the kernel never writes past its end, and the for loop never
    reads past it. *)
Theorem wait_events_reports_live_watchers N fuel res s n r s' u :
  consistent s -> ctx s = Some u ->
  wait_events N fuel CTX res s = Done (n, r) s' -> 0 <= n ->
  exists u',
    ctx s' = Some u' /\ 0 < n <= Z.of_nat N /\ r = res /\
    heap s' = heap s /\ fds s' = fds s /\ list_of s' = list_of s /\
    (forall i, (i < Z.to_nat n)%nat ->
       exists e v, events u' !! i = Some e /\
         heap s !! ev_data e = Some v /\
         interest_of s !! fd v = Some e) /\
    NoDup (ev_data <$> take (Z.to_nat n) (events u')) /\
    (length (events u) = N -> length (events u') = N).
Proof.
  intros C Hu H Hn.
  destruct (wait_events_batch _ _ _ _ _ _ H Hn)
    as (u0 & u' & m & rs & Hu0 & Hu' & Hm & He & Hws & Hrn & Hh & Hf & Hb
        & Hres & Hev & Hlen & Hnd & Hbound & Hsz).
  simpl in *. assert (u0 = u) as -> by congruence.
  pose proof (interest_of_eq s u m Hu Hm) as Hint.
  pose proof (ready_events_spec _ _ _ Hev) as F.
  assert (Htag : forall f e, m !! f = Some e ->
            exists v, heap s !! ev_data e = Some v /\ fd v = f).
  { intros f e Hfe. apply (cs_tag s C). by rewrite Hint. }
  exists u'. split_and!; try done; try lia.
  - by rewrite (list_of_eq s' u' Hu'), (list_of_eq s u Hu).
  - intros i Hi.
    destruct (lookup_lt_is_Some_2 (take (Z.to_nat n) (events u')) i)
      as [e Hie].
    { rewrite <- (Forall2_length _ _ _ F). lia. }
    destruct (Forall2_lookup_r _ _ _ _ _ F Hie) as (f & Hif & Hfe).
    destruct (Htag f e Hfe) as (v & Hv & Hfd).
    exists e, v. split_and!; try done.
    + rewrite lookup_take_lt in Hie by done. done.
    + rewrite Hint, Hfd. done.
  - set (g := fun w => match heap s !! w with Some v => fd v | None => 0 end).
    apply (NoDup_fmap_1 g).
    assert (g <$> (ev_data <$> take (Z.to_nat n) (events u')) = rs) as ->;
      [|done].
    clear -F Htag. induction F as [|f e rs evs Hfe F IH]; [done|].
    simpl. f_equal; [|done].
    destruct (Htag f e Hfe) as (v & Hv & Hfd). unfold g. by rewrite Hv.
Qed.

(** The timer of [mixed] becomes ready after one interrupted wait. *)
Lemma wait_events_reports_live_watchers_witness :
  let s := mixed true [WaitErr EINTR; Ready 50000000 [4]] in
  let s' := after (wait_events 10 5 CTX 0) s in
  exists u',
    ctx s' = Some u' /\ 0 < 1 <= Z.of_nat 10 /\ 0 = 0 /\
    heap s' = heap s /\ fds s' = fds s /\ list_of s' = list_of s /\
    (forall i, (i < Z.to_nat 1)%nat ->
       exists e v, events u' !! i = Some e /\
         heap s !! ev_data e = Some v /\
         interest_of s !! fd v = Some e) /\
    NoDup (ev_data <$> take (Z.to_nat 1) (events u')) /\
    (length (events (Uev 3 true [2; 1] [])) = 10%nat ->
     length (events u') = 10%nat).
Proof.
  intros s s'.
  apply (wait_events_reports_live_watchers 10 5 0 s 1 0 s'
           (Uev 3 true [2; 1] [])).
  - apply consistent_mixed.
  - reflexivity.
  - vm_compute. reflexivity.
  - lia.
Defined.

(** ** The loop and its callbacks *)

(** X17: [uev_run] keeps the reactor consistent, whatever library calls
    the callbacks make.  The callbacks considered are those that act on
    the reactor through the library alone: any tree of the calls that
    create, arm and delete watchers or ask the loop to stop.  Whenever
    [uev_run] returns, on any Context pointer, the representation
    invariant holds again; the watcher list and the registrations of the
    epoll instance are in lock-step, and every watcher on the list is a
    live block registered, under its own tag, for a descriptor that is
    open.  (A callback that closes a watched descriptor behind the
    library's back is outside this statement: the kernel then drops the
    registration while the watcher stays on the list.) *)
Theorem uev_run_keeps_lockstep N code fuel c s r s' :
  consistent s ->
  uev_run N code fuel c s = Done r s' ->
  consistent s' /\ lockstep s' /\
  forall w, w ∈ list_of s' ->
    exists v e,
      heap s' !! w = Some v /\ interest_of s' !! fd v = Some e /\
      ev_data e = w /\ is_Some (fds s' !! fd v).
Proof.
  intros C H.
  assert (consistent s') as C'.
  { destruct c.
    - unfold uev_run in H. destruct (decide (CNULL = CNULL)); [|done].
      exec. destruct (cs_epoll s C) as (u & m & Hu & Hm).
      eapply (consistent_same s _ u u m); eauto; try done.
      apply fds_grow_refl.
    - by eapply uev_run_consistent. }
  split; [done|]. split; [by apply consistent_lockstep|].
  intros w Hw. apply (cs_live s' C') in Hw as [v Hv].
  destruct (cs_reg s' C' w v Hv) as (e & He & Htag).
  exists v, e. split_and!; try done. apply (cs_open s' C'). eauto.
Qed.

Lemma uev_run_keeps_lockstep_witness :
  let s := mixed false [WaitErr EINTR; Ready 50000000 [4]; ReadRet 8] in
  let s' := after (uev_run 10 stopping 5 CTX) s in
  consistent s' /\ lockstep s' /\
  forall w, w ∈ list_of s' ->
    exists v e,
      heap s' !! w = Some v /\ interest_of s' !! fd v = Some e /\
      ev_data e = w /\ is_Some (fds s' !! fd v).
Proof.
  intros s s'.
  apply (uev_run_keeps_lockstep 10 stopping 5 CTX s 0 s').
  - apply consistent_mixed.
  - vm_compute. reflexivity.
Defined.

(** X18: a periodic timer is left alone by the loop. When the watcher of a
    ready timer holds a nonzero period after its callback, the housekeeping of
    [uev_run] reads the expiration count and does nothing else: no
    timerfd_settime call, the watcher with its stored timeout and period, the
    list and the descriptors are as they were. It is the interval programmed
    into the kernel that makes the timer fire again. A read that does not
    deliver the eight bytes of the count sets [result] to -1 and lowers the
    running flag. *)
Theorem periodic_timer_is_left_alone w res s u v n rest :
  ctx s = Some u -> heap s !! w = Some v ->
  type v = UEV_TIMER_TYPE -> period v <> 0 ->
  env s = ReadRet n :: rest ->
  exists s',
    after_fire CTX w res s = Done (if decide (n = 8) then res else -1) s' /\
    log s' = log s ++ [EvRead (fd v) n] /\
    heap s' = heap s /\ fds s' = fds s /\ list_of s' = list_of s /\
    running_of s' = Some (if decide (n = 8) then running u else false).
Proof.
  intros Hu Hv Hty Hp He. unfold after_fire.
  unfold bind at 1. unfold load at 1. rewrite Hv.
  destruct (decide (UEV_TIMER_TYPE = type v)) as [_|]; [|congruence].
  unfold bind at 1. unfold read_timer, bind at 1, ask. rewrite He.
  unfold emit, bind, modify, ret. simpl.
  destruct (decide (n <> 8)) as [Hn|Hn].
  - destruct (decide (n = 8)) as [|_]; [done|].
    unfold get_ctx, put_ctx, modify, load. simpl. rewrite Hu. simpl.
    rewrite Hv. destruct (decide (period v = 0)); [done|].
    eexists. split; [reflexivity|]. simpl. split_and!; try done.
    unfold list_of. simpl. by rewrite Hu.
  - destruct (decide (n = 8)) as [_|]; [|lia].
    unfold load. simpl. rewrite Hv. destruct (decide (period v = 0)); [done|].
    eexists. split; [reflexivity|]. simpl. split_and!; try done.
    unfold running_of. simpl. by rewrite Hu.
Qed.

(** A timer of the running reactor of [mixed] rearmed as periodic. *)
Lemma periodic_timer_is_left_alone_witness :
  let s := after (uev_timer_set CTX 2 50 20) (mixed true [ReadRet 8]) in
  let v := Watcher 4 UEV_DIR_INBOUND UEV_TIMER_TYPE 100 0 50 20 in
  exists s',
    after_fire CTX 2 0 s = Done (if decide (8 = 8) then 0 else -1) s' /\
    log s' = log s ++ [EvRead (fd v) 8] /\
    heap s' = heap s /\ fds s' = fds s /\ list_of s' = list_of s /\
    running_of s' =
      Some (if decide (8 = 8) then running (Uev 3 true [2; 1] []) else false).
Proof.
  intros s v.
  apply (periodic_timer_is_left_alone 2 0 s (Uev 3 true [2; 1] []) v 8 []).
  - reflexivity.
  - vm_compute. reflexivity.
  - reflexivity.
  - simpl. lia.
  - reflexivity.
Defined.

(** X19: a callback must not delete the watcher it is called for. After the
    callback returns, the loop reads the type of that watcher (and, for a
    timer, its descriptor and period). If the callback has deleted the
    watcher, with [uev_io_delete] or with [uev_timer_delete], these reads are
    from a released block: the behaviour of [uev_run] is undefined from there
    on. *)
Theorem callback_must_not_delete_its_watcher code i res s u e v :
  consistent s -> ctx s = Some u -> events u !! i = Some e ->
  heap s !! ev_data e = Some v -> handler v <> NULL ->
  code (handler v) =
    Some (fun c w _ => SCall (CIoDelete c w) (fun _ => SDone)) \/
  code (handler v) =
    Some (fun c w _ => SCall (CTimerDelete c w) (fun _ => SDone)) ->
  dispatch code CTX i res s = Fault Undefined.
Proof.
  intros C Hu He Hv Hh Hcode.
  set (w := ev_data e) in *.
  assert (w ∈ watchers u) as Hin.
  { rewrite <- (list_of_eq s u Hu). apply (cs_live s C). eauto. }
  assert (w <> NULL) as Hw.
  { pose proof (cs_brk s C w (ex_intro _ v Hv)). unfold NULL. lia. }
  set (s1 := set_log (log s ++ [EvCallback (handler v) w (data v)]) s).
  assert (exists s3, fire code CTX w s = Done tt s3 /\ heap s3 !! w = None)
    as (s3 & Hf & Hgone).
  { destruct Hcode as [Hc|Hc].
    - set (s2 := set_log (log s1 ++ [EvCall (CIoDelete CTX w)]) s1).
      destruct (delete_watcher_total w s2 u v) as (s3 & E); try done.
      exists s3. split.
      + by apply (fire_one_call code (fun c x _ => CIoDelete c x) w s v 0 s3).
      + apply delete_watcher_done in E
          as [(? & _)|(_ & _ & _ & _ & _ & _ & _ & _ & _ & _ & -> & _)]; [lia|].
        apply lookup_delete_eq.
    - set (s2 := set_log (log s1 ++ [EvCall (CTimerDelete CTX w)]) s1).
      destruct (uev_timer_delete_total w s2 u v) as (s3 & E); try done.
      exists s3. split.
      + by apply (fire_one_call code (fun c x _ => CTimerDelete c x) w s v 0 s3).
      + assert (consistent s2) as C2.
        { eapply (emit_consistent _ s1); [|reflexivity].
          eapply (emit_consistent _ s); [done|reflexivity]. }
        destruct (uev_timer_delete_consistent _ _ _ _ _ C2 E)
          as (_ & [(? & _)|(_ & v' & _ & -> & _)]); [lia|].
        apply lookup_delete_eq. }
  unfold dispatch.
  rewrite (bind_eq (get_ctx CTX) _ s u s) by (unfold get_ctx; by rewrite Hu).
  rewrite He. fold w. rewrite (bind_eq _ _ s tt s3 Hf).
  unfold after_fire, bind, load. by rewrite Hgone.
Qed.

(** The I/O watcher of [both_ready] is dispatched, and the callback at
    address 100 deletes the watcher it is called for. *)
Lemma callback_must_not_delete_its_watcher_witness :
  dispatch self_deleting CTX 0 0 (both_ready []) = Fault Undefined.
Proof.
  apply (callback_must_not_delete_its_watcher self_deleting 0 0
           (both_ready [])
           (Uev 3 true [2; 1] [EpollEvent EPOLLIN 1; EpollEvent EPOLLIN 2])
           (EpollEvent EPOLLIN 1)
           (Watcher 5 UEV_DIR_INBOUND UEV_FILE_TYPE 100 0 0 0)).
  - apply consistent_both_ready.
  - reflexivity.
  - reflexivity.
  - reflexivity.
  - unfold NULL. simpl. lia.
  - left. reflexivity.
Defined.

(** X20: a callback must not delete a watcher that is ready in the same batch
    either. The event buffer was filled before the first callback ran and
    still holds the address of every ready watcher. When the callback of an
    I/O watcher deletes another watcher whose event comes next in the buffer,
    the loop goes on to that event and reads the callback pointer from the
    released block: the behaviour of [uev_run] is undefined. *)
Theorem callback_must_not_delete_ready_watcher
    code todo i res s u e1 e2 v1 v2 :
  consistent s -> ctx s = Some u ->
  events u !! i = Some e1 -> events u !! S i = Some e2 ->
  heap s !! ev_data e1 = Some v1 -> heap s !! ev_data e2 = Some v2 ->
  ev_data e1 <> ev_data e2 ->
  type v1 = UEV_FILE_TYPE -> handler v1 <> NULL ->
  code (handler v1) =
    Some (fun c _ d => SCall (CIoDelete c d) (fun _ => SDone)) ->
  data v1 = ev_data e2 ->
  dispatch_from code (S (S todo)) CTX i res s = Fault Undefined.
Proof.
  intros C Hu He1 He2 Hv1 Hv2 Hne Hty Hh Hcode Hdata.
  set (w1 := ev_data e1) in *. set (w2 := ev_data e2) in *.
  assert (w2 ∈ watchers u) as Hin.
  { rewrite <- (list_of_eq s u Hu). apply (cs_live s C). eauto. }
  assert (w2 <> NULL) as Hw.
  { pose proof (cs_brk s C w2 (ex_intro _ v2 Hv2)). unfold NULL. lia. }
  set (s1 := set_log (log s ++ [EvCallback (handler v1) w1 (data v1)]) s).
  set (s2 := set_log (log s1 ++ [EvCall (CIoDelete CTX (data v1))]) s1).
  destruct (delete_watcher_total w2 s2 u v2) as (s3 & E); try done.
  assert (fire code CTX w1 s = Done tt s3) as Hf.
  { apply (fire_one_call code (fun c _ d => CIoDelete c d) w1 s v1 0 s3);
      try done.
    simpl. unfold uev_io_delete. rewrite Hdata.
    pose proof E as E'. unfold s2, s1 in E'. rewrite Hdata in E'. exact E'. }
  apply delete_watcher_done in E
    as [(? & _)|(_ & _ & _ & u3 & v3 & rc & Hu3 & _ & _ & Hc3 & Hh3 & _)]; [lia|].
  simpl in Hu3. assert (u3 = u) as -> by congruence.
  assert (dispatch code CTX i res s = Done res s3) as Hd.
  { unfold dispatch.
    rewrite (bind_eq (get_ctx CTX) _ s u s) by (unfold get_ctx; by rewrite Hu).
    rewrite He1. fold w1. rewrite (bind_eq _ _ s tt s3 Hf).
    unfold after_fire, bind, load.
    rewrite Hh3, lookup_delete_ne by done. simpl. rewrite Hv1.
    destruct (decide (UEV_TIMER_TYPE = type v1)); [congruence|done]. }
  simpl. rewrite (bind_eq _ _ s res s3 Hd).
  unfold bind at 1. unfold dispatch, bind at 1, get_ctx. rewrite Hc3. simpl.
  rewrite He2. fold w2. unfold bind, fire, bind, load.
  rewrite Hh3. simpl. by rewrite lookup_delete_eq.
Qed.

(** Both watchers of [entangled] are ready; the callback of the I/O
    watcher deletes the timer watcher, whose event is next. *)
Lemma callback_must_not_delete_ready_watcher_witness :
  dispatch_from deleting 2 CTX 0 0 (entangled []) = Fault Undefined.
Proof.
  apply (callback_must_not_delete_ready_watcher deleting 0 0 0 (entangled [])
           (Uev 3 true [2; 1] [EpollEvent EPOLLIN 1; EpollEvent EPOLLIN 2])
           (EpollEvent EPOLLIN 1) (EpollEvent EPOLLIN 2)
           (Watcher 5 UEV_DIR_INBOUND UEV_FILE_TYPE 100 2 0 0)
           (Watcher 4 UEV_DIR_INBOUND UEV_TIMER_TYPE 100 0 50 0)).
  - apply (consistent_same (both_ready []) (entangled [])
             (Uev 3 true [2; 1] [EpollEvent EPOLLIN 1; EpollEvent EPOLLIN 2])
             (Uev 3 true [2; 1] [EpollEvent EPOLLIN 1; EpollEvent EPOLLIN 2])
             {[ 5 := EpollEvent EPOLLIN 1; 4 := EpollEvent EPOLLIN 2 ]});
      try done; try (vm_compute; reflexivity).
    + apply consistent_both_ready.
    + intros w. simpl.
      destruct (decide (w = 1)) as [->|H1]; [done|].
      rewrite !(lookup_insert_ne _ 1 w) by done. done.
    + apply fds_grow_refl.
  - reflexivity.
  - reflexivity.
  - reflexivity.
  - reflexivity.
  - reflexivity.
  - simpl. lia.
  - reflexivity.
  - unfold NULL. simpl. lia.
  - reflexivity.
  - reflexivity.
Defined.

(** X21: an exit request made before the loop starts is forgotten. [uev_run]
    raises the running flag without looking at it, so it behaves the same
    whatever the flag was at the call; in particular [uev_exit] followed by
    [uev_run] is [uev_run]. *)
Theorem exit_before_run_is_forgotten N code fuel s u b :
  ctx s = Some u ->
  uev_run N code fuel CTX
    (set_ctx (Some (Uev (efd u) b (watchers u) (events u))) s)
  = uev_run N code fuel CTX s /\
  (uev_exit CTX ;; uev_run N code fuel CTX) s = uev_run N code fuel CTX s.
Proof.
  intros Hu.
  assert (forall b', uev_run N code fuel CTX
            (set_ctx (Some (Uev (efd u) b' (watchers u) (events u))) s)
          = uev_run N code fuel CTX s) as Hany.
  { intros b'. unfold uev_run.
    destruct (decide (CTX = CNULL)); [done|].
    assert (start_timers CTX
              (set_ctx (Some (Uev (efd u) b' (watchers u) (events u))) s)
            = start_timers CTX s) as E.
    { unfold start_timers, bind, get_ctx, put_ctx, modify. simpl.
      by rewrite Hu. }
    unfold bind. by rewrite E. }
  split; [apply Hany|].
  unfold bind at 1. unfold uev_exit, bind, get_ctx, put_ctx, modify.
  rewrite Hu. apply Hany.
Qed.

Lemma exit_before_run_is_forgotten_witness :
  let s := mixed false [Ready 50000000 [4]; ReadRet 8] in
  uev_run 10 stopping 5 CTX
    (set_ctx (Some (Uev 3 true [2; 1] [])) s)
  = uev_run 10 stopping 5 CTX s /\
  (uev_exit CTX ;; uev_run 10 stopping 5 CTX) s = uev_run 10 stopping 5 CTX s.
Proof.
  intros s.
  apply (exit_before_run_is_forgotten 10 stopping 5 s (Uev 3 false [2; 1] [])
           true).
  reflexivity.
Defined.
